(** * A shallow embedding of the trading-signal pipeline

  The development follows the Python sources module by module:

  - [Py]               exceptions, results, a few builtins, and the monad
                       of stateful code that may raise;
  - [Config]           [config.py], the [INDICATORS] table;
  - [SolanaClient]     [solana_client.py], the retry loop of [_make_request];
  - [BinanceClient]    [binance_client.py], [_request] and the futures calls;
  - [Indicators]       the indicator classes, as far as the generator sees them;
  - [SignalGenerator]  [signal_generator.py], cache, schedule and the six producers;
  - [SignalProcessor]  [signal_processor.py], the weighted fusion;
  - [Binary64]         [signal_processor.py] once more, with the arithmetic of
                       the doubles;
  - [SolanaQueries]    [solana_client.py], the queries on top of
                       [_make_request], with [get_onchain_metrics] of
                       [on_chain.py] and [track_whale_transfers] of
                       [order_flow.py];
  - [Along], [Pipeline] notions shared by the statements.

  The second half states and proves the properties: for each module of the
  embedding its facts, and then its laws, the further properties of the
  code.

  Python [int]s are represented by [Z], [str] by [string].  The readings of
  the indicators and the numbers derived from them are exact rationals
  ([Q]).  The fusion is given twice: over [Q] for what it keeps, drops,
  raises and lists, and over the kernel's binary64 numbers for what it
  computes and compares.  A [dict] whose iteration order is observable is
  an association list in insertion order, a [dict] that is only looked up
  and updated is a [gmap].  Everything the program gets from outside (the
  network, the clock, the indicator readings) is a parameter of the
  embedding, so that the theorems hold for every behaviour of the
  outside. *)

From Stdlib Require Import ZArith QArith Qround Qminmax Qabs Lia Lqa List String Ascii Bool.
From Stdlib Require PrimFloat FloatOps SpecFloat FloatAxioms.
From stdpp Require Import gmap strings pretty.
Import ListNotations.

(** ** Python exceptions and results *)

Module Py.

(** What a JSON-RPC call hands back: [None] or some JSON text. *)
Inductive value :=
| PyNone
| Json (text : string).

(** [requests.exceptions.RequestException] and its subclasses. *)
Inductive request_failure :=
| Transport (msg : string)
| HTTPError (status : Z) (url : string).

(** [Exception prefix cause] stands for [Exception(prefix + str(cause))]. *)
Inductive exn :=
| RequestException (f : request_failure)
| Exception (prefix : string) (cause : option request_failure)
| KeyError (key : string)
| ValueError (what : string)
| ZeroDivisionError
| OverflowError
| TypeError
| AttributeError.

Inductive result (A : Type) :=
| Return (a : A)
| Raise (e : exn).
Arguments Return {A} a.
Arguments Raise {A} e.

(** [c.lower()] on the ASCII range. *)
Definition lower_ascii (c : ascii) : ascii :=
  let n := nat_of_ascii c in
  if ((65 <=? n) && (n <=? 90))%nat then ascii_of_nat (n + 32) else c.

Fixpoint lower (s : string) : string :=
  match s with
  | EmptyString => EmptyString
  | String c s' => String (lower_ascii c) (lower s')
  end.

(** [needle in hay] for strings. *)
Definition contains (needle hay : string) : bool :=
  match String.index 0 needle hay with
  | Some _ => true
  | None => false
  end.

(** *** Numbers *)

Definition gt (x y : Q) : bool :=
  match (x ?= y)%Q with Gt => true | _ => false end.

Definition lt (x y : Q) : bool :=
  match (x ?= y)%Q with Lt => true | _ => false end.

Definition ge (x y : Q) : bool := negb (lt x y).
Definition le (x y : Q) : bool := negb (gt x y).

(** [1 if x > 0 else -1 if x < 0 else 0] *)
Definition sign (x : Q) : Z :=
  if gt x 0 then 1%Z else if lt x 0 then (-1)%Z else 0%Z.

(** [round(x)]: to the nearest integer, ties to the even one. *)
Definition round (x : Q) : Z :=
  let f := Qfloor x in
  match (x - inject_Z f ?= 1 # 2)%Q with
  | Lt => f
  | Gt => (f + 1)%Z
  | Eq => if Z.even f then f else (f + 1)%Z
  end.

(** [sum(xs)] *)
Definition sum (xs : list Q) : Q := fold_left Qplus xs 0%Q.

(** [x / y] with a denominator that may be zero. *)
Definition truediv (x y : Q) : result Q :=
  if Qeq_bool y 0 then Raise ZeroDivisionError else Return (x / y)%Q.

(** *** Dictionaries in insertion order *)

Fixpoint dict_get {V : Type} (d : list (string * V)) (k : string) : option V :=
  match d with
  | [] => None
  | (k', v) :: d' => if String.eqb k k' then Some v else dict_get d' k
  end.

Definition dict_in {V : Type} (k : string) (d : list (string * V)) : bool :=
  match dict_get d k with Some _ => true | None => false end.

(** [d[k] = v]: a known key keeps its place, a new one goes last. *)
Fixpoint dict_set {V : Type} (d : list (string * V)) (k : string) (v : V)
    : list (string * V) :=
  match d with
  | [] => [(k, v)]
  | (k', v') :: d' =>
      if String.eqb k k' then (k, v) :: d' else (k', v') :: dict_set d' k v
  end.

(** *** Stateful code that may raise *)

Definition M (S A : Type) : Type := S -> result A * S.

Definition ret {S A : Type} (a : A) : M S A := fun s => (Return a, s).

Definition raise {S A : Type} (e : exn) : M S A := fun s => (Raise e, s).

Definition bind {S A B : Type} (m : M S A) (k : A -> M S B) : M S B :=
  fun s =>
    match m s with
    | (Return a, s') => k a s'
    | (Raise e, s') => (Raise e, s')
    end.

(** [try: body  except Exception as e: handler] *)
Definition try_except {S A : Type} (body : M S A) (handler : exn -> M S A) : M S A :=
  fun s =>
    match body s with
    | (Return a, s') => (Return a, s')
    | (Raise e, s') => handler e s'
    end.

Definition get {S : Type} : M S S := fun s => (Return s, s).
Definition put {S : Type} (s : S) : M S unit := fun _ => (Return tt, s).

Definition lift_result {S A : Type} (r : result A) : M S A := fun s => (r, s).

(** Run a computation on a component of the state. *)
Definition zoom {S T A : Type} (proj : S -> T) (upd : T -> S -> S) (m : M T A) : M S A :=
  fun s => let (r, t) := m (proj s) in (r, upd t s).

Declare Scope py_scope.
Delimit Scope py_scope with py.
Notation "x <- m ;; k" := (bind m (fun x => k))
  (at level 100, m at next level, right associativity) : py_scope.
Notation "m ;;; k" := (bind m (fun _ => k))
  (at level 100, right associativity) : py_scope.

End Py.

(** ** config.py *)

Module Config.

Record Indicator := {
  update_interval : Z;
  validity_period : Z;
  components : list string
}.

Definition INDICATORS : list (string * Indicator) :=
  [ ("ORDER_FLOW",
     {| update_interval := 60; validity_period := 120;
        components := ["delta"; "footprint"; "whale_transfers"] |});
    ("BLOCKCHAIN_OI",
     {| update_interval := 120; validity_period := 180;
        components := ["whale_transfers"; "open_interest"; "vwap"] |});
    ("MARKET_DEPTH",
     {| update_interval := 60; validity_period := 120;
        components := ["iceberg"; "cvd"; "spoofing"] |});
    ("SENTIMENT",
     {| update_interval := 180; validity_period := 180;
        components := ["long_short_ratio"; "funding_rate"; "footprint"] |});
    ("ON_CHAIN",
     {| update_interval := 120; validity_period := 180;
        components := ["transactions"; "tps"; "active_addresses"] |});
    ("SCALP",
     {| update_interval := 60; validity_period := 120;
        components := ["delta"; "iceberg"; "whale_transfers"] |}) ]%string.

Definition SYMBOL : string := "SOLUSDT".

End Config.

(** ** solana_client.py *)

Module SolanaClient.
Import Py.
Local Open Scope Z_scope.

(** The fields of the client that [_make_request] reads; the request
    counters set by the constructor are used nowhere. *)
Record t := {
  rpc_url : string;
  fallback_endpoints : list string
}.

Definition __init__ (url : option string) : t :=
  {| rpc_url :=
       match url with
       | Some u => if String.eqb u "" then "https://api.mainnet-beta.solana.com"%string else u
       | None => "https://api.mainnet-beta.solana.com"%string
       end;
     fallback_endpoints :=
       [ "https://solana-api.projectserum.com";
         "https://solana-mainnet.g.alchemy.com/v2/demo";
         "https://rpc.ankr.com/solana" ]%string |}.

(** *** The network as seen by one call *)

(** The [Retry-After] header of a response. *)
Inductive retry_after :=
| NoHeader
| HeaderInt (n : Z)
| HeaderText (s : string).

(** The decoded JSON body: a [result] member, an [error] member (given by
    its [str]), or neither. *)
Inductive body :=
| Result (v : value)
| Error (err : string)
| NoResult.

(** What [requests.post] does: raise a [RequestException] or answer. *)
Inductive response :=
| Failed (msg : string)
| Http (status : Z) (ra : retry_after) (b : body).

(** The answer to the k-th request of a call, sent to a given endpoint. *)
Definition network := nat -> string -> response.

Inductive event :=
| Sleep (seconds : Z)
| Post (endpoint method : string).

(** *** The loop *)

Definition max_retries : Z := 3.
Definition base_delay : Z := 2.

(** The longest [time.sleep] takes, in whole seconds: the length is kept in
    nanoseconds in 64 bits, and an integer beyond that range, on either
    side, raises [OverflowError] before the sign is looked at. *)
Definition sleep_max : Z := 9223372036.

Record loop_state := {
  retry_count : Z;
  current_endpoint_index : nat;
  requests : nat;          (* requests sent so far: the key into the network *)
  trace : list event
}.

Definition initial : loop_state :=
  {| retry_count := 0; current_endpoint_index := 0; requests := 0; trace := [] |}.

Definition endpoints (self : t) : list string :=
  rpc_url self :: fallback_endpoints self.

Definition current_endpoint (self : t) (index : nat) : string :=
  nth (index mod length (endpoints self)) (endpoints self) ""%string.

Inductive step_result :=
| Continue (st : loop_state)
| Stop (r : result value) (st : loop_state).

(** [current_endpoint_index += 1], and [retry_count += 1] when the index
    is back at a multiple of the pool size. *)
Definition next_endpoint (self : t) (st : loop_state) (tr : list event) : loop_state :=
  let index := S (current_endpoint_index st) in
  {| retry_count :=
       if (index mod length (endpoints self) =? 0)%nat
       then retry_count st + 1 else retry_count st;
     current_endpoint_index := index;
     requests := S (requests st);
     trace := tr |}.

(** [current_endpoint_index += 1] alone, as in the rate-limit payload branch. *)
Definition skip_endpoint (st : loop_state) (tr : list event) : loop_state :=
  {| retry_count := retry_count st;
     current_endpoint_index := S (current_endpoint_index st);
     requests := S (requests st);
     trace := tr |}.

(** The request went out and the indices stay as they are. *)
Definition sent (st : loop_state) (tr : list event) : loop_state :=
  {| retry_count := retry_count st;
     current_endpoint_index := current_endpoint_index st;
     requests := S (requests st);
     trace := tr |}.

(** The [except requests.exceptions.RequestException] handler. *)
Definition on_request_exception (self : t) (st : loop_state) (tr : list event)
    (e : request_failure) : step_result :=
  let st' := next_endpoint self st tr in
  if max_retries <? retry_count st'
  then Stop (Raise (Exception "خطأ في طلب سولانا: " (Some e))) st'
  else Continue st'.

(** The [status_code == 429] branch. *)
Definition on_429 (self : t) (st : loop_state) (tr : list event)
    (ra : retry_after) : step_result :=
  let st' := next_endpoint self st tr in
  match ra with
  | HeaderText s => Stop (Raise (ValueError s)) st'
  | _ =>
      let retry_delay := match ra with HeaderInt n => n | _ => 2 end in
      if (retry_delay <? - sleep_max) || (sleep_max <? retry_delay)
      then Stop (Raise OverflowError) st'
      else if retry_delay <? 0
      then Stop (Raise (ValueError "sleep length must be non-negative")) st'
      else Continue {| retry_count := retry_count st';
                       current_endpoint_index := current_endpoint_index st';
                       requests := requests st';
                       trace := tr ++ [Sleep retry_delay] |}
  end.

Definition is_rate_limit (err : string) : bool :=
  contains "rate limit" (lower err) || contains "too many" (lower err).

(** One pass through the body of the [while]. *)
Definition iteration (self : t) (net : network) (method : string)
    (st : loop_state) : step_result :=
  let endpoint := current_endpoint self (current_endpoint_index st) in
  let tr1 :=
    if 0 <? retry_count st
    then trace st ++ [Sleep (base_delay * 2 ^ (retry_count st - 1))]
    else trace st in
  let tr2 := tr1 ++ [Post endpoint method] in
  match net (requests st) endpoint with
  | Failed msg => on_request_exception self st tr2 (Transport msg)
  | Http status ra b =>
      if status =? 429 then on_429 self st tr2 ra
      else if (400 <=? status) && (status <? 600)
      then on_request_exception self st tr2 (HTTPError status endpoint)
      else
        match b with
        | Error err =>
            if is_rate_limit err
            then Continue (skip_endpoint st tr2)
            else Stop (Raise (Exception ("خطأ RPC سولانا: " ++ err) None)) (sent st tr2)
        | Result v => Stop (Return v) (sent st tr2)
        | NoResult => Stop (Raise (KeyError "result")) (sent st tr2)
        end
  end.

Inductive outcome :=
| Finished (r : result value) (st : loop_state)
| OutOfFuel (st : loop_state).

(** [while retry_count <= max_retries: ...]; falling out of the loop is
    the implicit [return None]. *)
Fixpoint loop (self : t) (net : network) (method : string)
    (fuel : nat) (st : loop_state) : outcome :=
  if max_retries <? retry_count st then Finished (Return PyNone) st
  else
    match fuel with
    | O => OutOfFuel st
    | S fuel' =>
        match iteration self net method st with
        | Continue st' => loop self net method fuel' st'
        | Stop r st' => Finished r st'
        end
    end.

Definition _make_request (self : t) (net : network) (method : string)
    (fuel : nat) : outcome :=
  loop self net method fuel initial.

Definition sleeps (tr : list event) : list Z :=
  flat_map (fun e => match e with Sleep d => [d] | Post _ _ => [] end) tr.

Definition posts (tr : list event) : list string :=
  flat_map (fun e => match e with Sleep _ => [] | Post u _ => [u] end) tr.

(** *** The schedule of a rate-limited call *)

(** The sleep taken before a request of the given cycle (cycle 0 is the
    first pass over the pool). *)
Definition backoff_delay (cycle : nat) : list Z :=
  if (0 <? cycle)%nat then [base_delay * 2 ^ (Z.of_nat cycle - 1)] else [].

(** The pause after a 429 answer: the [Retry-After] seconds, else 2. *)
Definition pause (ra : retry_after) : Z :=
  match ra with HeaderInt n => n | _ => 2 end.

(** What request [k] of a rate-limited call leaves in the trace: the
    backoff of its cycle, the request, and the pause after the answer. *)
Definition request_events (self : t) (method : string) (h : nat -> retry_after)
    (k : nat) : list event :=
  map Sleep (backoff_delay (k / length (endpoints self)))
  ++ [Post (current_endpoint self k) method; Sleep (pause (h k))].

Definition rate_limited_trace (self : t) (method : string) (h : nat -> retry_after)
    : list event :=
  flat_map (request_events self method h) (seq 0 (4 * length (endpoints self))).

(** A transport-level failure, an HTTP 5xx or an HTTP 429. *)
Definition endpoint_failure (r : response) : Prop :=
  match r with
  | Failed _ => True
  | Http status _ _ => status = 429 \/ 500 <= status < 600
  end.

(** Every endpoint answers HTTP 429; the k-th answer carries header [h k]. *)
Definition always_429 (net : network) (h : nat -> retry_after) : Prop :=
  forall k url, exists b, net k url = Http 429 (h k) b.

(** The first [j] requests of a call fail, and none of the failures ends
    the call by itself. *)
Definition first_fail (self : t) (net : network) (j : nat) : Prop :=
  forall k, (k < j)%nat ->
    match net k (current_endpoint self k) with
    | Failed _ => True
    | Http status ra _ =>
        (status = 429 /\ match ra with
                         | NoHeader => True
                         | HeaderInt n => 0 <= n <= sleep_max
                         | HeaderText _ => False
                         end)
        \/ 500 <= status < 600
    end.

(** A pool of three endpoints, and a network on which the first two answer
    HTTP 500 and the third HTTP 200. *)
Definition pool3 : t :=
  {| rpc_url := "https://one.example";
     fallback_endpoints := ["https://two.example"; "https://three.example"]%string |}.

Definition net_500_500_200 : network :=
  fun _ url =>
    if String.eqb url "https://three.example"
    then Http 200 NoHeader (Result (Json "12345"))
    else Http 500 NoHeader NoResult.

(** Every endpoint answers HTTP 429, without or with a [Retry-After]. *)
Definition net_429 : network := fun _ _ => Http 429 NoHeader NoResult.
Definition net_429_retry_after (n : Z) : network :=
  fun _ _ => Http 429 (HeaderInt n) NoResult.

(** Every endpoint fails at the transport level. *)
Definition net_down : network := fun _ _ => Failed "Connection refused".

(** Every endpoint answers HTTP 200 with a rate-limit error payload. *)
Definition net_rate_limit_payload : network :=
  fun _ _ => Http 200 NoHeader (Error "{'code': 429, 'message': 'Too many requests'}").

Definition well_formed_header (ra : retry_after) : Prop :=
  match ra with
  | NoHeader => True
  | HeaderInt n => 0 <= n <= sleep_max
  | HeaderText _ => False
  end.

(** The loop state after [k] rate-limited requests. *)
Definition after (self : t) (k : nat) (tr : list event) : loop_state :=
  {| retry_count := Z.of_nat (k / length (endpoints self));
     current_endpoint_index := k; requests := k; trace := tr |}.

(** *** Notions used in further statements *)

(** An answer that the loop takes for a rate limit reported in the payload:
    no HTTP error status, and an [error] member that mentions it. *)
Definition rate_limit_payload (r : response) : bool :=
  match r with
  | Http status _ (Error err) =>
      negb (status =? 429) && negb ((400 <=? status) && (status <? 600))
      && is_rate_limit err
  | _ => false
  end.

(** How the call ends when the failure [r] of [endpoint] uses up the last
    retry. *)
Definition exhausted (endpoint : string) (r : response) : result value :=
  match r with
  | Failed msg => Raise (Exception "خطأ في طلب سولانا: " (Some (Transport msg)))
  | Http status _ _ =>
      if status =? 429 then Return PyNone
      else Raise (Exception "خطأ في طلب سولانا: " (Some (HTTPError status endpoint)))
  end.

(** The last request of the fourth cycle. *)
Definition last_request (self : t) : nat := 4 * length (endpoints self) - 1.

(** Cycles of transport failures, the very last answer being HTTP 429. *)
Definition net_down_then_429 : network :=
  fun k _ => if (k =? 15)%nat then Http 429 NoHeader NoResult
             else Failed "Connection refused".

End SolanaClient.

(** ** binance_client.py *)

Module BinanceClient.
Import Py.
Local Open Scope string_scope.

(** [urllib3.util.retry.Retry], as configured by [_request]. *)
Record Retry := {
  total : Z;
  backoff_factor : Z;
  status_forcelist : list Z;
  allowed_methods : list string
}.

(** A [requests.Session]: default headers and mounted adapters, each
    adapter given by its retry policy ([None] for the library default). *)
Record Session := {
  headers : gmap string string;
  adapters : gmap string (option Retry)
}.

(** The client object.  [session] is a reference into the heap of
    [Session] objects: the attribute is never rebound, the object behind it
    is mutated by [mount]. *)
Record t := {
  base_url : string;
  api_key : string;
  api_secret : string;
  session : nat
}.

Record Request := {
  req_method : string;
  req_url : string;
  req_params : list (string * string);
  req_timeout : Z * Z
}.

(** What [session.request] does, retries of the adapter included: raise a
    [RequestException], or answer with a status and a body that is JSON
    text or not. *)
Inductive response :=
| Raises (f : request_failure)
| Answer (status : Z) (json : option string).

Record World := {
  heap : gmap nat Session;
  sent : list Request
}.

(** [BinanceClient()]: a new session with the two headers set; the keys
    come from [config.py]. *)
Definition __init__ (BINANCE_API_KEY BINANCE_SECRET_KEY : string) : M World t :=
  fun w =>
    let ref := fresh (dom (heap w)) in
    (Return {| base_url := "https://api.binance.com";
               api_key := BINANCE_API_KEY;
               api_secret := BINANCE_SECRET_KEY;
               session := ref |},
     {| heap := <[ref := {| headers := {[ "X-MBX-APIKEY" := BINANCE_API_KEY;
                                          "Content-Type" := "application/json" ]};
                            adapters := {[ "https://" := None; "http://" := None ]} |}]>
                  (heap w);
        sent := sent w |}).

Definition set_base_url (self : t) (url : string) : t :=
  {| base_url := url; api_key := api_key self;
     api_secret := api_secret self; session := session self |}.

(** [session.mount(prefix, adapter)] on the session behind [ref]. *)
Definition mount (ref : nat) (prefix : string) (adapter : option Retry) : M World unit :=
  fun w =>
    (Return tt,
     {| heap := alter (fun s => {| headers := headers s;
                                   adapters := <[prefix := adapter]> (adapters s) |})
                      ref (heap w);
        sent := sent w |}).

Section WithServer.

(** The upstream: the answer to the k-th request; the clock in
    milliseconds; and the two library functions behind the signature. *)
Variable server : nat -> Request -> response.
Variable time_ms : nat -> Z.
Variable urlencode : list (string * string) -> string.
Variable hmac_sha256_hexdigest : string -> string -> string.
Variable str_of_int : Z -> string.

Definition _generate_signature (self : t) (params : list (string * string)) : string :=
  let query_string := urlencode params in
  hmac_sha256_hexdigest (api_secret self) query_string.

(** [session.request(method, url, **kwargs)] *)
Definition session_request (req : Request) : M World response :=
  fun w =>
    (Return (server (length (sent w)) req),
     {| heap := heap w; sent := sent w ++ [req] |}).

Definition _request (self : t) (method endpoint : string) (signed : bool)
    (params : list (string * string)) : M World string :=
  (let url := base_url self ++ endpoint in
   w <- get ;;
   let params :=
     if signed then
       let params := dict_set params "timestamp" (str_of_int (time_ms (length (sent w)))) in
       dict_set params "signature" (_generate_signature self params)
     else params in
   let retry_strategy :=
     {| total := 3; backoff_factor := 2;
        status_forcelist := [429; 500; 502; 503; 504]%Z;
        allowed_methods := ["GET"; "POST"] |} in
   mount (session self) "https://" (Some retry_strategy) ;;;
   mount (session self) "http://" (Some retry_strategy) ;;;
   response <- session_request {| req_method := method; req_url := url;
                                  req_params := params; req_timeout := (30, 30)%Z |} ;;
   (* the [except] clause logs and re-raises *)
   match response with
   | Raises f => raise (RequestException f)
   | Answer status json =>
       if ((400 <=? status) && (status <? 600))%Z
       then raise (RequestException (HTTPError status url))
       else match json with
            | Some text => ret text
            | None => raise (ValueError "JSONDecodeError")
            end
   end)%py.

(** [try: result = body  finally: cleanup], then [return result]; the
    clean-up runs on both ways out and an exception is raised again. *)
Definition try_finally {A : Type} (self : t) (body : M World A) (cleanup : t -> t)
    : World -> result A * t * World :=
  fun w => let (r, w') := body w in (r, cleanup self, w').

Definition get_funding_rate (self : t) (symbol : string)
    : World -> result string * t * World :=
  let endpoint := "/fapi/v1/premiumIndex" in
  let params := [("symbol", symbol)] in
  let original_base := base_url self in
  let self := set_base_url self "https://fapi.binance.com" in
  try_finally self (_request self "GET" endpoint false params)
              (fun self => set_base_url self original_base).

Definition get_open_interest (self : t) (symbol : string)
    : World -> result string * t * World :=
  let endpoint := "/fapi/v1/openInterest" in
  let params := [("symbol", symbol)] in
  let original_base := base_url self in
  let self := set_base_url self "https://fapi.binance.com" in
  try_finally self (_request self "GET" endpoint false params)
              (fun self => set_base_url self original_base).

Definition get_long_short_ratio (self : t) (symbol period : string) (limit : Z)
    : World -> result string * t * World :=
  let endpoint := "/futures/data/globalLongShortAccountRatio" in
  let params := [("symbol", symbol); ("period", period); ("limit", str_of_int limit)] in
  let original_base := base_url self in
  let self := set_base_url self "https://fapi.binance.com" in
  try_finally self (_request self "GET" endpoint false params)
              (fun self => set_base_url self original_base).

(** What the caller of [_request] gets for an answer of the server. *)
Definition passed_on (url : string) (r : response) : result string :=
  match r with
  | Raises f => Raise (RequestException f)
  | Answer status json =>
      if ((400 <=? status) && (status <? 600))%Z
      then Raise (RequestException (HTTPError status url))
      else match json with
           | Some text => Return text
           | None => Raise (ValueError "JSONDecodeError")
           end
  end.

(** A futures call started on client [self] in world [w] has [run] for its
    outcome: one GET to the futures host, the answer handed on, and the
    client as it was. *)
Definition swapped_and_restored (self : t) (w : World) (endpoint : string)
    (params : list (string * string)) (run : result string * t * World) : Prop :=
  let futures := "https://fapi.binance.com" in
  let req := {| req_method := "GET"; req_url := futures ++ endpoint;
                req_params := params; req_timeout := (30, 30)%Z |} in
  let '(r, self', w') := run in
  self' = self /\
  base_url self' = base_url self /\
  sent w' = (sent w ++ [req])%list /\
  r = passed_on (futures ++ endpoint) (server (length (sent w)) req).

End WithServer.

(** *** The spot calls, and a client in use *)

Section Calls.
Variable server : nat -> Request -> response.
Variable time_ms : nat -> Z.
Variable urlencode : list (string * string) -> string.
Variable hmac_sha256_hexdigest : string -> string -> string.
Variable str_of_int : Z -> string.

Definition get_recent_trades (self : t) (symbol : string) (limit : Z) : M World string :=
  let endpoint := "/api/v3/trades" in
  let params := [("symbol", symbol); ("limit", str_of_int limit)] in
  _request server time_ms urlencode hmac_sha256_hexdigest str_of_int
           self "GET" endpoint false params.

(** [if start_time:] and [if end_time:] leave out [None] and 0. *)
Definition get_klines (self : t) (symbol interval : string) (limit : Z)
    (start_time end_time : option Z) : M World string :=
  let endpoint := "/api/v3/klines" in
  let params := [("symbol", symbol); ("interval", interval); ("limit", str_of_int limit)] in
  let params :=
    match start_time with
    | Some t => if (t =? 0)%Z then params else dict_set params "startTime" (str_of_int t)
    | None => params
    end in
  let params :=
    match end_time with
    | Some t => if (t =? 0)%Z then params else dict_set params "endTime" (str_of_int t)
    | None => params
    end in
  _request server time_ms urlencode hmac_sha256_hexdigest str_of_int
           self "GET" endpoint false params.

Definition get_ticker_24hr (self : t) (symbol : string) : M World string :=
  let endpoint := "/api/v3/ticker/24hr" in
  let params := [("symbol", symbol)] in
  _request server time_ms urlencode hmac_sha256_hexdigest str_of_int
           self "GET" endpoint false params.

(** The calls a user of the client can make, with their arguments. *)
Inductive call :=
| RecentTrades (symbol : string) (limit : Z)
| Klines (symbol interval : string) (limit : Z) (start_time end_time : option Z)
| Ticker24hr (symbol : string)
| FundingRate (symbol : string)
| OpenInterest (symbol : string)
| LongShortRatio (symbol period : string) (limit : Z).

Definition make (self : t) (c : call) : World -> result string * t * World :=
  match c with
  | RecentTrades symbol limit =>
      fun w => let (r, w') := get_recent_trades self symbol limit w in (r, self, w')
  | Klines symbol interval limit start_time end_time =>
      fun w =>
        let (r, w') := get_klines self symbol interval limit start_time end_time w in
        (r, self, w')
  | Ticker24hr symbol =>
      fun w => let (r, w') := get_ticker_24hr self symbol w in (r, self, w')
  | FundingRate symbol =>
      get_funding_rate server time_ms urlencode hmac_sha256_hexdigest str_of_int
                       self symbol
  | OpenInterest symbol =>
      get_open_interest server time_ms urlencode hmac_sha256_hexdigest str_of_int
                        self symbol
  | LongShortRatio symbol period limit =>
      get_long_short_ratio server time_ms urlencode hmac_sha256_hexdigest str_of_int
                           self symbol period limit
  end.

(** One client used for a series of calls, by callers that go on after a
    failure: the client and the world after the last call. *)
Fixpoint use (self : t) (calls : list call) (w : World) : t * World :=
  match calls with
  | [] => (self, w)
  | c :: rest => let '(_, self', w') := make self c w in use self' rest w'
  end.

End Calls.

(** The host and path a call is meant for. *)
Definition futures_call (c : call) : bool :=
  match c with
  | FundingRate _ | OpenInterest _ | LongShortRatio _ _ _ => true
  | _ => false
  end.

Definition path (c : call) : string :=
  match c with
  | RecentTrades _ _ => "/api/v3/trades"
  | Klines _ _ _ _ _ => "/api/v3/klines"
  | Ticker24hr _ => "/api/v3/ticker/24hr"
  | FundingRate _ => "/fapi/v1/premiumIndex"
  | OpenInterest _ => "/fapi/v1/openInterest"
  | LongShortRatio _ _ _ => "/futures/data/globalLongShortAccountRatio"
  end.

Definition address (spot : string) (c : call) : string :=
  (if futures_call c then "https://fapi.binance.com" else spot) ++ path c.

End BinanceClient.

(** ** The indicator classes, as the generator sees them

    Every method fetches market data through the clients and condenses it
    into a data class.  The fetching and condensing is the upstream here:
    for each method, the outcome of its body at each step of the run.  What
    is kept of each method is its exception handling: the methods of
    [order_flow.py] have none, the methods of the other four modules wrap
    their whole body in [try ... except Exception] and answer with a
    neutral record. *)

Module Indicators.
Import Py.

Module DeltaData.
Record t := {
  timestamp : Z; buy_volume : Q; sell_volume : Q; delta : Q; price : Q
}.
End DeltaData.

Module FootprintData.
Record t := {
  timestamp : Z;
  price_levels : list (Q * (Q * Q));
  delta_by_level : list (Q * Q)
}.
End FootprintData.

Module Transfer.
Record t := {
  signature : option string;
  timestamp : option Z;
  from_address : option string;
  to_address : option string;
  value_sol : Q;
  value_usd : Q;
  type : option string
}.
End Transfer.

Module WhaleData.
Record t := {
  timestamp : Z;
  transfers : list Transfer.t;
  total_value : Q;
  cex_transfers : list Transfer.t;
  dex_transfers : list Transfer.t;
  cex_value : Q;
  dex_value : Q
}.
End WhaleData.

Module OpenInterestData.
Record t := {
  timestamp : Z; open_interest : Q; open_interest_value : Q; change_24h : Q
}.
End OpenInterestData.

Module VWAPData.
Record t := {
  timestamp : Z; vwap : Q; price : Q; distance_from_vwap : Q
}.
End VWAPData.

Module IcebergLevel.
Record t := {
  price : Q; quantity : Q; repetitions : Z; side : string; estimated_total : Q
}.
End IcebergLevel.

Module IcebergData.
Record t := {
  timestamp : Z; detected_levels : list IcebergLevel.t; strength : Q
}.
End IcebergData.

Module CVDData.
Record t := {
  timestamp : Z; cvd_value : Q; cvd_change : Q; buy_volume : Q; sell_volume : Q
}.
End CVDData.

Module SpoofingLevel.
Record t := {
  price : Q; original_quantity : Q; current_quantity : Q;
  disappearance_ratio : Q; side : string
}.
End SpoofingLevel.

Module SpoofingData.
Record t := {
  timestamp : Z; detected_levels : list SpoofingLevel.t; strength : Q
}.
End SpoofingData.

Module LSRatioData.
Record t := {
  timestamp : Z; long_ratio : Q; short_ratio : Q; ratio : Q
}.
End LSRatioData.

Module FundingRateData.
Record t := {
  timestamp : Z; funding_rate : Q; next_funding_time : Z; predicted_rate : Q
}.
End FundingRateData.

Module OnChainData.
Record t := {
  timestamp : Z; transactions_count : Z; tps : Q; active_addresses : Z
}.
End OnChainData.

(** The upstream of a run: the clock, and the outcome of each method body,
    both as functions of the step of the run at which they are consulted. *)
Record Upstream := {
  clock : nat -> Z;
  calculate_delta_body : nat -> result DeltaData.t;
  calculate_footprint_body : nat -> result FootprintData.t;
  track_whale_transfers_body : nat -> result WhaleData.t;
  get_open_interest_body : nat -> result OpenInterestData.t;
  calculate_vwap_body : nat -> result VWAPData.t;
  detect_icebergs_body : nat -> result IcebergData.t;
  calculate_cvd_body : nat -> result CVDData.t;
  detect_spoofing_body : nat -> result SpoofingData.t;
  get_long_short_ratio_body : nat -> result LSRatioData.t;
  get_funding_rate_body : nat -> result FundingRateData.t;
  get_onchain_metrics_body : nat -> result OnChainData.t
}.

(** The run so far: how many times the upstream was consulted, and which
    indicator methods were invoked, oldest first. *)
Record World := {
  steps : nat;
  calls : list string
}.

(** [int(time.time())] *)
Definition time_time (clock : nat -> Z) : M World Z :=
  fun w => (Return (clock (steps w)), {| steps := S (steps w); calls := calls w |}).

Definition invoke {A : Type} (name : string) (body : nat -> result A) : M World A :=
  fun w => (body (steps w), {| steps := S (steps w); calls := calls w ++ [name] |}).

Section Methods.
Variable up : Upstream.
Local Open Scope py_scope.

(** *** order_flow.py: no handler, an exception of the body goes up *)

Definition calculate_delta : M World DeltaData.t :=
  invoke "calculate_delta" (calculate_delta_body up).

Definition calculate_footprint : M World FootprintData.t :=
  invoke "calculate_footprint" (calculate_footprint_body up).

Definition track_whale_transfers : M World WhaleData.t :=
  invoke "track_whale_transfers" (track_whale_transfers_body up).

(** *** blockchain.py *)

Definition get_open_interest : M World OpenInterestData.t :=
  try_except (invoke "get_open_interest" (get_open_interest_body up))
    (fun _ =>
       now <- time_time (clock up) ;;
       ret {| OpenInterestData.timestamp := now;
              OpenInterestData.open_interest := 0;
              OpenInterestData.open_interest_value := 0;
              OpenInterestData.change_24h := 0 |}).

Definition calculate_vwap : M World VWAPData.t :=
  try_except (invoke "calculate_vwap" (calculate_vwap_body up))
    (fun _ =>
       now <- time_time (clock up) ;;
       ret {| VWAPData.timestamp := now; VWAPData.vwap := 0;
              VWAPData.price := 0; VWAPData.distance_from_vwap := 0 |}).

(** *** market_depth.py *)

Definition detect_icebergs : M World IcebergData.t :=
  try_except (invoke "detect_icebergs" (detect_icebergs_body up))
    (fun _ =>
       now <- time_time (clock up) ;;
       ret {| IcebergData.timestamp := now; IcebergData.detected_levels := [];
              IcebergData.strength := 0 |}).

Definition calculate_cvd : M World CVDData.t :=
  try_except (invoke "calculate_cvd" (calculate_cvd_body up))
    (fun _ =>
       now <- time_time (clock up) ;;
       ret {| CVDData.timestamp := now; CVDData.cvd_value := 0;
              CVDData.cvd_change := 0; CVDData.buy_volume := 0;
              CVDData.sell_volume := 0 |}).

Definition detect_spoofing : M World SpoofingData.t :=
  try_except (invoke "detect_spoofing" (detect_spoofing_body up))
    (fun _ =>
       now <- time_time (clock up) ;;
       ret {| SpoofingData.timestamp := now; SpoofingData.detected_levels := [];
              SpoofingData.strength := 0 |}).

(** *** sentiment.py *)

Definition get_long_short_ratio : M World LSRatioData.t :=
  try_except (invoke "get_long_short_ratio" (get_long_short_ratio_body up))
    (fun _ =>
       now <- time_time (clock up) ;;
       ret {| LSRatioData.timestamp := now; LSRatioData.long_ratio := 0;
              LSRatioData.short_ratio := 0; LSRatioData.ratio := 1 |}).

Definition get_funding_rate : M World FundingRateData.t :=
  try_except (invoke "get_funding_rate" (get_funding_rate_body up))
    (fun _ =>
       now <- time_time (clock up) ;;
       ret {| FundingRateData.timestamp := now; FundingRateData.funding_rate := 0;
              FundingRateData.next_funding_time := 0;
              FundingRateData.predicted_rate := 0 |}).

(** *** on_chain.py *)

Definition get_onchain_metrics : M World OnChainData.t :=
  try_except (invoke "get_onchain_metrics" (get_onchain_metrics_body up))
    (fun _ =>
       now <- time_time (clock up) ;;
       ret {| OnChainData.timestamp := now; OnChainData.transactions_count := 0;
              OnChainData.tps := 0; OnChainData.active_addresses := 0 |}).

End Methods.

End Indicators.

(** ** signal_generator.py *)

Module SignalData.
Import Indicators.

(** The values stored under [components]. *)
Inductive component :=
| Delta (d : DeltaData.t)
| Footprint (d : FootprintData.t)
| Whale (d : WhaleData.t)
| OpenInterest (d : OpenInterestData.t)
| VWAP (d : VWAPData.t)
| Iceberg (d : IcebergData.t)
| CVD (d : CVDData.t)
| Spoofing (d : SpoofingData.t)
| LSRatio (d : LSRatioData.t)
| FundingRate (d : FundingRateData.t)
| OnChain (d : OnChainData.t).

Record t := {
  timestamp : Z;
  name : string;
  strength : Q;
  direction : Z;
  confidence : Q;
  validity : Z;
  components : list (string * component)
}.

End SignalData.

Module SignalGenerator.
Import Py Indicators.
Local Open Scope py_scope.
Local Open Scope Q_scope.

(** The two dictionaries of the generator. *)
Record t := {
  last_update : gmap string Z;
  signal_cache : gmap string SignalData.t
}.

Definition __init__ : t := {| last_update := ∅; signal_cache := ∅ |}.

(** The generator together with the run it is part of. *)
Record State := {
  self : t;
  world : World
}.

Definition io {A : Type} (m : M World A) : M State A :=
  zoom world (fun w s => {| self := self s; world := w |}) m.

Definition INDICATORS (name : string) : M State Config.Indicator :=
  match dict_get Config.INDICATORS name with
  | Some cfg => ret cfg
  | None => raise (KeyError name)
  end.

Section Producers.
Variable up : Upstream.

Definition _should_update_signal (signal_name : string) : M State bool :=
  match dict_get Config.INDICATORS signal_name with
  | None => ret true
  | Some cfg =>
      let update_interval := Config.update_interval cfg in
      s <- get ;;
      let last_update := default 0%Z (last_update (self s) !! signal_name) in
      current_time <- io (time_time (clock up)) ;;
      ret (update_interval <=? current_time - last_update)%Z
  end.

Definition _is_signal_valid (signal_name : string) : M State bool :=
  s <- get ;;
  match signal_cache (self s) !! signal_name with
  | None => ret false
  | Some signal =>
      cfg <- INDICATORS signal_name ;;
      let validity_period := Config.validity_period cfg in
      let signal_time := SignalData.timestamp signal in
      current_time <- io (time_time (clock up)) ;;
      ret (current_time - signal_time <=? validity_period)%Z
  end.

(** [not self._should_update_signal(name) and self._is_signal_valid(name)] *)
Definition fresh (signal_name : string) : M State bool :=
  should_update <- _should_update_signal signal_name ;;
  if should_update then ret false else _is_signal_valid signal_name.

(** [self.signal_cache[name]] *)
Definition cached (signal_name : string) : M State SignalData.t :=
  s <- get ;;
  match signal_cache (self s) !! signal_name with
  | Some signal => ret signal
  | None => raise (KeyError signal_name)
  end.

(** [self.signal_cache[name] = signal; self.last_update[name] = int(time.time())] *)
Definition store (signal_name : string) (signal : SignalData.t) : M State SignalData.t :=
  s <- get ;;
  put {| self := {| last_update := last_update (self s);
                    signal_cache := <[signal_name := signal]> (signal_cache (self s)) |};
         world := world s |} ;;;
  now <- io (time_time (clock up)) ;;
  s <- get ;;
  put {| self := {| last_update := <[signal_name := now]> (last_update (self s));
                    signal_cache := signal_cache (self s) |};
         world := world s |} ;;;
  ret signal.

(** *** The readings shared by the producers *)

(** [if d > 0: 1 elif d < 0: -1 else: 0] on the rounded vote. *)
Definition direction_of (signal_direction : Z) : Z :=
  if (0 <? signal_direction)%Z then 1%Z
  else if (signal_direction <? 0)%Z then (-1)%Z else 0%Z.

Definition read_delta (delta_data : DeltaData.t) : Z * Q :=
  let delta := DeltaData.delta delta_data in
  (sign delta, Qmin (Qabs delta / 100) 1).

Definition read_footprint (footprint_data : FootprintData.t) : Z * Q :=
  let net_delta := sum (map snd (FootprintData.delta_by_level footprint_data)) in
  (sign net_delta, Qmin (Qabs net_delta / 200) 1).

(** Whale transfers as read by the order-flow producer: net flow between
    DEX and CEX. *)
Definition read_whale_flow (whale_data : WhaleData.t) : Z * Q :=
  match WhaleData.transfers whale_data with
  | [] => (0%Z, 0)
  | _ :: _ =>
      if gt (WhaleData.cex_value whale_data) 0 || gt (WhaleData.dex_value whale_data) 0
      then
        let net_flow := WhaleData.dex_value whale_data - WhaleData.cex_value whale_data in
        let whale_strength :=
          Qmin (if gt (WhaleData.total_value whale_data) 0
                then Qabs net_flow / WhaleData.total_value whale_data else 0) 1 in
        (sign net_flow,
         Qmin (whale_strength * (WhaleData.total_value whale_data / 100000)) 1)
      else (0%Z, 0)
  end.

(** Whale transfers as read by the open-interest and scalp producers. *)
Definition read_whale_size (whale_data : WhaleData.t) : Z * Q :=
  match WhaleData.transfers whale_data with
  | [] => (0%Z, 0)
  | _ :: _ => (1%Z, Qmin (WhaleData.total_value whale_data / 1000000) 1)
  end.

Definition read_iceberg (iceberg_data : IcebergData.t) : M State (Z * Q) :=
  match IcebergData.detected_levels iceberg_data with
  | [] => ret (0%Z, 0)
  | levels =>
      let buy_volume :=
        sum (map IcebergLevel.estimated_total
                 (filter (fun level => String.eqb (IcebergLevel.side level) "buy") levels)) in
      let sell_volume :=
        sum (map IcebergLevel.estimated_total
                 (filter (fun level => String.eqb (IcebergLevel.side level) "sell") levels)) in
      if gt buy_volume sell_volume then
        q <- lift_result (truediv (buy_volume - sell_volume) buy_volume) ;;
        ret (1%Z, Qmin q 1)
      else if gt sell_volume buy_volume then
        q <- lift_result (truediv (sell_volume - buy_volume) sell_volume) ;;
        ret ((-1)%Z, Qmin q 1)
      else ret (0%Z, 0)
  end.

Definition read_spoofing (spoofing_data : SpoofingData.t) : M State (Z * Q) :=
  match SpoofingData.detected_levels spoofing_data with
  | [] => ret (0%Z, 0)
  | levels =>
      let weight level :=
        SpoofingLevel.original_quantity level * SpoofingLevel.disappearance_ratio level in
      let buy_spoof :=
        sum (map weight
                 (filter (fun level => String.eqb (SpoofingLevel.side level) "buy") levels)) in
      let sell_spoof :=
        sum (map weight
                 (filter (fun level => String.eqb (SpoofingLevel.side level) "sell") levels)) in
      if gt buy_spoof sell_spoof then
        q <- lift_result (truediv buy_spoof (buy_spoof + sell_spoof)) ;;
        ret ((-1)%Z, Qmin q 1)
      else if gt sell_spoof buy_spoof then
        q <- lift_result (truediv sell_spoof (buy_spoof + sell_spoof)) ;;
        ret (1%Z, Qmin q 1)
      else ret (0%Z, 0)
  end.

(** [SignalData(timestamp=int(time.time()), ...,
    validity=INDICATORS[name]["validity_period"], ...)], then the two stores. *)
Definition emit (signal_name : string) (signal_strength : Q) (direction : Z)
    (confidence : Q) (components : list (string * SignalData.component))
    : M State SignalData.t :=
  now <- io (time_time (clock up)) ;;
  cfg <- INDICATORS signal_name ;;
  store signal_name
    {| SignalData.timestamp := now;
       SignalData.name := signal_name;
       SignalData.strength := signal_strength * inject_Z direction;
       SignalData.direction := direction;
       SignalData.confidence := confidence;
       SignalData.validity := Config.validity_period cfg;
       SignalData.components := components |}.

(** *** The six producers *)

Definition generate_order_flow_signal : M State SignalData.t :=
  hit <- fresh "ORDER_FLOW" ;;
  if hit then cached "ORDER_FLOW" else
  delta_data <- io (calculate_delta up) ;;
  footprint_data <- io (calculate_footprint up) ;;
  whale_data <- io (track_whale_transfers up) ;;
  let '(delta_direction, delta_strength) := read_delta delta_data in
  let '(footprint_direction, footprint_strength) := read_footprint footprint_data in
  let '(whale_direction, whale_strength) := read_whale_flow whale_data in
  let signal_direction :=
    round (0.4 * inject_Z delta_direction + 0.3 * inject_Z footprint_direction
           + 0.3 * inject_Z whale_direction) in
  let signal_strength :=
    (0.4 * delta_strength + 0.3 * footprint_strength + 0.3 * whale_strength) * 100 in
  let direction := direction_of signal_direction in
  let confidence :=
    if ((delta_direction =? footprint_direction) && (footprint_direction =? whale_direction)
        && negb (delta_direction =? 0))%Z
    then 0.9 else 0.7 in
  emit "ORDER_FLOW" signal_strength direction confidence
       [("delta", SignalData.Delta delta_data);
        ("footprint", SignalData.Footprint footprint_data);
        ("whale_transfers", SignalData.Whale whale_data)]%string.

Definition generate_blockchain_oi_signal : M State SignalData.t :=
  hit <- fresh "BLOCKCHAIN_OI" ;;
  if hit then cached "BLOCKCHAIN_OI" else
  whale_data <- io (track_whale_transfers up) ;;
  oi_data <- io (get_open_interest up) ;;
  vwap_data <- io (calculate_vwap up) ;;
  let '(whale_direction, whale_strength) := read_whale_size whale_data in
  let oi_direction := sign (OpenInterestData.change_24h oi_data) in
  let oi_strength := Qmin (Qabs (OpenInterestData.change_24h oi_data) / 10) 1 in
  let vwap_direction :=
    if lt (VWAPData.distance_from_vwap vwap_data) 0 then 1%Z
    else if gt (VWAPData.distance_from_vwap vwap_data) 0 then (-1)%Z else 0%Z in
  let vwap_strength := Qmin (Qabs (VWAPData.distance_from_vwap vwap_data) / 5) 1 in
  let signal_direction :=
    round (0.3 * inject_Z whale_direction + 0.4 * inject_Z oi_direction
           + 0.3 * inject_Z vwap_direction) in
  let signal_strength :=
    (0.3 * whale_strength + 0.4 * oi_strength + 0.3 * vwap_strength) * 100 in
  let direction := direction_of signal_direction in
  let confidence :=
    if ((whale_direction =? oi_direction) && (oi_direction =? vwap_direction)
        && negb (whale_direction =? 0))%Z
    then 0.9 else 0.7 in
  emit "BLOCKCHAIN_OI" signal_strength direction confidence
       [("whale_transfers", SignalData.Whale whale_data);
        ("open_interest", SignalData.OpenInterest oi_data);
        ("vwap", SignalData.VWAP vwap_data)]%string.

Definition generate_market_depth_signal : M State SignalData.t :=
  hit <- fresh "MARKET_DEPTH" ;;
  if hit then cached "MARKET_DEPTH" else
  iceberg_data <- io (detect_icebergs up) ;;
  cvd_data <- io (calculate_cvd up) ;;
  spoofing_data <- io (detect_spoofing up) ;;
  iceberg <- read_iceberg iceberg_data ;;
  let '(iceberg_direction, iceberg_strength) := iceberg in
  let cvd_direction := sign (CVDData.cvd_change cvd_data) in
  let cvd_strength := Qmin (Qabs (CVDData.cvd_change cvd_data) / 100) 1 in
  spoofing <- read_spoofing spoofing_data ;;
  let '(spoofing_direction, spoofing_strength) := spoofing in
  let signal_direction :=
    round (0.3 * inject_Z iceberg_direction + 0.4 * inject_Z cvd_direction
           + 0.3 * inject_Z spoofing_direction) in
  let signal_strength :=
    (0.3 * iceberg_strength + 0.4 * cvd_strength + 0.3 * spoofing_strength) * 100 in
  let direction := direction_of signal_direction in
  let confidence :=
    if (((iceberg_direction =? cvd_direction) && negb (cvd_direction =? 0))
        || ((cvd_direction =? spoofing_direction) && negb (cvd_direction =? 0)))%Z
    then 0.85 else 0.7 in
  emit "MARKET_DEPTH" signal_strength direction confidence
       [("iceberg", SignalData.Iceberg iceberg_data);
        ("cvd", SignalData.CVD cvd_data);
        ("spoofing", SignalData.Spoofing spoofing_data)]%string.

Definition generate_sentiment_signal : M State SignalData.t :=
  hit <- fresh "SENTIMENT" ;;
  if hit then cached "SENTIMENT" else
  ls_ratio_data <- io (get_long_short_ratio up) ;;
  funding_data <- io (get_funding_rate up) ;;
  footprint_data <- io (calculate_footprint up) ;;
  let ratio := LSRatioData.ratio ls_ratio_data in
  let '(ls_direction, ls_strength) :=
    if negb (Qeq_bool ratio 1) then
      if gt ratio 1 then ((-1)%Z, Qmin ((ratio - 1) / 2) 1)
      else (1%Z, Qmin ((1 - ratio) / 0.5) 1)
    else (0%Z, 0) in
  let funding_rate := FundingRateData.funding_rate funding_data in
  let funding_direction :=
    if gt funding_rate 0 then (-1)%Z else if lt funding_rate 0 then 1%Z else 0%Z in
  let funding_strength := Qmin (Qabs funding_rate * 100) 1 in
  let '(footprint_direction, footprint_strength) := read_footprint footprint_data in
  let signal_direction :=
    round (0.4 * inject_Z ls_direction + 0.3 * inject_Z funding_direction
           + 0.3 * inject_Z footprint_direction) in
  let signal_strength :=
    (0.4 * ls_strength + 0.3 * funding_strength + 0.3 * footprint_strength) * 100 in
  let direction := direction_of signal_direction in
  let confidence := 0.7 in
  let confidence :=
    if ((ls_direction =? funding_direction) && negb (funding_direction =? 0))%Z
    then 0.85 else confidence in
  let confidence :=
    if ((ls_direction =? funding_direction) && (funding_direction =? footprint_direction)
        && negb (ls_direction =? 0))%Z
    then 0.95 else confidence in
  emit "SENTIMENT" signal_strength direction confidence
       [("long_short_ratio", SignalData.LSRatio ls_ratio_data);
        ("funding_rate", SignalData.FundingRate funding_data);
        ("footprint", SignalData.Footprint footprint_data)]%string.

(** [1 if x > baseline else -1 if x < baseline * 0.7 else 0] and
    [min(abs(x - baseline) / baseline, 1.0)] *)
Definition against_baseline (x baseline : Q) : Z * Q :=
  (if gt x baseline then 1%Z else if lt x (baseline * 0.7) then (-1)%Z else 0%Z,
   Qmin (Qabs (x - baseline) / baseline) 1).

Definition generate_onchain_signal : M State SignalData.t :=
  hit <- fresh "ON_CHAIN" ;;
  if hit then cached "ON_CHAIN" else
  onchain_data <- io (get_onchain_metrics up) ;;
  let '(tps_direction, tps_strength) :=
    against_baseline (OnChainData.tps onchain_data) 1000 in
  let '(tx_direction, tx_strength) :=
    against_baseline (inject_Z (OnChainData.transactions_count onchain_data)) 50 in
  let '(addr_direction, addr_strength) :=
    against_baseline (inject_Z (OnChainData.active_addresses onchain_data)) 1000 in
  let signal_direction :=
    round (0.3 * inject_Z tx_direction + 0.4 * inject_Z tps_direction
           + 0.3 * inject_Z addr_direction) in
  let signal_strength :=
    (0.3 * tx_strength + 0.4 * tps_strength + 0.3 * addr_strength) * 100 in
  let direction := direction_of signal_direction in
  let confidence :=
    if ((tx_direction =? tps_direction) && (tps_direction =? addr_direction)
        && negb (tx_direction =? 0))%Z
    then 0.9 else 0.7 in
  emit "ON_CHAIN" signal_strength direction confidence
       [("onchain_metrics", SignalData.OnChain onchain_data)]%string.

Definition generate_scalp_signal : M State SignalData.t :=
  hit <- fresh "SCALP" ;;
  if hit then cached "SCALP" else
  delta_data <- io (calculate_delta up) ;;
  iceberg_data <- io (detect_icebergs up) ;;
  whale_data <- io (track_whale_transfers up) ;;
  let '(delta_direction, delta_strength) := read_delta delta_data in
  iceberg <- read_iceberg iceberg_data ;;
  let '(iceberg_direction, iceberg_strength) := iceberg in
  let '(whale_direction, whale_strength) := read_whale_size whale_data in
  let signal_direction :=
    round (0.5 * inject_Z delta_direction + 0.3 * inject_Z iceberg_direction
           + 0.2 * inject_Z whale_direction) in
  let signal_strength :=
    (0.5 * delta_strength + 0.3 * iceberg_strength + 0.2 * whale_strength) * 100 in
  let direction := direction_of signal_direction in
  let confidence := 0.65 in
  let confidence :=
    if ((delta_direction =? iceberg_direction) && negb (delta_direction =? 0))%Z
    then 0.8 else confidence in
  let confidence :=
    if ((delta_direction =? iceberg_direction) && (iceberg_direction =? whale_direction)
        && negb (delta_direction =? 0))%Z
    then 0.95 else confidence in
  emit "SCALP" signal_strength direction confidence
       [("delta", SignalData.Delta delta_data);
        ("iceberg", SignalData.Iceberg iceberg_data);
        ("whale_transfers", SignalData.Whale whale_data)]%string.

(** The producer behind each configured name, in the order in which
    [get_all_signals] goes through them. *)
Definition producers : list (string * M State SignalData.t) :=
  [ ("ORDER_FLOW", generate_order_flow_signal);
    ("BLOCKCHAIN_OI", generate_blockchain_oi_signal);
    ("MARKET_DEPTH", generate_market_depth_signal);
    ("SENTIMENT", generate_sentiment_signal);
    ("ON_CHAIN", generate_onchain_signal);
    ("SCALP", generate_scalp_signal) ]%string.

(** [if name in INDICATORS: signals[name] = self.generate_..._signal()] *)
Definition collect (signals : list (string * SignalData.t))
    (entry : string * M State SignalData.t)
    : M State (list (string * SignalData.t)) :=
  if dict_in (fst entry) Config.INDICATORS
  then signal <- snd entry ;; ret (dict_set signals (fst entry) signal)
  else ret signals.

Definition get_all_signals : M State (list (string * SignalData.t)) :=
  signals <- collect [] ("ORDER_FLOW", generate_order_flow_signal)%string ;;
  signals <- collect signals ("BLOCKCHAIN_OI", generate_blockchain_oi_signal)%string ;;
  signals <- collect signals ("MARKET_DEPTH", generate_market_depth_signal)%string ;;
  signals <- collect signals ("SENTIMENT", generate_sentiment_signal)%string ;;
  signals <- collect signals ("ON_CHAIN", generate_onchain_signal)%string ;;
  collect signals ("SCALP", generate_scalp_signal)%string.

(** The same run, as one pass over [producers]. *)
Fixpoint collect_all (entries : list (string * M State SignalData.t))
    (signals : list (string * SignalData.t)) : M State (list (string * SignalData.t)) :=
  match entries with
  | [] => ret signals
  | entry :: rest => signals <- collect signals entry ;; collect_all rest signals
  end.

End Producers.

(** *** Notions used in the statements *)

(** A computation that, when it returns a signal, leaves that signal in the
    cache under [name]. *)
Definition caches (name : string) (m : M State SignalData.t) : Prop :=
  forall st signal st',
    m st = (Return signal, st') -> signal_cache (self st') !! name = Some signal.

(** The state after two readings of the clock and nothing else. *)
Definition two_ticks (st : State) : State :=
  {| self := self st;
     world := {| steps := S (S (steps (world st))); calls := calls (world st) |} |}.

(** The state after one reading of the clock. *)
Definition one_tick (st : State) : State :=
  {| self := self st;
     world := {| steps := S (steps (world st)); calls := calls (world st) |} |}.

(** *** Sample inputs *)

(** An upstream on which every indicator body fails with exception [e]. *)
Definition upstream_down (e : exn) : Upstream :=
  {| clock := fun k => (1700000000 + Z.of_nat k)%Z;
     calculate_delta_body := fun _ => Raise e;
     calculate_footprint_body := fun _ => Raise e;
     track_whale_transfers_body := fun _ => Raise e;
     get_open_interest_body := fun _ => Raise e;
     calculate_vwap_body := fun _ => Raise e;
     detect_icebergs_body := fun _ => Raise e;
     calculate_cvd_body := fun _ => Raise e;
     detect_spoofing_body := fun _ => Raise e;
     get_long_short_ratio_body := fun _ => Raise e;
     get_funding_rate_body := fun _ => Raise e;
     get_onchain_metrics_body := fun _ => Raise e |}.

Definition timed_out : exn := RequestException (Transport "Read timed out.").

(** A generator that has not produced anything yet. *)
Definition fresh_state : State :=
  {| self := __init__; world := {| steps := 0; calls := [] |} |}.

(** An upstream on which the market is quiet: every body answers, with
    empty or zero readings, and the chain metrics sit at their baselines. *)
Definition upstream_quiet : Upstream :=
  {| clock := fun k => (1700000000 + Z.of_nat k)%Z;
     calculate_delta_body := fun _ =>
       Return {| DeltaData.timestamp := 1700000000; DeltaData.buy_volume := 0;
                 DeltaData.sell_volume := 0; DeltaData.delta := 0; DeltaData.price := 150 |};
     calculate_footprint_body := fun _ =>
       Return {| FootprintData.timestamp := 1700000000; FootprintData.price_levels := [];
                 FootprintData.delta_by_level := [] |};
     track_whale_transfers_body := fun _ =>
       Return {| WhaleData.timestamp := 1700000000; WhaleData.transfers := [];
                 WhaleData.total_value := 0; WhaleData.cex_transfers := [];
                 WhaleData.dex_transfers := []; WhaleData.cex_value := 0;
                 WhaleData.dex_value := 0 |};
     get_open_interest_body := fun _ =>
       Return {| OpenInterestData.timestamp := 1700000000;
                 OpenInterestData.open_interest := 1000;
                 OpenInterestData.open_interest_value := 150000;
                 OpenInterestData.change_24h := 0 |};
     calculate_vwap_body := fun _ =>
       Return {| VWAPData.timestamp := 1700000000; VWAPData.vwap := 150;
                 VWAPData.price := 150; VWAPData.distance_from_vwap := 0 |};
     detect_icebergs_body := fun _ =>
       Return {| IcebergData.timestamp := 1700000000; IcebergData.detected_levels := [];
                 IcebergData.strength := 0 |};
     calculate_cvd_body := fun _ =>
       Return {| CVDData.timestamp := 1700000000; CVDData.cvd_value := 0;
                 CVDData.cvd_change := 0; CVDData.buy_volume := 0;
                 CVDData.sell_volume := 0 |};
     detect_spoofing_body := fun _ =>
       Return {| SpoofingData.timestamp := 1700000000; SpoofingData.detected_levels := [];
                 SpoofingData.strength := 0 |};
     get_long_short_ratio_body := fun _ =>
       Return {| LSRatioData.timestamp := 1700000000; LSRatioData.long_ratio := 0.5;
                 LSRatioData.short_ratio := 0.5; LSRatioData.ratio := 1 |};
     get_funding_rate_body := fun _ =>
       Return {| FundingRateData.timestamp := 1700000000;
                 FundingRateData.funding_rate := 0;
                 FundingRateData.next_funding_time := 1700003600;
                 FundingRateData.predicted_rate := 0 |};
     get_onchain_metrics_body := fun _ =>
       Return {| OnChainData.timestamp := 1700000000;
                 OnChainData.transactions_count := 50; OnChainData.tps := 1000;
                 OnChainData.active_addresses := 1000 |} |}.

(** *** Notions used in further statements *)

(** The entry for [name] must be produced anew: the update interval has
    elapsed on the first reading of the clock, or nothing is cached, or what
    is cached is older than its validity period on the second reading. *)
Definition stale (up : Upstream) (name : string) (cfg : Config.Indicator)
    (st : State) : Prop :=
  (Config.update_interval cfg
     <= clock up (steps (world st)) - default 0%Z (last_update (self st) !! name))%Z
  \/ signal_cache (self st) !! name = None
  \/ exists signal,
       signal_cache (self st) !! name = Some signal /\
       (Config.validity_period cfg
          < clock up (S (steps (world st))) - SignalData.timestamp signal)%Z.

(** The exceptions a producer can let out: a division by zero in its own
    arithmetic, or what one of the three methods of [order_flow.py] raised. *)
Definition from_order_flow (up : Upstream) (e : exn) : Prop :=
  e = ZeroDivisionError
  \/ exists k, calculate_delta_body up k = Raise e
               \/ calculate_footprint_body up k = Raise e
               \/ track_whale_transfers_body up k = Raise e.

(** The shape every produced signal has. *)
Definition well_formed (name : string) (signal : SignalData.t) : Prop :=
  SignalData.name signal = name /\
  (SignalData.direction signal = -1 \/ SignalData.direction signal = 0
   \/ SignalData.direction signal = 1)%Z /\
  (exists cfg, dict_get Config.INDICATORS name = Some cfg /\
               SignalData.validity signal = Config.validity_period cfg) /\
  0.65 <= SignalData.confidence signal <= 0.95.

(** Every cached entry satisfies [P] at its key. *)
Definition cache_all (P : string -> SignalData.t -> Prop) (st : State) : Prop :=
  forall name signal, signal_cache (self st) !! name = Some signal -> P name signal.

(** A method that logs one call under [name] and raises only what its
    body raises. *)
Definition method_of {A : Type} (name : string) (body : nat -> result A)
    (m : M World A) : Prop :=
  forall w,
    calls (snd (m w)) = (calls w ++ [name])%list /\
    match fst (m w) with
    | Return _ => True
    | Raise e => exists k, body k = Raise e
    end.

(** A method that never raises. *)
Definition guarded {A : Type} (m : M World A) : Prop :=
  forall w, exists a, fst (m w) = Return a.

(** The log of calls starts with [l]. *)
Definition logged (l : list string) (st : State) : Prop :=
  exists more, calls (world st) = (l ++ more)%list.

(** [signal] is what the cache holds under [name]. *)
Definition cached_at (name : string) (signal : SignalData.t) (st : State) : Prop :=
  signal_cache (self st) !! name = Some signal.


(** An ON_CHAIN signal that does not point up. *)
Definition never_up (name : string) (signal : SignalData.t) : Prop :=
  name = "ON_CHAIN" -> (SignalData.direction signal <= 0)%Z.

End SignalGenerator.

(** ** signal_processor.py *)

Module TradingDecision.
Record t := {
  timestamp : Z;
  action : string;
  confidence : Q;
  signals : list SignalData.t;
  reason : string;
  strength : Q
}.
End TradingDecision.

Module SignalProcessor.
Import Py Indicators.
Local Open Scope py_scope.
Local Open Scope Q_scope.

Record t := {
  confidence_threshold : Q;
  strength_threshold : Q;
  last_decision : option TradingDecision.t
}.

Definition __init__ (confidence_threshold strength_threshold : Q) : t :=
  {| confidence_threshold := confidence_threshold;
     strength_threshold := strength_threshold;
     last_decision := None |}.

(** The defaults of the constructor. *)
Definition default : t := __init__ 0.7 30.0.

Record State := {
  self : t;
  world : World
}.

Definition io {A : Type} (m : M World A) : M State A :=
  zoom world (fun w s => {| self := self s; world := w |}) m.

Definition _calculate_signal_weights : list (string * Q) :=
  [ ("ORDER_FLOW", 0.20);
    ("BLOCKCHAIN_OI", 0.15);
    ("MARKET_DEPTH", 0.20);
    ("SENTIMENT", 0.15);
    ("ON_CHAIN", 0.10);
    ("SCALP", 0.20) ]%string.

(** [f"{x:.2f}"] *)
Definition format_2f (x : Q) : string :=
  let hundredths := round (Qabs x * 100) in
  let cents := (hundredths mod 100)%Z in
  ((if lt x 0 then "-" else "")
   ++ pretty (hundredths / 100)%Z ++ "."
   ++ (if (cents <? 10)%Z then "0" else "") ++ pretty cents)%string.

(** The first loop: keep the signals whose validity window reaches
    [current_time]; [INDICATORS[name]] raises on an unknown name. *)
Fixpoint valid_signals (current_time : Z) (signals : list (string * SignalData.t))
    (valid : list (string * SignalData.t)) : result (list (string * SignalData.t)) :=
  match signals with
  | [] => Return valid
  | (name, signal) :: rest =>
      match dict_get Config.INDICATORS name with
      | None => Raise (KeyError name)
      | Some cfg =>
          if (current_time <=? SignalData.timestamp signal + Config.validity_period cfg)%Z
          then valid_signals current_time rest (dict_set valid name signal)
          else valid_signals current_time rest valid
      end
  end.

Record sums := {
  weighted_direction : Q;
  weighted_strength : Q;
  weighted_confidence : Q;
  total_weight : Q
}.

(** One pass of the second loop: a name without a weight is skipped. *)
Definition add_signal (weights : list (string * Q)) (acc : sums)
    (entry : string * SignalData.t) : sums :=
  let '(name, signal) := entry in
  match dict_get weights name with
  | Some weight =>
      {| weighted_direction :=
           weighted_direction acc + inject_Z (SignalData.direction signal) * weight;
         weighted_strength :=
           weighted_strength acc + Qabs (SignalData.strength signal) * weight;
         weighted_confidence :=
           weighted_confidence acc + SignalData.confidence signal * weight;
         total_weight := total_weight acc + weight |}
  | None => acc
  end.

(** The second loop: the four running sums, from 0.0. *)
Definition accumulate (weights : list (string * Q))
    (valid : list (string * SignalData.t)) : sums :=
  fold_left (add_signal weights) valid
    {| weighted_direction := 0; weighted_strength := 0;
       weighted_confidence := 0; total_weight := 0 |}.

(** [weighted_x /= total_weight] *)
Definition normalise (acc : sums) : sums :=
  {| weighted_direction := weighted_direction acc / total_weight acc;
     weighted_strength := weighted_strength acc / total_weight acc;
     weighted_confidence := weighted_confidence acc / total_weight acc;
     total_weight := total_weight acc |}.

(** The direction classification. *)
Definition direction_action (weighted_direction : Q) : string :=
  if gt weighted_direction 0.3 then "BUY"
  else if lt weighted_direction (-0.3) then "SELL"
  else "HOLD".

(** The threshold check. *)
Definition below_thresholds (self : t) (avg : sums) : bool :=
  lt (weighted_confidence avg) (confidence_threshold self)
  || lt (weighted_strength avg) (strength_threshold self).

Definition names_where (p : SignalData.t -> bool)
    (valid : list (string * SignalData.t)) : list string :=
  map fst (filter (fun entry => p (snd entry)) valid).

(** Everything after the normalisation: thresholds, reason, decision. *)
Definition make_decision (self : t) (current_time : Z)
    (valid : list (string * SignalData.t)) (avg : sums) : TradingDecision.t :=
  let action := direction_action (weighted_direction avg) in
  let '(action, reason) :=
    if below_thresholds self avg then
      ("HOLD"%string,
       ("لم تتجاوز الإشارة العتبات المطلوبة (الثقة: "
        ++ format_2f (weighted_confidence avg) ++ ", القوة: "
        ++ format_2f (weighted_strength avg) ++ ")")%string)
    else
      let positive_signals :=
        names_where (fun signal => (0 <? SignalData.direction signal)%Z) valid in
      let negative_signals :=
        names_where (fun signal => (SignalData.direction signal <? 0)%Z) valid in
      (action,
       if String.eqb action "BUY"
       then ("إشارات إيجابية: " ++ String.concat ", " positive_signals)%string
       else if String.eqb action "SELL"
       then ("إشارات سلبية: " ++ String.concat ", " negative_signals)%string
       else "إشارات متضاربة أو غير حاسمة"%string) in
  {| TradingDecision.timestamp := current_time;
     TradingDecision.action := action;
     TradingDecision.confidence := weighted_confidence avg;
     TradingDecision.signals := map snd valid;
     TradingDecision.reason := reason;
     TradingDecision.strength := weighted_strength avg |}.

Section WithClock.
Variable clock : nat -> Z.

Definition process_signals (signals : list (string * SignalData.t))
    : M State (option TradingDecision.t) :=
  match signals with
  | [] => ret None
  | _ :: _ =>
      current_time <- io (time_time clock) ;;
      valid <- lift_result (valid_signals current_time signals []) ;;
      match valid with
      | [] => ret None
      | _ :: _ =>
          let weights := _calculate_signal_weights in
          let acc := accumulate weights valid in
          if Qeq_bool (total_weight acc) 0 then ret None
          else
            s <- get ;;
            let decision := make_decision (self s) current_time valid (normalise acc) in
            put {| self := {| confidence_threshold := confidence_threshold (self s);
                              strength_threshold := strength_threshold (self s);
                              last_decision := Some decision |};
                   world := world s |} ;;;
            ret (Some decision)
      end
  end.

End WithClock.

(** *** The fusion formulas in the words of the specification *)

Definition big_sum {A : Type} (f : A -> Q) (xs : list A) : Q :=
  fold_right (fun x acc => f x + acc) 0 xs.

Definition weight (name : string) : Q :=
  match dict_get _calculate_signal_weights name with
  | Some w => w
  | None => 0
  end.

Definition totalWeight (signals : list (string * SignalData.t)) : Q :=
  big_sum (fun entry => weight (fst entry)) signals.

Definition weightedDirection (signals : list (string * SignalData.t)) : Q :=
  big_sum (fun entry => inject_Z (SignalData.direction (snd entry)) * weight (fst entry))
          signals
  / totalWeight signals.

Definition weightedStrength (signals : list (string * SignalData.t)) : Q :=
  big_sum (fun entry => Qabs (SignalData.strength (snd entry)) * weight (fst entry))
          signals
  / totalWeight signals.

Definition weightedConfidence (signals : list (string * SignalData.t)) : Q :=
  big_sum (fun entry => SignalData.confidence (snd entry) * weight (fst entry))
          signals
  / totalWeight signals.

(** Every key is configured and every signal is past its validity window. *)
Definition all_expired (fusion_time : Z) (signals : list (string * SignalData.t)) : Prop :=
  forall name signal, In (name, signal) signals ->
    exists cfg, dict_get Config.INDICATORS name = Some cfg /\
                (fusion_time - SignalData.timestamp signal > Config.validity_period cfg)%Z.

(** *** Sample inputs *)

Definition sample_signal (name : string) (timestamp : Z) (confidence : Q) : SignalData.t :=
  {| SignalData.timestamp := timestamp;
     SignalData.name := name;
     SignalData.strength := 80;
     SignalData.direction := 1;
     SignalData.confidence := confidence;
     SignalData.validity := 120;
     SignalData.components := [] |}.

(** Two signals of equal weight, both pointing up with strength 80. *)
Definition two_signals (timestamp : Z) (confidence : Q) : list (string * SignalData.t) :=
  [ ("ORDER_FLOW", sample_signal "ORDER_FLOW" timestamp confidence);
    ("MARKET_DEPTH", sample_signal "MARKET_DEPTH" timestamp confidence) ]%string.

Definition at_noon : nat -> Z := fun _ => 43200%Z.

Definition fresh_state : State :=
  {| self := default; world := {| steps := 0; calls := [] |} |}.

(** *** Notions used in further statements *)

(** The entry is within the validity period configured for its key. *)
Definition still_valid (current_time : Z) (entry : string * SignalData.t) : bool :=
  match dict_get Config.INDICATORS (fst entry) with
  | Some cfg =>
      (current_time <=? SignalData.timestamp (snd entry) + Config.validity_period cfg)%Z
  | None => false
  end.

(** Every key of the mapping is a configured name. *)
Definition all_configured (signals : list (string * SignalData.t)) : Prop :=
  forall name signal, In (name, signal) signals ->
    exists cfg, dict_get Config.INDICATORS name = Some cfg.





(** *** More sample inputs *)

Definition signal_at (name : string) (timestamp : Z) (strength : Q) (direction : Z)
    (confidence : Q) : SignalData.t :=
  {| SignalData.timestamp := timestamp;
     SignalData.name := name;
     SignalData.strength := strength;
     SignalData.direction := direction;
     SignalData.confidence := confidence;
     SignalData.validity := 120;
     SignalData.components := [] |}.

(** At noon (43200): two recent signals and, between them, a sentiment
    signal that is 200 seconds old. *)
Definition mixed_signals : list (string * SignalData.t) :=
  [ ("ORDER_FLOW", signal_at "ORDER_FLOW" 43190 (-60) (-1) 0.9);
    ("SENTIMENT", signal_at "SENTIMENT" 43000 90 1 0.95);
    ("MARKET_DEPTH", signal_at "MARKET_DEPTH" 43150 (-75) (-1) 0.85) ]%string.

(** The same without the old one. *)
Definition recent_signals : list (string * SignalData.t) :=
  [ ("ORDER_FLOW", signal_at "ORDER_FLOW" 43190 (-60) (-1) 0.9);
    ("MARKET_DEPTH", signal_at "MARKET_DEPTH" 43150 (-75) (-1) 0.85) ]%string.

End SignalProcessor.

(** ** signal_processor.py, with the arithmetic of binary64

    [SignalProcessor] above idealises the floats of the fusion as exact
    rationals; that is enough for what the fusion keeps, drops, raises and
    lists.  What it computes is a matter of binary64: the sums are rounded
    at every step, in the order of the mapping, and a comparison with a
    threshold sees the rounded value.  [Binary64] is [process_signals] once
    more, statement for statement, with Python's [float] as the kernel's
    binary64 numbers: a [nan] compares false with everything, and the sums
    take the infinities. *)

Module Binary64.
Import Py Indicators.
Import PrimFloat FloatOps SpecFloat.
Local Open Scope py_scope.
Local Open Scope float_scope.
#[local] Set Warnings "-inexact-float".

(** *** Python's numbers *)

(** The double nearest to an [int], ties to even; infinite beyond the
    range of the doubles. *)
Definition nearest (n : Z) : float := SF2Prim (binary_normalize prec emax n 0 false).

(** The conversion of an [int] that meets a [float] in [n * x]: an [int]
    beyond the range raises. *)
Definition float_of_int (n : Z) : result float :=
  if is_infinity (nearest n) then Raise OverflowError else Return (nearest n).

(** [m * 2 ** e * 100] to the nearest integer, ties to even. *)
Definition hundredths (m : positive) (e : Z) : Z :=
  if (0 <=? e)%Z then (Z.pos m * 2 ^ e * 100)%Z
  else
    let d := (2 ^ (- e))%Z in
    let n := (Z.pos m * 100)%Z in
    let q := (n / d)%Z in
    match (2 * (n mod d) ?= d)%Z with
    | Lt => q
    | Gt => (q + 1)%Z
    | Eq => if Z.even q then q else (q + 1)%Z
    end.

(** [f"{x:.2f}"]: the exact value of the double, rounded to two places. *)
Definition format_2f (x : float) : string :=
  match Prim2SF x with
  | S754_nan => "nan"
  | S754_infinity s => if s then "-inf" else "inf"
  | S754_zero s => (if s then "-" else "") ++ "0.00"
  | S754_finite s m e =>
      let h := hundredths m e in
      let cents := (h mod 100)%Z in
      (if s then "-" else "") ++ pretty (h / 100)%Z ++ "."
      ++ (if (cents <? 10)%Z then "0" else "") ++ pretty cents
  end%string.

(** *** The two dataclasses *)

(** What [components] holds is carried along and never read. *)
Definition component : Type := SignalData.component.

Module SignalData.
Record t := {
  timestamp : Z;
  name : string;
  strength : float;
  direction : Z;
  confidence : float;
  validity : Z;
  components : list (string * component)
}.
End SignalData.

Module TradingDecision.
Record t := {
  timestamp : Z;
  action : string;
  confidence : float;
  signals : list SignalData.t;
  reason : string;
  strength : float
}.
End TradingDecision.

(** *** SignalProcessor *)

Module SignalProcessor.

Record t := {
  confidence_threshold : float;
  strength_threshold : float;
  last_decision : option TradingDecision.t
}.

Definition __init__ (confidence_threshold strength_threshold : float) : t :=
  {| confidence_threshold := confidence_threshold;
     strength_threshold := strength_threshold;
     last_decision := None |}.

(** The defaults of the constructor. *)
Definition default : t := __init__ 0.7 30.0.

Record State := {
  self : t;
  world : World
}.

Definition io {A : Type} (m : M World A) : M State A :=
  zoom world (fun w s => {| self := self s; world := w |}) m.

Definition _calculate_signal_weights : list (string * float) :=
  [ ("ORDER_FLOW", 0.20);
    ("BLOCKCHAIN_OI", 0.15);
    ("MARKET_DEPTH", 0.20);
    ("SENTIMENT", 0.15);
    ("ON_CHAIN", 0.10);
    ("SCALP", 0.20) ]%string.

(** The first loop: keep the signals whose validity window reaches
    [current_time]; [INDICATORS[name]] raises on an unknown name. *)
Fixpoint valid_signals (current_time : Z) (signals : list (string * SignalData.t))
    (valid : list (string * SignalData.t)) : result (list (string * SignalData.t)) :=
  match signals with
  | [] => Return valid
  | (name, signal) :: rest =>
      match dict_get Config.INDICATORS name with
      | None => Raise (KeyError name)
      | Some cfg =>
          if (current_time <=? SignalData.timestamp signal + Config.validity_period cfg)%Z
          then valid_signals current_time rest (dict_set valid name signal)
          else valid_signals current_time rest valid
      end
  end.

Record sums := {
  weighted_direction : float;
  weighted_strength : float;
  weighted_confidence : float;
  total_weight : float
}.

(** One pass of the second loop: a name without a weight is skipped; the
    direction is an [int], and is converted where it meets the weight. *)
Definition add_signal (weights : list (string * float)) (acc : sums)
    (entry : string * SignalData.t) : result sums :=
  let '(name, signal) := entry in
  match dict_get weights name with
  | Some weight =>
      match float_of_int (SignalData.direction signal) with
      | Return direction =>
          Return
            {| weighted_direction := weighted_direction acc + direction * weight;
               weighted_strength :=
                 weighted_strength acc + abs (SignalData.strength signal) * weight;
               weighted_confidence :=
                 weighted_confidence acc + SignalData.confidence signal * weight;
               total_weight := total_weight acc + weight |}
      | Raise e => Raise e
      end
  | None => Return acc
  end.

Fixpoint accumulate_from (weights : list (string * float))
    (valid : list (string * SignalData.t)) (acc : sums) : result sums :=
  match valid with
  | [] => Return acc
  | entry :: rest =>
      match add_signal weights acc entry with
      | Return acc => accumulate_from weights rest acc
      | Raise e => Raise e
      end
  end.

(** The second loop: the four running sums, from 0.0. *)
Definition accumulate (weights : list (string * float))
    (valid : list (string * SignalData.t)) : result sums :=
  accumulate_from weights valid
    {| weighted_direction := 0; weighted_strength := 0;
       weighted_confidence := 0; total_weight := 0 |}.

(** [weighted_x /= total_weight], reached with a total that is not zero. *)
Definition normalise (acc : sums) : sums :=
  {| weighted_direction := weighted_direction acc / total_weight acc;
     weighted_strength := weighted_strength acc / total_weight acc;
     weighted_confidence := weighted_confidence acc / total_weight acc;
     total_weight := total_weight acc |}.

(** The direction classification. *)
Definition direction_action (weighted_direction : float) : string :=
  if 0.3 <? weighted_direction then "BUY"
  else if weighted_direction <? - 0.3 then "SELL"
  else "HOLD".

(** The threshold check. *)
Definition below_thresholds (self : t) (avg : sums) : bool :=
  (weighted_confidence avg <? confidence_threshold self)
  || (weighted_strength avg <? strength_threshold self).

Definition names_where (p : SignalData.t -> bool)
    (valid : list (string * SignalData.t)) : list string :=
  map fst (filter (fun entry => p (snd entry)) valid).

(** Everything after the normalisation: thresholds, reason, decision. *)
Definition make_decision (self : t) (current_time : Z)
    (valid : list (string * SignalData.t)) (avg : sums) : TradingDecision.t :=
  let action := direction_action (weighted_direction avg) in
  let '(action, reason) :=
    if below_thresholds self avg then
      ("HOLD"%string,
       ("لم تتجاوز الإشارة العتبات المطلوبة (الثقة: "
        ++ format_2f (weighted_confidence avg) ++ ", القوة: "
        ++ format_2f (weighted_strength avg) ++ ")")%string)
    else
      let positive_signals :=
        names_where (fun signal => (0 <? SignalData.direction signal)%Z) valid in
      let negative_signals :=
        names_where (fun signal => (SignalData.direction signal <? 0)%Z) valid in
      (action,
       if String.eqb action "BUY"
       then ("إشارات إيجابية: " ++ String.concat ", " positive_signals)%string
       else if String.eqb action "SELL"
       then ("إشارات سلبية: " ++ String.concat ", " negative_signals)%string
       else "إشارات متضاربة أو غير حاسمة"%string) in
  {| TradingDecision.timestamp := current_time;
     TradingDecision.action := action;
     TradingDecision.confidence := weighted_confidence avg;
     TradingDecision.signals := map snd valid;
     TradingDecision.reason := reason;
     TradingDecision.strength := weighted_strength avg |}.

Section WithClock.
Variable clock : nat -> Z.

Definition process_signals (signals : list (string * SignalData.t))
    : M State (option TradingDecision.t) :=
  match signals with
  | [] => ret None
  | _ :: _ =>
      current_time <- io (time_time clock) ;;
      valid <- lift_result (valid_signals current_time signals []) ;;
      match valid with
      | [] => ret None
      | _ :: _ =>
          let weights := _calculate_signal_weights in
          acc <- lift_result (accumulate weights valid) ;;
          if total_weight acc =? 0 then ret None
          else
            s <- get ;;
            let decision := make_decision (self s) current_time valid (normalise acc) in
            put {| self := {| confidence_threshold := confidence_threshold (self s);
                              strength_threshold := strength_threshold (self s);
                              last_decision := Some decision |};
                   world := world s |} ;;;
            ret (Some decision)
      end
  end.

End WithClock.

(** *** The fusion formulas in the words of the specification *)

(** A sum over the signals, taken in the order of the mapping. *)
Definition sigma (term : string * SignalData.t -> float)
    (signals : list (string * SignalData.t)) : float :=
  fold_left (fun acc entry => acc + term entry) signals 0.

Definition weight (name : string) : float :=
  match dict_get _calculate_signal_weights name with
  | Some w => w
  | None => 0
  end.

Definition totalWeight (signals : list (string * SignalData.t)) : float :=
  sigma (fun entry => weight (fst entry)) signals.

Definition weightedDirection (signals : list (string * SignalData.t)) : float :=
  sigma (fun entry => nearest (SignalData.direction (snd entry)) * weight (fst entry))
        signals
  / totalWeight signals.

Definition weightedStrength (signals : list (string * SignalData.t)) : float :=
  sigma (fun entry => abs (SignalData.strength (snd entry)) * weight (fst entry))
        signals
  / totalWeight signals.

Definition weightedConfidence (signals : list (string * SignalData.t)) : float :=
  sigma (fun entry => SignalData.confidence (snd entry) * weight (fst entry))
        signals
  / totalWeight signals.

(** A signal mapping the processor can take: distinct keys, each of them
    configured, none of the signals older than its validity period at the
    time of fusion, and every key in the weight table. *)
Definition all_valid_and_weighted (current_time : Z)
    (signals : list (string * SignalData.t)) : Prop :=
  NoDup (map fst signals) /\
  forall name signal, In (name, signal) signals ->
    (exists cfg, dict_get Config.INDICATORS name = Some cfg /\
                 (current_time <= SignalData.timestamp signal + Config.validity_period cfg)%Z)
    /\ (exists w, dict_get _calculate_signal_weights name = Some w).

(** Every direction is within the range of the doubles. *)
Definition directions_fit (signals : list (string * SignalData.t)) : Prop :=
  forall name signal, In (name, signal) signals ->
    is_infinity (nearest (SignalData.direction signal)) = false.

(** The sequences without repetition of at most [n] of the [names]. *)
Fixpoint arrangements (n : nat) (names : list string) : list (list string) :=
  match n with
  | O => [[]]
  | S n =>
      [] :: flat_map (fun name =>
                        map (cons name)
                            (arrangements n (List.filter
                                               (fun other => negb (String.eqb other name))
                                               names)))
                     names
  end.

(** *** Sample inputs *)

Definition signal_at (name : string) (timestamp : Z) (strength : float) (direction : Z)
    (confidence : float) : SignalData.t :=
  {| SignalData.timestamp := timestamp;
     SignalData.name := name;
     SignalData.strength := strength;
     SignalData.direction := direction;
     SignalData.confidence := confidence;
     SignalData.validity := 120;
     SignalData.components := [] |}.

(** Two signals of equal weight, both pointing up with strength 80. *)
Definition two_signals (timestamp : Z) (confidence : float)
    : list (string * SignalData.t) :=
  [ ("ORDER_FLOW", signal_at "ORDER_FLOW" timestamp 80 1 confidence);
    ("MARKET_DEPTH", signal_at "MARKET_DEPTH" timestamp 80 1 confidence) ]%string.

(** All six signals with the same strength and confidence, and the
    directions in the order of the weight table. *)
Definition six_signals (strength confidence : float) (directions : list Z)
    : list (string * SignalData.t) :=
  map (fun '(name, direction) => (name, signal_at name 43200 strength direction confidence))
      (combine (map fst _calculate_signal_weights) directions).

Definition at_noon : nat -> Z := fun _ => 43200%Z.

Definition fresh_state : State :=
  {| self := default; world := {| steps := 0; calls := [] |} |}.

(** What a run returns, as far as the arithmetic goes. *)
Definition outcome (r : result (option TradingDecision.t) * State)
    : option (string * float * float) :=
  match fst r with
  | Return (Some d) =>
      Some (TradingDecision.action d, TradingDecision.confidence d,
            TradingDecision.strength d)
  | _ => None
  end.

End SignalProcessor.

End Binary64.

(** ** solana_client.py: the queries, and the two indicator methods on top

    [get_transactions], [get_tps], [get_active_addresses] and
    [get_whale_transfers] of [SolanaClient]; [get_onchain_metrics] of
    [on_chain.py] and [track_whale_transfers] of [order_flow.py], which
    call them.  A call of [_make_request] is one consultation of the node:
    it raises or hands back the decoded answer.  An answer is given as far
    as the code reads it.  Each member the code reads is there with a value
    of the type the RPC documents, or is [null], or is missing; the code
    behaves differently in the three cases, and so does the embedding. *)

Module SolanaQueries.
Import Py Indicators.
Local Open Scope py_scope.
Local Open Scope Q_scope.

Module TransactionInfo.
Record t := {
  signature : option string;
  slot : option Z;
  block_time : option Z;
  fee : option Z;
  lamports : option Z;
  from_address : option string;
  to_address : option string;
  is_success : bool;
  tx_type : option string;
  program_id : option string;
  instructions_data : option (list string)
}.
End TransactionInfo.

(** *** The answers of the node *)

Module Answer.

(** A member of a JSON object, as the code meets it. *)
Inductive member (A : Type) :=
| Missing
| Null
| Value (a : A).
Arguments Missing {A}.
Arguments Null {A}.
Arguments Value {A} a.

(** [d.get(key, default)]: the default for a missing member, [None] for a
    [null] one. *)
Definition get {A : Type} (m : member A) (default : option A) : option A :=
  match m with
  | Missing => default
  | Null => None
  | Value a => Some a
  end.

(** The [info] of a parsed instruction. *)
Record info := {
  source : member string;
  destination : member string;
  lamports : member Z
}.

(** The [parsed] member of an instruction. *)
Record parsed := {
  type : member string;
  info_member : member info
}.

(** The [meta] member of a transaction; [err] says that an [err] member is
    there and is not [null]. *)
Record meta := {
  fee : member Z;
  err : bool
}.

(** A transaction.  [instructions] is [transaction.message.instructions]:
    [Missing] when the first of the three members that is not an object is
    missing, [Null] when it is [null].  An instruction is given by its
    [parsed] member, when it is an object that has one that is an object. *)
Record transaction := {
  slot : member Z;
  blockTime : member Z;
  meta_member : member meta;
  instructions : member (list (option parsed))
}.

Record sample := {
  numTransactions : member Q;
  samplePeriodSecs : member Q
}.

End Answer.

(** The node and the other sources of a run, each as a function of the
    step at which it is consulted.  The signatures are given by the
    [signature] member of each entry; a falsy answer is the empty list, for
    a transaction [None], for the token accounts a missing [value]. *)
Record Node := {
  clock : nat -> Z;
  getSignaturesForAddress : nat -> Z -> result (list (Answer.member string));
  getTransaction : nat -> option string -> result (option Answer.transaction);
  getRecentPerformanceSamples : nat -> result (list Answer.sample);
  getTokenAccountsByOwner : nat -> result (Answer.member (list string));
  lastPrice : nat -> result Q
}.

Inductive event :=
| Sleep (seconds : Q)
| Request (method : string) (subject : option string).

Record World := {
  steps : nat;
  trace : list event
}.

Definition time_sleep (seconds : Q) : M World unit :=
  fun w => (Return tt, {| steps := steps w; trace := trace w ++ [Sleep seconds] |}).

(** [int(time.time())] *)
Definition time_time (node : Node) : M World Z :=
  fun w => (Return (clock node (steps w)), {| steps := S (steps w); trace := trace w |}).

(** One call that goes out: logged, and answered by the source. *)
Definition consult {A : Type} (method : string) (subject : option string)
    (answer : nat -> result A) : M World A :=
  fun w => (answer (steps w),
            {| steps := S (steps w); trace := trace w ++ [Request method subject] |}).

Definition system_program_address : string := "11111111111111111111111111111111".
Definition token_program : string := "TokenkegQfeZyiNwAJbNbGKPFXCWuBvf9Ss623VQ5DA".
Definition batch_size : nat := 5.

(** [range(0, stop, step)] *)
Definition range (stop step : nat) : list nat :=
  map (fun k => (k * step)%nat) (seq 0 ((stop + step - 1) / step)).

(** [[sig_info["signature"] for sig_info in batch_signatures]]: the first
    entry without the member raises. *)
Fixpoint signatures_of (batch_signatures : list (Answer.member string))
    : result (list (option string)) :=
  match batch_signatures with
  | [] => Return []
  | Answer.Missing :: _ => Raise (KeyError "signature")
  | sig_info :: rest =>
      match signatures_of rest with
      | Return signatures => Return (Answer.get sig_info None :: signatures)
      | Raise e => Raise e
      end
  end.

Section Queries.
Variable node : Node.

(** *** get_transactions *)

(** The first instruction whose [parsed] has type [transfer]. *)
Definition first_transfer (instructions : list (option Answer.parsed))
    : option Answer.parsed :=
  match
    List.find (fun instr =>
                 match instr with
                 | Some parsed =>
                     match Answer.type parsed with
                     | Answer.Value type => String.eqb type "transfer"
                     | _ => false
                     end
                 | None => false
                 end) instructions
  with
  | Some (Some parsed) => Some parsed
  | _ => None
  end.

(** [TransactionInfo(...)] and the search for a transfer.  A [null] where
    the code calls [.get], tests [in] or iterates raises. *)
Definition transaction_info (signature : option string)
    (tx_response : Answer.transaction) (now : Z) : result TransactionInfo.t :=
  match Answer.meta_member tx_response with
  | Answer.Null => Raise AttributeError
  | meta =>
      let tx_info lamports from_address to_address :=
        {| TransactionInfo.signature := signature;
           TransactionInfo.slot := Answer.get (Answer.slot tx_response) (Some 0%Z);
           TransactionInfo.block_time :=
             Answer.get (Answer.blockTime tx_response) (Some now);
           TransactionInfo.fee :=
             match meta with
             | Answer.Value meta => Answer.get (Answer.fee meta) (Some 0%Z)
             | _ => Some 0%Z
             end;
           TransactionInfo.lamports := lamports;
           TransactionInfo.from_address := from_address;
           TransactionInfo.to_address := to_address;
           TransactionInfo.is_success :=
             match meta with
             | Answer.Value meta => negb (Answer.err meta)
             | _ => true
             end;
           TransactionInfo.tx_type := None;
           TransactionInfo.program_id := None;
           TransactionInfo.instructions_data := None |} in
      match Answer.instructions tx_response with
      | Answer.Missing => Return (tx_info None None None)
      | Answer.Null => Raise TypeError
      | Answer.Value instructions =>
          match first_transfer instructions with
          | None => Return (tx_info None None None)
          | Some parsed =>
              match Answer.info_member parsed with
              | Answer.Missing => Return (tx_info None None None)
              | Answer.Null => Raise AttributeError
              | Answer.Value info =>
                  Return (tx_info (Answer.get (Answer.lamports info) None)
                                  (Answer.get (Answer.source info) None)
                                  (Answer.get (Answer.destination info) None))
              end
          end
      end
  end.

(** The body of the inner [try]: what [transactions] is afterwards. *)
Definition fetch (signature : option string) (transactions : list TransactionInfo.t)
    : M World (list TransactionInfo.t) :=
  time_sleep 0.2 ;;;
  tx_response <- consult "getTransaction" signature
                   (fun k => getTransaction node k signature) ;;
  match tx_response with
  | None => ret transactions
  | Some tx_response =>
      now <- time_time node ;;
      tx_info <- lift_result (transaction_info signature tx_response now) ;;
      ret (transactions ++ [tx_info])
  end.

(** [for signature in current_batch: try: ... except Exception: ...] *)
Fixpoint for_signatures (current_batch : list (option string))
    (transactions : list TransactionInfo.t) : M World (list TransactionInfo.t) :=
  match current_batch with
  | [] => ret transactions
  | signature :: rest =>
      transactions <- try_except (fetch signature transactions)
                                 (fun _ => ret transactions) ;;
      for_signatures rest transactions
  end.

(** [for i in range(0, min(len(signatures_result), limit), batch_size)] *)
Fixpoint for_batches (starts : list nat) (signatures_result : list (Answer.member string))
    (transactions : list TransactionInfo.t) : M World (list TransactionInfo.t) :=
  match starts with
  | [] => ret transactions
  | i :: rest =>
      let batch_signatures := firstn batch_size (skipn i signatures_result) in
      (if (0 <? i)%nat then time_sleep 1 else ret tt) ;;;
      current_batch <- lift_result (signatures_of batch_signatures) ;;
      transactions <- for_signatures current_batch transactions ;;
      for_batches rest signatures_result transactions
  end.

(** The outer [try ... except Exception: raise] hands every exception on. *)
Definition get_transactions (limit : Z) : M World (list TransactionInfo.t) :=
  signatures_result <-
    consult "getSignaturesForAddress" (Some system_program_address)
      (fun k => getSignaturesForAddress node k (Z.min limit 25)) ;;
  match signatures_result with
  | [] => ret []
  | _ :: _ =>
      let stop := Z.to_nat (Z.min (Z.of_nat (length signatures_result)) limit) in
      for_batches (range stop batch_size) signatures_result []
  end.

(** *** get_tps, get_active_addresses, get_whale_transfers *)

Definition get_tps : M World Q :=
  performance <- consult "getRecentPerformanceSamples" None
                   (getRecentPerformanceSamples node) ;;
  match performance with
  | [] => ret 0
  | sample :: _ =>
      match Answer.get (Answer.numTransactions sample) (Some 0),
            Answer.get (Answer.samplePeriodSecs sample) (Some 1) with
      | Some transactions, Some seconds => lift_result (truediv transactions seconds)
      | _, _ => raise TypeError
      end
  end.

Definition get_active_addresses : M World Z :=
  try_except
    (token_accounts <- consult "getTokenAccountsByOwner" (Some system_program_address)
                         (getTokenAccountsByOwner node) ;;
     match token_accounts with
     | Answer.Value value => ret (Z.of_nat (length value) * 10)%Z
     | Answer.Null => raise TypeError
     | Answer.Missing => ret 0%Z
     end)
    (fun _ => ret 0%Z).

Definition get_whale_transfers (threshold_sol : Z)
    : M World (list TransactionInfo.t) :=
  let threshold_lamports := (threshold_sol * 1000000000)%Z in
  transactions <- get_transactions 100 ;;
  ret (List.filter
         (fun tx =>
            TransactionInfo.is_success tx &&
            match TransactionInfo.lamports tx with
            | Some lamports => (threshold_lamports <=? lamports)%Z
            | None => false
            end)
         transactions).

(** *** on_chain.py: get_onchain_metrics *)

(** The [try] block. *)
Definition get_onchain_metrics_body : M World OnChainData.t :=
  transactions <- get_transactions 100 ;;
  let transactions_count := Z.of_nat (length transactions) in
  tps <- get_tps ;;
  active_addresses <- get_active_addresses ;;
  now <- time_time node ;;
  ret {| OnChainData.timestamp := now;
         OnChainData.transactions_count := transactions_count;
         OnChainData.tps := tps;
         OnChainData.active_addresses := active_addresses |}.

Definition get_onchain_metrics : M World OnChainData.t :=
  try_except get_onchain_metrics_body
    (fun _ =>
       now <- time_time node ;;
       ret {| OnChainData.timestamp := now; OnChainData.transactions_count := 0;
              OnChainData.tps := 0; OnChainData.active_addresses := 0 |}).

(** *** order_flow.py: track_whale_transfers *)

(** The running lists and sums of the loop. *)
Record tally := {
  formatted_transfers : list Transfer.t;
  cex_transfers : list Transfer.t;
  dex_transfers : list Transfer.t;
  total_value : Q;
  cex_value : Q;
  dex_value : Q
}.

Definition is_type (tx : TransactionInfo.t) (type : string) : bool :=
  match TransactionInfo.tx_type tx with
  | Some t => String.eqb t type
  | None => false
  end.

(** One pass of [for tx in whale_transfers]. *)
Definition add_transfer (sol_price : Q) (acc : tally) (tx : TransactionInfo.t) : tally :=
  let value_sol :=
    match TransactionInfo.lamports tx with
    | Some lamports =>
        if (lamports =? 0)%Z then 0 else inject_Z lamports / 1000000000
    | None => 0
    end in
  let value_usd := value_sol * sol_price in
  let transfer_info :=
    {| Transfer.signature := TransactionInfo.signature tx;
       Transfer.timestamp := TransactionInfo.block_time tx;
       Transfer.from_address := TransactionInfo.from_address tx;
       Transfer.to_address := TransactionInfo.to_address tx;
       Transfer.value_sol := value_sol;
       Transfer.value_usd := value_usd;
       Transfer.type := TransactionInfo.tx_type tx |} in
  {| formatted_transfers := formatted_transfers acc ++ [transfer_info];
     cex_transfers :=
       if is_type tx "CEX" then cex_transfers acc ++ [transfer_info]
       else cex_transfers acc;
     dex_transfers :=
       if is_type tx "CEX" then dex_transfers acc
       else if is_type tx "DEX" then dex_transfers acc ++ [transfer_info]
       else dex_transfers acc;
     total_value := total_value acc + value_usd;
     cex_value := if is_type tx "CEX" then cex_value acc + value_usd else cex_value acc;
     dex_value :=
       if is_type tx "CEX" then dex_value acc
       else if is_type tx "DEX" then dex_value acc + value_usd
       else dex_value acc |}.

Definition track_whale_transfers : M World WhaleData.t :=
  sol_price <- consult "get_ticker_24hr" (Some Config.SYMBOL) (lastPrice node) ;;
  whale_transfers <- get_whale_transfers 500 ;;
  let sums :=
    fold_left (add_transfer sol_price) whale_transfers
      {| formatted_transfers := []; cex_transfers := []; dex_transfers := [];
         total_value := 0; cex_value := 0; dex_value := 0 |} in
  now <- time_time node ;;
  ret {| WhaleData.timestamp := now;
         WhaleData.transfers := formatted_transfers sums;
         WhaleData.total_value := total_value sums;
         WhaleData.cex_transfers := cex_transfers sums;
         WhaleData.dex_transfers := dex_transfers sums;
         WhaleData.cex_value := cex_value sums;
         WhaleData.dex_value := dex_value sums |}.

End Queries.

(** *** Notions used in the statements *)

(** Every entry of the answer carries a [signature] member. *)
Definition signed_entries (signatures_result : list (Answer.member string)) : Prop :=
  Forall (fun sig_info => sig_info <> Answer.Missing) signatures_result.

(** What one batch adds to the trace: the pause between batches, then for
    each signature the short pause and the request. *)
Definition batch_schedule (signatures_result : list (Answer.member string)) (i : nat)
    : list event :=
  ((if (0 <? i)%nat then [Sleep 1] else [])
   ++ flat_map (fun sig_info =>
                  [Sleep 0.2; Request "getTransaction" (Answer.get sig_info None)])
               (firstn batch_size (skipn i signatures_result)))%list.

Definition schedule (limit : Z) (signatures_result : list (Answer.member string))
    : list event :=
  flat_map (batch_schedule signatures_result)
    (range (Z.to_nat (Z.min (Z.of_nat (length signatures_result)) limit)) batch_size).

(** A node that answers with no more entries than it was asked for. *)
Definition honours_limits (node : Node) : Prop :=
  (forall k limit signatures,
      getSignaturesForAddress node k limit = Return signatures ->
      (Z.of_nat (length signatures) <= limit)%Z)
  /\ (forall k value,
        getTokenAccountsByOwner node k = Return (Answer.Value value) ->
        (length value <= 100)%nat).

(** *** Sample input *)

(** A node with seven recent transactions: the second cannot be fetched,
    the third has a [null] meta, the fourth a [null] block time, the fifth
    moves 600 SOL. *)
Definition seven_signatures : list (Answer.member string) :=
  map Answer.Value ["s1"; "s2"; "s3"; "s4"; "s5"; "s6"; "s7"].

Definition plain_transaction : Answer.transaction :=
  {| Answer.slot := Answer.Value 250000000%Z;
     Answer.blockTime := Answer.Value 1700000000%Z;
     Answer.meta_member := Answer.Value {| Answer.fee := Answer.Value 5000%Z;
                                           Answer.err := false |};
     Answer.instructions := Answer.Value [None] |}.

Definition whale_transaction : Answer.transaction :=
  {| Answer.slot := Answer.Value 250000001%Z;
     Answer.blockTime := Answer.Value 1700000001%Z;
     Answer.meta_member := Answer.Value {| Answer.fee := Answer.Value 5000%Z;
                                           Answer.err := false |};
     Answer.instructions :=
       Answer.Value
         [None;
          Some {| Answer.type := Answer.Value "transfer";
                  Answer.info_member :=
                    Answer.Value
                      {| Answer.source :=
                           Answer.Value "9WzDXwBbmkg8ZTbNMqUxvQRAyrZzDsGYdLVL9zYtAWWM";
                         Answer.destination := Answer.Value "someone";
                         Answer.lamports := Answer.Value 600000000000%Z |} |}] |}.

Definition sample_node : Node :=
  {| clock := fun k => (1700000000 + Z.of_nat k)%Z;
     getSignaturesForAddress := fun _ limit =>
       if (limit <? 0)%Z then Raise (Exception "خطأ RPC سولانا: invalid limit" None)
       else Return (firstn (Z.to_nat limit) seven_signatures);
     getTransaction := fun _ signature =>
       match signature with
       | Some "s2" => Raise (Exception "خطأ RPC سولانا: busy" None)
       | Some "s3" =>
           Return (Some {| Answer.slot := Answer.Missing;
                           Answer.blockTime := Answer.Missing;
                           Answer.meta_member := Answer.Null;
                           Answer.instructions := Answer.Missing |})
       | Some "s4" =>
           Return (Some {| Answer.slot := Answer.Value 250000002%Z;
                           Answer.blockTime := Answer.Null;
                           Answer.meta_member := Answer.Missing;
                           Answer.instructions := Answer.Missing |})
       | Some "s5" => Return (Some whale_transaction)
       | _ => Return (Some plain_transaction)
       end;
     getRecentPerformanceSamples := fun _ =>
       Return [{| Answer.numTransactions := Answer.Value 180000;
                  Answer.samplePeriodSecs := Answer.Value 60 |}];
     getTokenAccountsByOwner := fun _ => Return (Answer.Value ["a"; "b"; "c"]);
     lastPrice := fun _ => Return 150 |}.

(** A node that has nothing to report. *)
Definition quiet_node : Node :=
  {| clock := fun _ => 1700000000%Z;
     getSignaturesForAddress := fun _ _ => Return [];
     getTransaction := fun _ _ => Return None;
     getRecentPerformanceSamples := fun _ => Return [];
     getTokenAccountsByOwner := fun _ => Return Answer.Missing;
     lastPrice := fun _ => Return 150 |}.

Definition start : World := {| steps := 0; trace := [] |}.

End SolanaQueries.

(** ** Statements about a computation

    What a computation of [Py.M] keeps, returns and lets out. *)

Module Along.
Import Py.

Section Along.
Context {S : Type}.

(** [m] keeps the invariant [I], however it ends. *)
Definition keeps (I : S -> Prop) {A : Type} (m : M S A) : Prop :=
  forall s, I s -> I (snd (m s)).

(** Started where [I] holds, [m] returns only values that satisfy [Q]. *)
Definition yields (I : S -> Prop) {A : Type} (Q : A -> Prop) (m : M S A) : Prop :=
  forall s a s', I s -> m s = (Return a, s') -> Q a.

(** [m] lets out only exceptions that satisfy [E]. *)
Definition lets_out (E : exn -> Prop) {A : Type} (m : M S A) : Prop :=
  forall s e s', m s = (Raise e, s') -> E e.

End Along.

End Along.

(** ** Where the readings of the generator come from *)

Module Pipeline.
Import Py Indicators.


(** Whatever the [try] block of [get_onchain_metrics] hands on was produced
    by it on some node that honours the limits of the requests. *)
Definition metrics_from_chain (up : Upstream) : Prop :=
  forall k onchain_data,
    get_onchain_metrics_body up k = Return onchain_data ->
    exists node w,
      SolanaQueries.honours_limits node /\
      fst (SolanaQueries.get_onchain_metrics_body node w) = Return onchain_data.

(** An upstream whose chain readings are produced by the queries, the
    whale data on [quiet_node] and the metrics on [sample_node], and whose
    other readings are those of the quiet market. *)
Definition upstream_from_chain : Upstream :=
  {| clock := clock SignalGenerator.upstream_quiet;
     calculate_delta_body := calculate_delta_body SignalGenerator.upstream_quiet;
     calculate_footprint_body := calculate_footprint_body SignalGenerator.upstream_quiet;
     track_whale_transfers_body := fun _ =>
       fst (SolanaQueries.track_whale_transfers SolanaQueries.quiet_node
              SolanaQueries.start);
     get_open_interest_body := get_open_interest_body SignalGenerator.upstream_quiet;
     calculate_vwap_body := calculate_vwap_body SignalGenerator.upstream_quiet;
     detect_icebergs_body := detect_icebergs_body SignalGenerator.upstream_quiet;
     calculate_cvd_body := calculate_cvd_body SignalGenerator.upstream_quiet;
     detect_spoofing_body := detect_spoofing_body SignalGenerator.upstream_quiet;
     get_long_short_ratio_body := get_long_short_ratio_body SignalGenerator.upstream_quiet;
     get_funding_rate_body := get_funding_rate_body SignalGenerator.upstream_quiet;
     get_onchain_metrics_body := fun _ =>
       fst (SolanaQueries.get_onchain_metrics_body SolanaQueries.sample_node
              SolanaQueries.start) |}.

End Pipeline.

(** * Properties

    One module of facts for each module of the embedding. *)

Module SolanaClientFacts.
Import Py SolanaClient.
Local Open Scope Z_scope.

Lemma pool_nonempty (self : t) : (0 < length (endpoints self))%nat.
Proof. unfold endpoints. simpl. lia. Qed.

(** The endpoint of a request is always one of the pool. *)
Lemma current_endpoint_in_pool (self : t) (index : nat) :
  In (current_endpoint self index) (endpoints self).
Proof.
  unfold current_endpoint. apply nth_In.
  apply Nat.mod_upper_bound. pose proof (pool_nonempty self). lia.
Qed.

Lemma div_succ (k n : nat) :
  (0 < n)%nat ->
  (S k / n = if S k mod n =? 0 then S (k / n) else k / n)%nat.
Proof.
  intros Hn.
  pose proof (Nat.div_mod_eq k n) as Hk.
  pose proof (Nat.mod_upper_bound k n ltac:(lia)) as Hlt.
  destruct (Nat.eq_dec (S (k mod n)) n) as [Heq | Hne].
  - assert (Hd : (S k / n = S (k / n))%nat).
    { symmetry. apply (Nat.div_unique (S k) n (S (k / n)) 0%nat); nia. }
    assert (Hm : (S k mod n = 0)%nat).
    { symmetry. apply (Nat.mod_unique (S k) n (S (k / n)) 0%nat); nia. }
    rewrite Hm. simpl. exact Hd.
  - assert (Hd : (S k / n = k / n)%nat).
    { symmetry. apply (Nat.div_unique (S k) n (k / n) (S (k mod n))); nia. }
    assert (Hm : (S k mod n = S (k mod n))%nat).
    { symmetry. apply (Nat.mod_unique (S k) n (k / n) (S (k mod n))); nia. }
    rewrite Hm. simpl. exact Hd.
Qed.

(** More fuel never changes a finished run. *)
Lemma loop_fuel_mono self net method fuel : forall st r st' extra,
  loop self net method fuel st = Finished r st' ->
  loop self net method (fuel + extra) st = Finished r st'.
Proof.
  induction fuel as [| fuel IH]; intros st r st' extra H; simpl in *.
  - destruct (max_retries <? retry_count st) eqn:E.
    + destruct extra; simpl; rewrite E; exact H.
    + discriminate.
  - destruct (max_retries <? retry_count st) eqn:E; [exact H |].
    destruct (iteration self net method st) as [st1 | r1 st1]; [| exact H].
    apply IH. exact H.
Qed.

(** A 429 whose [Retry-After] is absent or a length [time.sleep] takes:
    the pause is slept and the loop goes on. *)
Lemma on_429_goes_on self st tr ra :
  well_formed_header ra ->
  on_429 self st tr ra
  = Continue {| retry_count := retry_count (next_endpoint self st tr);
                current_endpoint_index := current_endpoint_index (next_endpoint self st tr);
                requests := requests (next_endpoint self st tr);
                trace := tr ++ [Sleep (pause ra)] |}.
Proof.
  intros Hra. unfold on_429, pause.
  destruct ra as [| n | s]; cbn in Hra; [| | contradiction]; cbv zeta.
  - reflexivity.
  - replace ((n <? - sleep_max) || (sleep_max <? n)) with false.
    2:{ symmetry. apply orb_false_iff. unfold sleep_max in *.
        split; apply Z.ltb_ge; lia. }
    replace (n <? 0) with false by (symmetry; apply Z.ltb_ge; lia).
    reflexivity.
Qed.

(** One rate-limited request: the index moves on, the attempt counter
    follows the cycle, and the sleeps are the backoff and the pause. *)
Lemma iteration_429 self net method h k tr :
  always_429 net h -> well_formed_header (h k) ->
  iteration self net method (after self k tr)
  = Continue (after self (S k) (tr ++ request_events self method h k)).
Proof.
  intros Hnet Hh.
  unfold iteration. cbn [after retry_count current_endpoint_index requests trace].
  destruct (Hnet k (current_endpoint self k)) as [b ->].
  change (429 =? 429) with true. cbv iota.
  rewrite (on_429_goes_on _ _ _ _ Hh). unfold next_endpoint.
  cbn [after retry_count current_endpoint_index requests trace].
  assert (Hrc : (if (S k mod length (endpoints self) =? 0)%nat
                 then Z.of_nat (k / length (endpoints self)) + 1
                 else Z.of_nat (k / length (endpoints self)))
                = Z.of_nat (S k / length (endpoints self))).
  { rewrite (div_succ k _ (pool_nonempty self)).
    destruct (S k mod length (endpoints self) =? 0)%nat; lia. }
  rewrite Hrc. unfold after. do 2 f_equal.
  unfold request_events, backoff_delay.
  replace (0 <? Z.of_nat (k / length (endpoints self)))
    with (0 <? k / length (endpoints self))%nat.
  2:{ destruct (Nat.ltb_spec 0 (k / length (endpoints self)));
      symmetry; [apply Z.ltb_lt | apply Z.ltb_ge]; lia. }
  destruct (0 <? k / length (endpoints self))%nat; cbn [map app];
    rewrite <- ?app_assoc; reflexivity.
Qed.

(** The whole run under rate limiting, from request [k] on. *)
Lemma loop_429 self net method h :
  always_429 net h -> (forall k, well_formed_header (h k)) ->
  forall m k tr,
    (k + m = 4 * length (endpoints self))%nat ->
    loop self net method m (after self k tr)
    = Finished (Return PyNone)
        (after self (4 * length (endpoints self))
               (tr ++ flat_map (request_events self method h) (seq k m))).
Proof.
  intros Hnet Hh. pose proof (pool_nonempty self) as Hn.
  induction m as [| m IH]; intros k tr Hk.
  - cbn [loop seq flat_map]. replace (4 * length (endpoints self))%nat with k by lia.
    assert (Hq : (k / length (endpoints self) = 4)%nat).
    { replace k with (4 * length (endpoints self))%nat by lia.
      apply Nat.div_mul. lia. }
    unfold after. cbn [retry_count]. rewrite Hq.
    change (max_retries <? Z.of_nat 4) with true. cbv iota.
    now rewrite app_nil_r.
  - assert (Hq : (k / length (endpoints self) < 4)%nat).
    { apply Nat.Div0.div_lt_upper_bound. lia. }
    cbn [loop]. unfold after at 1. cbn [retry_count].
    replace (max_retries <? Z.of_nat (k / length (endpoints self))) with false.
    2:{ symmetry. apply Z.ltb_ge. unfold max_retries. lia. }
    fold (after self k tr).
    rewrite (iteration_429 self net method h k tr Hnet (Hh k)).
    rewrite (IH (S k) _ ltac:(lia)).
    cbn [seq flat_map]. rewrite <- !app_assoc. reflexivity.
Qed.


(** A failing endpoint, whatever the kind of failure, moves the index on
    and counts an attempt exactly when the index wraps. *)
Lemma failure_step self net method st :
  endpoint_failure (net (requests st) (current_endpoint self (current_endpoint_index st))) ->
  exists st',
    (iteration self net method st = Continue st' \/
     exists e, iteration self net method st = Stop (Raise e) st') /\
    current_endpoint_index st' = S (current_endpoint_index st) /\
    requests st' = S (requests st) /\
    retry_count st' =
      if (S (current_endpoint_index st) mod length (endpoints self) =? 0)%nat
      then retry_count st + 1 else retry_count st.
Proof.
  intros Hfail. unfold iteration.
  destruct (net (requests st) (current_endpoint self (current_endpoint_index st)))
    as [msg | status ra b]; simpl in Hfail.
  - unfold on_request_exception.
    destruct (max_retries <? retry_count (next_endpoint self st _)) eqn:E;
      eexists; (split; [first [left; reflexivity | right; eexists; reflexivity] |]);
      repeat split; reflexivity.
  - destruct Hfail as [-> | Hrange].
    + change (429 =? 429) with true. cbv iota. unfold on_429.
      destruct ra as [| n | s]; cbv zeta.
      * change ((2 <? - sleep_max) || (sleep_max <? 2)) with false.
        change (2 <? 0) with false. cbv iota.
        eexists; split; [left; reflexivity | repeat split; reflexivity].
      * destruct ((n <? - sleep_max) || (sleep_max <? n)); [| destruct (n <? 0)];
          eexists; (split; [first [left; reflexivity | right; eexists; reflexivity] |]);
          repeat split; reflexivity.
      * eexists; split; [right; eexists; reflexivity | repeat split; reflexivity].
    + replace (status =? 429) with false by (symmetry; apply Z.eqb_neq; lia).
      replace ((400 <=? status) && (status <? 600)) with true.
      2:{ symmetry. apply andb_true_iff. split; [apply Z.leb_le | apply Z.ltb_lt]; lia. }
      unfold on_request_exception.
      destruct (max_retries <? retry_count (next_endpoint self st _)) eqn:E;
        eexists; (split; [first [left; reflexivity | right; eexists; reflexivity] |]);
        repeat split; reflexivity.
Qed.

(** Before the index wraps, failures leave [retry_count] at 0 and the loop
    going. *)
Lemma failures_before_wrap self net method j :
  (j < length (endpoints self))%nat ->
  first_fail self net j ->
  forall m k tr fuel,
    (k + m = j)%nat ->
    exists tr',
      loop self net method (m + fuel)
           {| retry_count := 0; current_endpoint_index := k; requests := k; trace := tr |}
      = loop self net method fuel
           {| retry_count := 0; current_endpoint_index := j; requests := j; trace := tr' |}
      /\ posts tr' = posts tr ++ map (current_endpoint self) (seq k m).
Proof.
  intros Hj Hff. induction m as [| m IH]; intros k tr fuel Hk.
  - replace k with j by lia. exists tr. split; [reflexivity |].
    cbn [seq map]. now rewrite app_nil_r.
  - assert (Hlt : (k < j)%nat) by lia.
    specialize (Hff k Hlt).
    assert (Hnowrap : (S k mod length (endpoints self) =? 0)%nat = false).
    { apply Nat.eqb_neq. rewrite Nat.mod_small; lia. }
    cbn [Nat.add loop retry_count]. change (max_retries <? 0) with false. cbv iota.
    assert (Hstep : exists tr1,
      iteration self net method
        {| retry_count := 0; current_endpoint_index := k; requests := k; trace := tr |}
      = Continue {| retry_count := 0; current_endpoint_index := S k;
                    requests := S k; trace := tr1 |}
      /\ posts tr1 = posts tr ++ [current_endpoint self k]).
    { unfold iteration. cbn [retry_count current_endpoint_index requests trace].
      change (0 <? 0) with false. cbv iota.
      destruct (net k (current_endpoint self k)) as [msg | status ra b].
      - unfold on_request_exception, next_endpoint.
        cbn [retry_count current_endpoint_index requests trace].
        rewrite Hnowrap. change (max_retries <? 0) with false. cbv iota.
        eexists. split; [reflexivity |].
        unfold posts. rewrite flat_map_app. reflexivity.
      - destruct Hff as [[-> Hra] | Hrange].
        + change (429 =? 429) with true. cbv iota.
          rewrite (on_429_goes_on _ _ _ ra) by (destruct ra; cbn; tauto).
          unfold next_endpoint.
          cbn [retry_count current_endpoint_index requests trace].
          rewrite Hnowrap.
          eexists. split; [reflexivity |].
          unfold posts. rewrite !flat_map_app. simpl. now rewrite app_nil_r.
        + replace (status =? 429) with false by (symmetry; apply Z.eqb_neq; lia).
          replace ((400 <=? status) && (status <? 600)) with true.
          2:{ symmetry. apply andb_true_iff. split; [apply Z.leb_le | apply Z.ltb_lt]; lia. }
          unfold on_request_exception, next_endpoint.
          cbn [retry_count current_endpoint_index requests trace].
          rewrite Hnowrap. change (max_retries <? 0) with false. cbv iota.
          eexists. split; [reflexivity |].
          unfold posts. rewrite flat_map_app. reflexivity. }
    destruct Hstep as (tr1 & -> & Hp1).
    destruct (IH (S k) tr1 fuel ltac:(lia)) as (tr2 & -> & Hp2).
    exists tr2. split; [reflexivity |].
    rewrite Hp2, Hp1. cbn [seq map]. rewrite <- app_assoc. reflexivity.
Qed.


(** A payload-level rate limit moves to the next endpoint and never counts:
    when every endpoint answers that way the loop does not end. *)
Lemma rate_limit_payload_never_exhausts method fuel : forall st,
  retry_count st <= max_retries ->
  exists st', loop (__init__ None) net_rate_limit_payload method fuel st = OutOfFuel st'
              /\ retry_count st' = retry_count st.
Proof.
  induction fuel as [| fuel IH]; intros st Hrc; cbn [loop];
    replace (max_retries <? retry_count st) with false
      by (symmetry; apply Z.ltb_ge; exact Hrc).
  - exists st. split; reflexivity.
  - unfold iteration, net_rate_limit_payload.
    change (200 =? 429) with false.
    change ((400 <=? 200) && (200 <? 600)) with false. cbv iota.
    replace (is_rate_limit _) with true by (vm_compute; reflexivity).
    destruct (IH (skip_endpoint st
                (((if 0 <? retry_count st
                   then trace st ++ [Sleep (base_delay * 2 ^ (retry_count st - 1))]
                   else trace st)
                  ++ [Post (current_endpoint (__init__ None) (current_endpoint_index st))
                           method]))) Hrc)
      as (st' & H & Hrc').
    exists st'. split; [exact H | exact Hrc'].
Qed.

(** The transport-failure path does raise once the retries are used up. *)
Example transport_exhaustion_raises :
  exists st,
    _make_request (__init__ None) net_down "getSlot" 16
      = Finished (Raise (Exception "خطأ في طلب سولانا: "
                                   (Some (Transport "Connection refused")))) st
    /\ retry_count st = 4 /\ requests st = 16%nat.
Proof. eexists. vm_compute. repeat split; reflexivity. Qed.

(** C2 (the code at the failing input): when every endpoint answers HTTP 429
    the retry loop runs out of retries and [_make_request] leaves the loop
    and returns [None]; it raises nothing. *)
Theorem exhaustion_on_429_returns_None self net method h fuel :
  always_429 net h ->
  (forall k, well_formed_header (h k)) ->
  (4 * length (endpoints self) <= fuel)%nat ->
  exists st,
    _make_request self net method fuel = Finished (Return PyNone) st /\
    max_retries < retry_count st.
Proof.
  intros Hnet Hh Hfuel.
  pose proof (loop_429 self net method h Hnet Hh (4 * length (endpoints self)) 0 []
                ltac:(lia)) as Hrun.
  eexists. split.
  - unfold _make_request.
    replace fuel with (4 * length (endpoints self) + (fuel - 4 * length (endpoints self)))%nat
      by lia.
    apply loop_fuel_mono.
    change initial with (after self 0 []). exact Hrun.
  - unfold after. cbn [retry_count].
    rewrite Nat.div_mul by (pose proof (pool_nonempty self); lia).
    unfold max_retries. lia.
Qed.

Lemma exhaustion_on_429_returns_None_witness :
  exists st,
    _make_request (__init__ None) net_429 "getSlot" 16 = Finished (Return PyNone) st /\
    max_retries < retry_count st.
Proof.
  apply (exhaustion_on_429_returns_None (__init__ None) net_429 "getSlot"
           (fun _ => NoHeader) 16).
  - intros k url. exists NoResult. reflexivity.
  - intros k. exact I.
  - simpl. lia.
Defined.

(** C6: a failing endpoint (transport error, HTTP 5xx or HTTP 429) advances
    the endpoint index and leaves the attempt counter alone unless the index
    is back at a multiple of the pool size; a call whose first [j] endpoints
    fail and whose next one answers, with [j] below the pool size, returns
    with the counter at 0; so does the pool of three with answers 500, 500, 200. *)
Theorem endpoint_failure_is_not_an_attempt :
  (forall self net method st,
     endpoint_failure (net (requests st)
                           (current_endpoint self (current_endpoint_index st))) ->
     exists st',
       (iteration self net method st = Continue st' \/
        exists e, iteration self net method st = Stop (Raise e) st') /\
       current_endpoint_index st' = S (current_endpoint_index st) /\
       retry_count st' =
         if (S (current_endpoint_index st) mod length (endpoints self) =? 0)%nat
         then retry_count st + 1 else retry_count st)
  /\
  (forall self net method j status ra v fuel,
     (j < length (endpoints self))%nat ->
     first_fail self net j ->
     net j (current_endpoint self j) = Http status ra (Result v) ->
     200 <= status < 300 ->
     exists st,
       _make_request self net method (j + S fuel) = Finished (Return v) st /\
       retry_count st = retry_count initial /\
       posts (trace st) = map (current_endpoint self) (seq 0 (S j)))
  /\
  (exists st,
     _make_request pool3 net_500_500_200 "getSlot" 3
       = Finished (Return (Json "12345")) st /\
     retry_count st = 0 /\
     sleeps (trace st) = [] /\
     posts (trace st)
       = ["https://one.example"; "https://two.example"; "https://three.example"]%string).
Proof.
  split; [| split].
  - intros self net method st Hfail.
    destruct (failure_step self net method st Hfail) as (st' & Hit & Hidx & _ & Hrc).
    exists st'. repeat split; assumption.
  - intros self net method j status ra v fuel Hj Hff Hok Hst.
    destruct (failures_before_wrap self net method j Hj Hff j 0%nat [] (S fuel)
                ltac:(lia)) as (tr & Hrun & Hposts).
    unfold _make_request. change initial with
      {| retry_count := 0; current_endpoint_index := 0; requests := 0; trace := [] |}.
    rewrite Hrun. cbn [loop retry_count]. change (max_retries <? 0) with false. cbv iota.
    unfold iteration. cbn [retry_count current_endpoint_index requests trace].
    rewrite Hok. change (0 <? 0) with false. cbv iota.
    replace (status =? 429) with false by (symmetry; apply Z.eqb_neq; lia).
    replace ((400 <=? status) && (status <? 600)) with false.
    2:{ symmetry. apply andb_false_iff. left. apply Z.leb_gt. lia. }
    eexists. split; [reflexivity |]. split; [reflexivity |].
    cbn [sent trace]. unfold posts in *. rewrite flat_map_app, Hposts.
    cbn [flat_map app]. rewrite seq_S, map_app. reflexivity.
  - eexists. vm_compute. repeat split; reflexivity.
Qed.

Lemma endpoint_failure_is_not_an_attempt_witness :
  (exists st',
     (iteration pool3 net_500_500_200 "getSlot" initial = Continue st' \/
      exists e, iteration pool3 net_500_500_200 "getSlot" initial = Stop (Raise e) st') /\
     current_endpoint_index st' = 1%nat /\
     retry_count st' = 0)
  /\
  (exists st,
     _make_request pool3 net_500_500_200 "getSlot" (2 + 1) = Finished (Return (Json "12345")) st /\
     retry_count st = 0 /\
     posts (trace st)
       = ["https://one.example"; "https://two.example"; "https://three.example"]%string).
Proof.
  split.
  - apply (proj1 endpoint_failure_is_not_an_attempt pool3 net_500_500_200 "getSlot" initial).
    simpl. right. lia.
  - apply (proj1 (proj2 endpoint_failure_is_not_an_attempt)
             pool3 net_500_500_200 "getSlot" 2%nat 200 NoHeader (Json "12345") 0%nat).
    + simpl. lia.
    + intros k Hk.
      destruct k as [| [| k]]; [simpl; right; lia | simpl; right; lia | lia].
    + reflexivity.
    + lia.
Defined.

(** C7 (the code at the failing input): when every endpoint of a pool of
    [n] answers HTTP 429, the call sends [4 * n] requests and returns
    [None].  The backoff of the cycle, [2 * 2 ^ (c - 1)] seconds in cycle
    [c >= 1], is slept before every request of that cycle; after every
    answer the call sleeps once more, the [Retry-After] seconds when the
    header is there and a fixed 2 seconds when it is not.  So a
    [Retry-After] is slept on top of the backoff, not in its place, and
    without one the pause after the answer does not grow. *)
Theorem retry_after_comes_on_top_of_backoff self net method h fuel :
  always_429 net h ->
  (forall k, well_formed_header (h k)) ->
  (4 * length (endpoints self) <= fuel)%nat ->
  exists st,
    _make_request self net method fuel = Finished (Return PyNone) st /\
    requests st = (4 * length (endpoints self))%nat /\
    trace st = rate_limited_trace self method h.
Proof.
  intros Hnet Hh Hfuel.
  pose proof (loop_429 self net method h Hnet Hh (4 * length (endpoints self)) 0 []
                ltac:(lia)) as Hrun.
  eexists. split; [| split].
  - unfold _make_request.
    replace fuel with (4 * length (endpoints self) + (fuel - 4 * length (endpoints self)))%nat
      by lia.
    apply loop_fuel_mono. change initial with (after self 0 []). exact Hrun.
  - reflexivity.
  - reflexivity.
Qed.

Lemma retry_after_comes_on_top_of_backoff_witness :
  exists st,
    _make_request (__init__ None) (net_429_retry_after 7) "getSlot" 16
      = Finished (Return PyNone) st /\
    requests st = 16%nat /\
    trace st = rate_limited_trace (__init__ None) "getSlot" (fun _ => HeaderInt 7).
Proof.
  apply (retry_after_comes_on_top_of_backoff (__init__ None) (net_429_retry_after 7)
           "getSlot" (fun _ => HeaderInt 7) 16).
  - intros k url. exists NoResult. reflexivity.
  - intros k. cbn. unfold sleep_max. lia.
  - simpl. lia.
Defined.

(** The two runs written out: the seconds slept, in order, on the pool of
    four when no endpoint sends a [Retry-After] and when every endpoint
    sends 7; and the first events of the fifth request, the first of the
    second cycle. *)
Example rate_limited_runs :
  sleeps (rate_limited_trace (__init__ None) "getSlot" (fun _ => NoHeader))
  = [2; 2; 2; 2;  2; 2; 2; 2; 2; 2; 2; 2;  4; 2; 4; 2; 4; 2; 4; 2;  8; 2; 8; 2; 8; 2; 8; 2]
  /\ sleeps (rate_limited_trace (__init__ None) "getSlot" (fun _ => HeaderInt 7))
     = [7; 7; 7; 7;  2; 7; 2; 7; 2; 7; 2; 7;  4; 7; 4; 7; 4; 7; 4; 7;  8; 7; 8; 7; 8; 7; 8; 7]
  /\ request_events (__init__ None) "getSlot" (fun _ => HeaderInt 7) 4
     = [Sleep 2; Post "https://api.mainnet-beta.solana.com" "getSlot"; Sleep 7].
Proof. repeat split; vm_compute; reflexivity. Qed.

End SolanaClientFacts.

Module BinanceClientFacts.
Import Py BinanceClient.
Local Open Scope string_scope.

Section WithServer.
Variable server : nat -> Request -> response.
Variable time_ms : nat -> Z.
Variable urlencode : list (string * string) -> string.
Variable hmac_sha256_hexdigest : string -> string -> string.
Variable str_of_int : Z -> string.


Lemma set_base_url_restore self url :
  set_base_url (set_base_url self url) (base_url self) = self.
Proof. destruct self. reflexivity. Qed.

(** An unsigned [_request]: one request to [base_url + endpoint], the
    outcome passed on, the client's fields not touched. *)
Lemma _request_unsigned self method endpoint params w :
  let req := {| req_method := method; req_url := base_url self ++ endpoint;
                req_params := params; req_timeout := (30, 30)%Z |} in
  exists w',
    _request server time_ms urlencode hmac_sha256_hexdigest str_of_int
             self method endpoint false params w
    = (passed_on (base_url self ++ endpoint) (server (length (sent w)) req), w') /\
    sent w' = (sent w ++ [req])%list.
Proof.
  cbv zeta. unfold _request, bind, get, mount, session_request, raise, ret, passed_on.
  cbn [heap sent].
  destruct (server (length (sent w)) _) as [f | status [text |]].
  - eexists. split; reflexivity.
  - destruct ((400 <=? status) && (status <? 600))%Z; eexists; split; reflexivity.
  - destruct ((400 <=? status) && (status <? 600))%Z; eexists; split; reflexivity.
Qed.


(** The pattern shared by the three futures calls. *)
Lemma swap_and_restore self endpoint params w :
  let futures := "https://fapi.binance.com" in
  let req := {| req_method := "GET"; req_url := futures ++ endpoint;
                req_params := params; req_timeout := (30, 30)%Z |} in
  exists w',
    try_finally (set_base_url self futures)
      (_request server time_ms urlencode hmac_sha256_hexdigest str_of_int
                (set_base_url self futures) "GET" endpoint false params)
      (fun self' => set_base_url self' (base_url self)) w
    = (passed_on (futures ++ endpoint) (server (length (sent w)) req), self, w') /\
    sent w' = (sent w ++ [req])%list.
Proof.
  cbv zeta. unfold try_finally.
  destruct (_request_unsigned (set_base_url self "https://fapi.binance.com")
              "GET" endpoint params w) as (w' & Hrun & Hsent).
  cbv zeta in Hrun, Hsent. cbn [base_url set_base_url] in Hrun, Hsent.
  rewrite Hrun. exists w'. split; [| exact Hsent].
  now rewrite set_base_url_restore.
Qed.

(** C10: each of the three futures calls sends its one request to the
    futures host, hands the outcome on (a value on the success path, the
    exception on the failure path), and returns the client with every field
    as it was before the call, [base_url] included. *)
Theorem futures_calls_restore_base_url self w symbol period limit :
  swapped_and_restored server self w
    "/fapi/v1/premiumIndex" [("symbol", symbol)]
    (get_funding_rate server time_ms urlencode hmac_sha256_hexdigest str_of_int
       self symbol w)
  /\
  swapped_and_restored server self w
    "/fapi/v1/openInterest" [("symbol", symbol)]
    (get_open_interest server time_ms urlencode hmac_sha256_hexdigest str_of_int
       self symbol w)
  /\
  swapped_and_restored server self w
    "/futures/data/globalLongShortAccountRatio"
    [("symbol", symbol); ("period", period); ("limit", str_of_int limit)]
    (get_long_short_ratio server time_ms urlencode hmac_sha256_hexdigest str_of_int
       self symbol period limit w).
Proof.
  unfold swapped_and_restored, get_funding_rate, get_open_interest, get_long_short_ratio.
  cbv zeta. repeat apply conj.
  - destruct (swap_and_restore self "/fapi/v1/premiumIndex" [("symbol", symbol)] w)
      as (w' & Hrun & Hsent).
    cbv zeta in Hrun, Hsent. rewrite Hrun. repeat split; [exact Hsent].
  - destruct (swap_and_restore self "/fapi/v1/openInterest" [("symbol", symbol)] w)
      as (w' & Hrun & Hsent).
    cbv zeta in Hrun, Hsent. rewrite Hrun. repeat split; [exact Hsent].
  - destruct (swap_and_restore self "/futures/data/globalLongShortAccountRatio"
                [("symbol", symbol); ("period", period); ("limit", str_of_int limit)] w)
      as (w' & Hrun & Hsent).
    cbv zeta in Hrun, Hsent. rewrite Hrun. repeat split; [exact Hsent].
Qed.

End WithServer.

(** Both ways out of a futures call, on a server that answers and on one
    that cannot be reached. *)
Example funding_rate_both_paths :
  let up := fun (_ : nat) (_ : Request) => Answer 200 (Some "{}") in
  let down := fun (_ : nat) (_ : Request) => Raises (Transport "Connection refused") in
  let run server :=
    match __init__ "key" "secret" {| heap := ∅; sent := [] |} with
    | (Return self, w) =>
        let '(r, self', w') :=
          get_funding_rate server (fun _ => 0%Z) (fun _ => "") (fun _ _ => "") (fun _ => "")
                           self "SOLUSDT" w in
        Some (r, base_url self', map req_url (sent w'))
    | (Raise _, _) => None
    end in
  run up = Some (Return "{}", "https://api.binance.com",
                 ["https://fapi.binance.com/fapi/v1/premiumIndex"]) /\
  run down = Some (Raise (RequestException (Transport "Connection refused")),
                   "https://api.binance.com",
                   ["https://fapi.binance.com/fapi/v1/premiumIndex"]).
Proof. split; vm_compute; reflexivity. Qed.

End BinanceClientFacts.

Module SignalGeneratorFacts.
Import Py Indicators SignalGenerator.
Local Open Scope Z_scope.


Lemma caches_bind {A : Type} name (m : M State A) (k : A -> M State SignalData.t) :
  (forall a, caches name (k a)) -> caches name (bind m k).
Proof.
  intros Hk st signal st' H. unfold bind in H.
  destruct (m st) as [[a | e] st1]; [| discriminate].
  exact (Hk a st1 signal st' H).
Qed.

Lemma caches_cached name : caches name (cached name).
Proof.
  intros st signal st' H. unfold cached, bind, get in H.
  destruct (signal_cache (self st) !! name) as [s |] eqn:E; cbv in H.
  - injection H as <- <-. exact E.
  - discriminate.
Qed.

Lemma caches_store name up signal : caches name (store up name signal).
Proof.
  intros st s st' H. unfold store, bind, get, put, io, zoom, time_time, ret in H.
  cbn in H. injection H as <- <-. cbn. apply lookup_insert_eq.
Qed.

Lemma caches_emit name up strength direction confidence components :
  caches name (emit up name strength direction confidence components).
Proof.
  unfold emit. apply caches_bind. intros now. apply caches_bind. intros cfg.
  apply caches_store.
Qed.


Lemma caches_if name (b : bool) (m1 m2 : M State SignalData.t) :
  caches name m1 -> caches name m2 -> caches name (if b then m1 else m2).
Proof. destruct b; auto. Qed.

Ltac caches_step :=
  first
    [ apply caches_emit
    | apply caches_cached
    | apply caches_if
    | apply caches_bind; intros ?
    | match goal with
      | |- caches _ (let '(_, _) := ?p in _) => destruct p
      end ].

Lemma producers_cache up name producer :
  In (name, producer) (producers up) -> caches name producer.
Proof.
  unfold producers. cbn [In]. intros H.
  repeat (destruct H as [H | H]; [injection H as <- <- |]); [.. | contradiction].
  - unfold generate_order_flow_signal. repeat caches_step.
  - unfold generate_blockchain_oi_signal. repeat caches_step.
  - unfold generate_market_depth_signal. repeat caches_step.
  - unfold generate_sentiment_signal. repeat caches_step.
  - unfold generate_onchain_signal, against_baseline. repeat caches_step.
  - unfold generate_scalp_signal. repeat caches_step.
Qed.


Lemma fresh_hit up name cfg st signal :
  dict_get Config.INDICATORS name = Some cfg ->
  signal_cache (self st) !! name = Some signal ->
  clock up (steps (world st)) - default 0 (last_update (self st) !! name)
    < Config.update_interval cfg ->
  clock up (S (steps (world st))) - SignalData.timestamp signal
    <= Config.validity_period cfg ->
  fresh up name st = (Return true, two_ticks st).
Proof.
  intros Hcfg Hcache Hdue Hvalid.
  unfold fresh, _should_update_signal, _is_signal_valid, INDICATORS.
  rewrite Hcfg.
  unfold bind, get, io, zoom, time_time, ret. cbn [self world steps calls].
  replace (Config.update_interval cfg <=? _) with false
    by (symmetry; apply Z.leb_gt; exact Hdue).
  cbn [self world steps calls]. rewrite Hcache. cbn [self world steps calls].
  replace (_ <=? Config.validity_period cfg) with true
    by (symmetry; apply Z.leb_le; exact Hvalid).
  reflexivity.
Qed.

Lemma cached_hit name st signal :
  signal_cache (self st) !! name = Some signal ->
  cached name st = (Return signal, st).
Proof. intros H. unfold cached, bind, get. rewrite H. reflexivity. Qed.

Lemma producers_hit up name producer cfg st signal :
  In (name, producer) (producers up) ->
  dict_get Config.INDICATORS name = Some cfg ->
  signal_cache (self st) !! name = Some signal ->
  clock up (steps (world st)) - default 0 (last_update (self st) !! name)
    < Config.update_interval cfg ->
  clock up (S (steps (world st))) - SignalData.timestamp signal
    <= Config.validity_period cfg ->
  producer st = (Return signal, two_ticks st).
Proof.
  intros Hin Hcfg Hcache Hdue Hvalid.
  pose proof (fresh_hit up name cfg st signal Hcfg Hcache Hdue Hvalid) as Hfresh.
  assert (Hc : cached name (two_ticks st) = (Return signal, two_ticks st))
    by (apply cached_hit; exact Hcache).
  unfold producers in Hin. cbn [In] in Hin.
  repeat (destruct Hin as [Hin | Hin]; [injection Hin as <- <- |]); [.. | contradiction].
  - unfold generate_order_flow_signal, bind at 1. rewrite Hfresh. exact Hc.
  - unfold generate_blockchain_oi_signal, bind at 1. rewrite Hfresh. exact Hc.
  - unfold generate_market_depth_signal, bind at 1. rewrite Hfresh. exact Hc.
  - unfold generate_sentiment_signal, bind at 1. rewrite Hfresh. exact Hc.
  - unfold generate_onchain_signal, bind at 1. rewrite Hfresh. exact Hc.
  - unfold generate_scalp_signal, bind at 1. rewrite Hfresh. exact Hc.
Qed.

Lemma producers_cover_configuration up :
  map fst (producers up) = map fst Config.INDICATORS.
Proof. reflexivity. Qed.

Lemma bind_ret {S A : Type} (m : M S A) s : bind m ret s = m s.
Proof. unfold bind, ret. destruct (m s) as [[a | e] s']; reflexivity. Qed.

Lemma bind_ext {S A B : Type} (m : M S A) (k1 k2 : A -> M S B) s :
  (forall a s', k1 a s' = k2 a s') -> bind m k1 s = bind m k2 s.
Proof.
  intros H. unfold bind. destruct (m s) as [[a | e] s']; [apply H | reflexivity].
Qed.

Lemma get_all_signals_runs_producers up st :
  get_all_signals up st = collect_all (producers up) [] st.
Proof.
  unfold get_all_signals, producers. cbn [collect_all].
  do 5 (apply bind_ext; intros ? ?).
  symmetry. apply bind_ret.
Qed.

(** C5: for every configured name, when a call of the producer has returned
    a signal and the next call comes before the update interval has elapsed
    and while the signal is within its validity period, that call returns
    the cached signal itself, invokes no indicator method and leaves both
    dictionaries as they are; it only reads the clock twice. *)
Theorem second_call_served_from_cache up name producer cfg st signal st1 :
  In (name, producer) (producers up) ->
  dict_get Config.INDICATORS name = Some cfg ->
  producer st = (Return signal, st1) ->
  clock up (steps (world st1)) - default 0 (last_update (self st1) !! name)
    < Config.update_interval cfg ->
  clock up (S (steps (world st1))) - SignalData.timestamp signal
    <= Config.validity_period cfg ->
  exists st2,
    producer st1 = (Return signal, st2) /\
    signal_cache (self st1) !! name = Some signal /\
    self st2 = self st1 /\
    calls (world st2) = calls (world st1) /\
    steps (world st2) = S (S (steps (world st1))).
Proof.
  intros Hin Hcfg Hfirst Hdue Hvalid.
  pose proof (producers_cache up name producer Hin st signal st1 Hfirst) as Hcache.
  exists (two_ticks st1). split; [| repeat split; try reflexivity; exact Hcache].
  exact (producers_hit up name producer cfg st1 signal Hin Hcfg Hcache Hdue Hvalid).
Qed.


Lemma second_call_served_from_cache_witness :
  exists signal st1,
    generate_market_depth_signal upstream_quiet fresh_state = (Return signal, st1) /\
    exists st2,
      generate_market_depth_signal upstream_quiet st1 = (Return signal, st2) /\
      signal_cache (self st1) !! "MARKET_DEPTH"%string = Some signal /\
      self st2 = self st1 /\
      calls (world st2) = calls (world st1) /\
      steps (world st2) = S (S (steps (world st1))).
Proof.
  eexists. eexists. split; [vm_compute; reflexivity |].
  eapply (second_call_served_from_cache upstream_quiet "MARKET_DEPTH"
            (generate_market_depth_signal upstream_quiet) _ fresh_state).
  - right. right. left. reflexivity.
  - reflexivity.
  - vm_compute. reflexivity.
  - vm_compute. reflexivity.
  - vm_compute. discriminate.
Defined.

(** *** What a failing upstream does to the producers *)


Lemma fresh_miss up name cfg st :
  dict_get Config.INDICATORS name = Some cfg ->
  signal_cache (self st) !! name = None ->
  fresh up name st = (Return false, one_tick st).
Proof.
  intros Hcfg Hcache.
  unfold fresh, _should_update_signal, _is_signal_valid. rewrite Hcfg.
  unfold bind, get, io, zoom, time_time, ret. cbn [self world steps calls].
  destruct (Config.update_interval cfg <=? _); [reflexivity |].
  cbn [self world steps calls]. rewrite Hcache. reflexivity.
Qed.

(** C1 (the code at the failing input): when the order-flow signal is not
    in the cache and [calculate_delta] raises, [generate_order_flow_signal]
    raises the same exception, and so does [get_all_signals]: no signal
    mapping is handed on. *)
Theorem order_flow_failure_propagates up st e :
  signal_cache (self st) !! "ORDER_FLOW"%string = None ->
  calculate_delta_body up (S (steps (world st))) = Raise e ->
  (exists st', generate_order_flow_signal up st = (Raise e, st')) /\
  (exists st', get_all_signals up st = (Raise e, st')).
Proof.
  intros Hcache Hraise.
  assert (Hgen : exists st', generate_order_flow_signal up st = (Raise e, st')).
  { unfold generate_order_flow_signal, bind at 1.
    rewrite (fresh_miss up "ORDER_FLOW" _ st eq_refl Hcache).
    unfold bind at 1. unfold io, zoom, calculate_delta, invoke, one_tick.
    cbn [self world steps calls]. rewrite Hraise. eexists. reflexivity. }
  split; [exact Hgen |].
  destruct Hgen as (st' & Hgen).
  unfold get_all_signals, bind at 1. unfold collect at 1.
  cbn [fst snd]. change (dict_in "ORDER_FLOW" Config.INDICATORS) with true. cbv iota.
  unfold bind at 1. rewrite Hgen. eexists. reflexivity.
Qed.

Lemma order_flow_failure_propagates_witness :
  (exists st', generate_order_flow_signal (upstream_down timed_out) fresh_state
               = (Raise timed_out, st')) /\
  (exists st', get_all_signals (upstream_down timed_out) fresh_state
               = (Raise timed_out, st')).
Proof.
  apply (order_flow_failure_propagates (upstream_down timed_out) fresh_state timed_out).
  - reflexivity.
  - reflexivity.
Defined.

(** The market-depth producer, whose three indicator methods catch their
    own failures, answers a failing upstream with a neutral signal. *)
Example market_depth_degrades_to_neutral :
  exists signal st',
    generate_market_depth_signal (upstream_down timed_out) fresh_state
      = (Return signal, st') /\
    SignalData.direction signal = 0 /\
    (SignalData.strength signal == 0)%Q /\
    (SignalData.confidence signal == 0.7)%Q.
Proof.
  eexists. eexists. split; [vm_compute; reflexivity |].
  repeat split; vm_compute; reflexivity.
Qed.

(** The on-chain producer reads the neutral record of its indicator as
    activity far below the baselines. *)
Example onchain_degrades_to_full_sell :
  exists signal st',
    generate_onchain_signal (upstream_down timed_out) fresh_state
      = (Return signal, st') /\
    SignalData.direction signal = -1 /\
    (SignalData.strength signal == -100)%Q /\
    (SignalData.confidence signal == 0.9)%Q.
Proof.
  eexists. eexists. split; [vm_compute; reflexivity |].
  repeat split; vm_compute; reflexivity.
Qed.

End SignalGeneratorFacts.

Module SignalProcessorFacts.
Import Py Indicators SignalProcessor.
Local Open Scope Q_scope.

(** *** Dictionaries *)

Lemma dict_set_fresh {V : Type} (d : list (string * V)) k v :
  ~ In k (map fst d) -> dict_set d k v = d ++ [(k, v)].
Proof.
  induction d as [| [k' v'] d IH]; intros Hk; simpl in *; [reflexivity |].
  destruct (String.eqb_spec k k') as [-> | Hne].
  - exfalso. apply Hk. now left.
  - rewrite IH; [reflexivity |]. intros Hin. apply Hk. now right.
Qed.

(** *** The first loop *)

Lemma valid_signals_drops_all fusion_time signals : forall valid,
  all_expired fusion_time signals ->
  valid_signals fusion_time signals valid = Return valid.
Proof.
  induction signals as [| [name signal] rest IH]; intros valid Hall; [reflexivity |].
  destruct (Hall name signal (or_introl eq_refl)) as (cfg & Hcfg & Hgt).
  cbn [valid_signals]. rewrite Hcfg.
  replace (fusion_time <=? _)%Z with false by (symmetry; apply Z.leb_gt; lia).
  apply IH. intros n s Hin. apply Hall. now right.
Qed.


(** *** Comparisons respect equality of rationals *)

Lemma gt_proper x x' y y' : x == x' -> y == y' -> gt x y = gt x' y'.
Proof. intros Hx Hy. unfold gt. now rewrite Hx, Hy. Qed.


Lemma gt_spec x y : gt x y = true <-> y < x.
Proof.
  unfold gt. rewrite Qgt_alt.
  destruct (x ?= y); split; intros H; try reflexivity; try discriminate.
Qed.

Lemma lt_spec x y : lt x y = true <-> x < y.
Proof.
  unfold lt. rewrite Qlt_alt.
  destruct (x ?= y); split; intros H; try reflexivity; try discriminate.
Qed.

(** *** The second loop against the sums of the specification *)




Lemma weight_table_positive name w :
  dict_get _calculate_signal_weights name = Some w -> 0 < w.
Proof.
  unfold _calculate_signal_weights. cbn [dict_get].
  repeat (destruct (String.eqb name _);
          [intros H; injection H as <-; reflexivity |]).
  discriminate.
Qed.

Lemma weight_nonneg name : 0 <= weight name.
Proof.
  unfold weight. destruct (dict_get _calculate_signal_weights name) eqn:E.
  - apply Qlt_le_weak. eapply weight_table_positive. exact E.
  - apply Qle_refl.
Qed.

Lemma totalWeight_nonneg signals : 0 <= totalWeight signals.
Proof.
  unfold totalWeight, big_sum.
  induction signals as [| [name signal] rest IH]; cbn [fold_right fst].
  - apply Qle_refl.
  - pose proof (weight_nonneg name). lra.
Qed.

Lemma totalWeight_positive signals :
  signals <> [] ->
  (forall name signal, In (name, signal) signals ->
     exists w, dict_get _calculate_signal_weights name = Some w) ->
  0 < totalWeight signals.
Proof.
  destruct signals as [| [name signal] rest]; intros Hne Hall; [contradiction |].
  destruct (Hall name signal (or_introl eq_refl)) as (w & Hw).
  pose proof (weight_table_positive name w Hw) as Hpos.
  pose proof (totalWeight_nonneg rest) as Hrest.
  unfold totalWeight, big_sum in *. cbn [fold_right fst].
  unfold weight at 1. rewrite Hw. lra.
Qed.

(** *** The decision *)

Lemma make_decision_fields self current_time valid avg :
  let d := make_decision self current_time valid avg in
  TradingDecision.action d =
    (if below_thresholds self avg then "HOLD"%string
     else direction_action (weighted_direction avg)) /\
  TradingDecision.confidence d = weighted_confidence avg /\
  TradingDecision.strength d = weighted_strength avg /\
  TradingDecision.timestamp d = current_time /\
  TradingDecision.signals d = map snd valid.
Proof.
  unfold make_decision. destruct (below_thresholds self avg); repeat split; reflexivity.
Qed.

(** C8: [process_signals] on the empty mapping returns [None], and so it
    does on a mapping of configured names whose signals are all past their
    validity period at the time of fusion. *)
Theorem nothing_to_fuse_is_None :
  (forall clock st, process_signals clock [] st = (Return None, st))
  /\
  (forall clock st signals,
     all_expired (clock (steps (world st))) signals ->
     exists st', process_signals clock signals st = (Return None, st')).
Proof.
  split.
  - reflexivity.
  - intros clock st signals Hall.
    destruct signals as [| entry rest]; [eexists; reflexivity |].
    unfold process_signals.
    unfold bind at 1. unfold io, zoom, time_time. cbn [world steps calls self].
    unfold bind at 1. unfold lift_result.
    rewrite (valid_signals_drops_all _ (entry :: rest) [] Hall).
    eexists. reflexivity.
Qed.

Lemma nothing_to_fuse_is_None_witness :
  exists st', process_signals at_noon (two_signals 43000 0.9) fresh_state = (Return None, st').
Proof.
  apply (proj2 nothing_to_fuse_is_None at_noon fresh_state (two_signals 43000 0.9)).
  intros name signal Hin. unfold two_signals in Hin. cbn [In] in Hin.
  destruct Hin as [H | [H | []]]; inversion H; subst;
    (eexists; split; [reflexivity | vm_compute; reflexivity]).
Defined.

(** *** Determinism *)

Lemma make_decision_thresholds s1 s2 current_time valid avg :
  confidence_threshold s1 = confidence_threshold s2 ->
  strength_threshold s1 = strength_threshold s2 ->
  make_decision s1 current_time valid avg = make_decision s2 current_time valid avg.
Proof.
  intros Hc Hs. unfold make_decision, below_thresholds. now rewrite Hc, Hs.
Qed.

(** [process_signals], step by step, as a function of the state it starts in. *)
Lemma process_signals_run clock st signals :
  process_signals clock signals st =
  match signals with
  | [] => (Return None, st)
  | _ :: _ =>
      let now := clock (steps (world st)) in
      let st1 := {| self := self st;
                    world := {| steps := S (steps (world st));
                                calls := calls (world st) |} |} in
      match valid_signals now signals [] with
      | Raise e => (Raise e, st1)
      | Return [] => (Return None, st1)
      | Return (v :: vs) =>
          if Qeq_bool (total_weight (accumulate _calculate_signal_weights (v :: vs))) 0
          then (Return None, st1)
          else
            let d := make_decision (self st) now (v :: vs)
                       (normalise (accumulate _calculate_signal_weights (v :: vs))) in
            (Return (Some d),
             {| self := {| confidence_threshold := confidence_threshold (self st);
                           strength_threshold := strength_threshold (self st);
                           last_decision := Some d |};
                world := world st1 |})
      end
  end.
Proof.
  unfold process_signals. destruct signals as [| entry rest]; [reflexivity |].
  unfold bind at 1. unfold io, zoom, time_time. cbn [world steps calls self].
  unfold bind at 1. unfold lift_result. cbv zeta.
  destruct (valid_signals (clock (steps (world st))) (entry :: rest) [])
    as [[| v vs] | e]; try reflexivity.
  destruct (Qeq_bool (total_weight (accumulate _calculate_signal_weights (v :: vs))) 0);
    reflexivity.
Qed.

(** C9: the outcome of [process_signals] is a function of the signal
    mapping, the two thresholds and the one reading of the clock it takes:
    two runs that agree on these return the same value, decision for
    decision and field for field, whatever else differs between them (the
    clock at other times, the previous decision, the history of the run);
    and a run reads the clock at most once and invokes nothing. *)
Theorem fusion_is_deterministic clock1 clock2 st1 st2 signals :
  confidence_threshold (self st1) = confidence_threshold (self st2) ->
  strength_threshold (self st1) = strength_threshold (self st2) ->
  clock1 (steps (world st1)) = clock2 (steps (world st2)) ->
  fst (process_signals clock1 signals st1) = fst (process_signals clock2 signals st2)
  /\ (steps (world (snd (process_signals clock1 signals st1))) <= S (steps (world st1)))%nat
  /\ calls (world (snd (process_signals clock1 signals st1))) = calls (world st1).
Proof.
  intros Hc Hs Hclock.
  rewrite !process_signals_run. destruct signals as [| entry rest].
  - cbn. repeat split. lia.
  - cbv zeta. rewrite <- Hclock.
    destruct (valid_signals (clock1 (steps (world st1))) (entry :: rest) [])
      as [[| v vs] | e]; [cbn; repeat split; lia | | cbn; repeat split; lia].
    destruct (Qeq_bool (total_weight (accumulate _calculate_signal_weights (v :: vs))) 0);
      [cbn; repeat split; lia |].
    cbn [fst snd world self steps calls].
    rewrite (make_decision_thresholds _ _ _ _ _ Hc Hs). repeat split. lia.
Qed.

Lemma fusion_is_deterministic_witness :
  fst (process_signals at_noon (two_signals 43200 0.9) fresh_state)
  = fst (process_signals (fun k => (43200 + 60 * Z.of_nat k)%Z) (two_signals 43200 0.9)
           {| self := {| confidence_threshold := 0.7; strength_threshold := 30.0;
                         last_decision := None |};
              world := {| steps := 0; calls := ["calculate_delta"]%string |} |})
  /\ (steps (world (snd (process_signals at_noon (two_signals 43200 0.9) fresh_state)))
       <= S (steps (world fresh_state)))%nat
  /\ calls (world (snd (process_signals at_noon (two_signals 43200 0.9) fresh_state)))
      = calls (world fresh_state).
Proof.
  apply (fusion_is_deterministic at_noon (fun k => (43200 + 60 * Z.of_nat k)%Z)
           fresh_state
           {| self := {| confidence_threshold := 0.7; strength_threshold := 30.0;
                         last_decision := None |};
              world := {| steps := 0; calls := ["calculate_delta"]%string |} |}
           (two_signals 43200 0.9)); reflexivity.
Defined.

End SignalProcessorFacts.

Module Binary64Facts.
Import Py Indicators Binary64 Binary64.SignalProcessor.
Import PrimFloat FloatOps SpecFloat.
Local Open Scope float_scope.
#[local] Set Warnings "-inexact-float".

(** *** Comparisons of doubles *)

(** Nothing is both below -0.3 and above 0.3. *)
Lemma below_is_not_above x : (x <? - 0.3) = true -> (0.3 <? x) = false.
Proof.
  rewrite !FloatAxioms.ltb_spec.
  replace (Prim2SF (- 0.3)) with (SFopp (Prim2SF 0.3)) by (vm_compute; reflexivity).
  destruct (Prim2SF 0.3) as [s3 | s3 | | s3 m3 e3] eqn:E3; try (vm_compute in E3; discriminate).
  assert (Hs : s3 = false) by (vm_compute in E3; congruence). subst s3.
  destruct (Prim2SF x) as [s | s | | s m e]; cbn.
  - discriminate.
  - destruct s; [reflexivity | discriminate].
  - discriminate.
  - destruct s; [reflexivity | discriminate].
Qed.

(** *** Dictionaries *)

Lemma dict_get_key {V : Type} (d : list (string * V)) k v :
  dict_get d k = Some v -> In k (map fst d).
Proof.
  induction d as [| [k' v'] d IH]; cbn [dict_get map fst]; [discriminate |].
  destruct (String.eqb_spec k k') as [-> | _]; [now left | right; now apply IH].
Qed.

Lemma dict_set_keys {V : Type} (d : list (string * V)) k v :
  map fst (dict_set d k v)
  = if dict_in k d then map fst d else (map fst d ++ [k])%list.
Proof.
  unfold dict_in. induction d as [| [k' v'] d IH]; cbn [dict_set dict_get map fst];
    [reflexivity |].
  destruct (String.eqb_spec k k') as [-> | Hne]; [reflexivity |].
  cbn [map fst]. rewrite IH. destruct (dict_get d k); reflexivity.
Qed.

Lemma configured_has_weight name cfg :
  dict_get Config.INDICATORS name = Some cfg ->
  exists w, dict_get _calculate_signal_weights name = Some w.
Proof.
  unfold Config.INDICATORS, _calculate_signal_weights. cbn [dict_get].
  repeat (destruct (String.eqb name _); [intros _; eexists; reflexivity |]).
  discriminate.
Qed.

(** *** The first loop *)

Lemma first_loop_keeps_all current_time signals : forall valid,
  NoDup (map fst (valid ++ signals)) ->
  (forall name signal, In (name, signal) signals ->
     exists cfg, dict_get Config.INDICATORS name = Some cfg /\
                 (current_time <= SignalData.timestamp signal + Config.validity_period cfg)%Z) ->
  valid_signals current_time signals valid = Return (valid ++ signals)%list.
Proof.
  induction signals as [| [name signal] rest IH]; intros valid Hnd Hall.
  - simpl. now rewrite app_nil_r.
  - destruct (Hall name signal (or_introl eq_refl)) as (cfg & Hcfg & Hle).
    cbn [valid_signals]. rewrite Hcfg.
    replace (current_time <=? _)%Z with true by (symmetry; apply Z.leb_le; exact Hle).
    rewrite SignalProcessorFacts.dict_set_fresh.
    + rewrite IH.
      * now rewrite <- app_assoc.
      * rewrite <- app_assoc. exact Hnd.
      * intros n s Hin. apply Hall. now right.
    + rewrite map_app in Hnd. cbn [map fst] in Hnd.
      apply NoDup_app in Hnd. destruct Hnd as (_ & Hdisj & _).
      intros Hin. apply list_elem_of_In in Hin.
      apply (Hdisj name Hin). now left.
Qed.

(** What the first loop keeps has distinct keys, each of them configured. *)
Lemma valid_signals_keys current_time signals : forall acc valid,
  valid_signals current_time signals acc = Return valid ->
  NoDup (map fst acc) ->
  (forall name, In name (map fst acc) ->
     exists cfg, dict_get Config.INDICATORS name = Some cfg) ->
  NoDup (map fst valid) /\
  forall name, In name (map fst valid) ->
    exists cfg, dict_get Config.INDICATORS name = Some cfg.
Proof.
  induction signals as [| [name signal] rest IH]; intros acc valid Hrun Hnd Hcfg.
  - injection Hrun as <-. split; assumption.
  - cbn [valid_signals] in Hrun.
    destruct (dict_get Config.INDICATORS name) as [cfg |] eqn:Hname; [| discriminate].
    destruct (current_time <=? SignalData.timestamp signal + Config.validity_period cfg)%Z.
    + apply (IH _ _ Hrun).
      * rewrite dict_set_keys. unfold dict_in.
        destruct (dict_get acc name) as [v |] eqn:Hget; [exact Hnd |].
        apply NoDup_app. split; [exact Hnd |]. split; [| apply NoDup_singleton].
        intros k Hk Hk'. apply list_elem_of_singleton in Hk'. subst k.
        apply list_elem_of_In, in_map_iff in Hk. destruct Hk as ([k v] & Hfst & Hin).
        cbn [fst] in Hfst. subst k.
        assert (Hsome : exists v', dict_get acc name = Some v').
        { clear - Hin. induction acc as [| [k' v'] acc IHacc]; [destruct Hin |].
          cbn [dict_get]. destruct (String.eqb_spec name k') as [_ | Hne];
            [eexists; reflexivity |].
          destruct Hin as [Heq | Hin]; [congruence | exact (IHacc Hin)]. }
        destruct Hsome as (v' & Hv'). congruence.
      * intros k Hk. rewrite dict_set_keys in Hk.
        destruct (dict_in name acc); [exact (Hcfg k Hk) |].
        apply in_app_or in Hk. destruct Hk as [Hk | [<- | []]];
          [exact (Hcfg k Hk) | eexists; exact Hname].
    + exact (IH _ _ Hrun Hnd Hcfg).
Qed.

(** *** The second loop against the sums of the specification *)

Lemma accumulate_from_sums valid : forall acc,
  (forall name signal, In (name, signal) valid ->
     exists w, dict_get _calculate_signal_weights name = Some w) ->
  directions_fit valid ->
  accumulate_from _calculate_signal_weights valid acc
  = Return
      {| weighted_direction :=
           fold_left (fun a entry =>
                        a + nearest (SignalData.direction (snd entry)) * weight (fst entry))
                     valid (weighted_direction acc);
         weighted_strength :=
           fold_left (fun a entry =>
                        a + abs (SignalData.strength (snd entry)) * weight (fst entry))
                     valid (weighted_strength acc);
         weighted_confidence :=
           fold_left (fun a entry =>
                        a + SignalData.confidence (snd entry) * weight (fst entry))
                     valid (weighted_confidence acc);
         total_weight :=
           fold_left (fun a entry => a + weight (fst entry)) valid (total_weight acc) |}.
Proof.
  induction valid as [| [name signal] rest IH]; intros acc Hw Hfit.
  - destruct acc; reflexivity.
  - cbn [accumulate_from add_signal fold_left fst snd].
    destruct (Hw name signal (or_introl eq_refl)) as (w & Hname).
    assert (Hwt : weight name = w) by (unfold weight; now rewrite Hname).
    rewrite Hname. unfold float_of_int.
    rewrite (Hfit name signal (or_introl eq_refl)).
    rewrite IH.
    + cbn [weighted_direction weighted_strength weighted_confidence total_weight].
      rewrite Hwt. reflexivity.
    + intros n s Hin. apply (Hw n s). now right.
    + intros n s Hin. apply (Hfit n s). now right.
Qed.

Lemma accumulate_sums valid :
  (forall name signal, In (name, signal) valid ->
     exists w, dict_get _calculate_signal_weights name = Some w) ->
  directions_fit valid ->
  exists acc,
    accumulate _calculate_signal_weights valid = Return acc /\
    total_weight acc = totalWeight valid /\
    weighted_direction (normalise acc) = weightedDirection valid /\
    weighted_strength (normalise acc) = weightedStrength valid /\
    weighted_confidence (normalise acc) = weightedConfidence valid.
Proof.
  intros Hw Hfit. unfold accumulate. rewrite (accumulate_from_sums valid _ Hw Hfit).
  eexists. split; [reflexivity |]. repeat split.
Qed.

(** *** The total weight is never zero *)

Lemma arrangements_complete n : forall names l,
  (length l <= n)%nat -> NoDup l -> (forall name, In name l -> In name names) ->
  In l (arrangements n names).
Proof.
  induction n as [| n IH]; intros names l Hlen Hnd Hin.
  - destruct l; [now left | cbn in Hlen; lia].
  - destruct l as [| name rest]; [now left |].
    cbn [arrangements]. right. apply in_flat_map. exists name.
    split; [apply Hin; now left |].
    apply in_map. apply NoDup_cons in Hnd. destruct Hnd as [Hfresh Hnd].
    apply IH; [cbn in Hlen; lia | exact Hnd |].
    intros other Hother. apply List.filter_In. split; [apply Hin; now right |].
    destruct (String.eqb_spec other name) as [-> | _]; [| reflexivity].
    exfalso. apply Hfresh. now apply list_elem_of_In.
Qed.

Lemma totalWeight_names signals :
  totalWeight signals = fold_left (fun a name => a + weight name) (map fst signals) 0.
Proof.
  unfold totalWeight, sigma. generalize 0.
  induction signals as [| entry rest IH]; intros a; [reflexivity |].
  cbn [fold_left map]. apply IH.
Qed.

Lemma totalWeight_nonzero signals :
  signals <> [] ->
  NoDup (map fst signals) ->
  (forall name, In name (map fst signals) ->
     exists w, dict_get _calculate_signal_weights name = Some w) ->
  (totalWeight signals =? 0) = false.
Proof.
  intros Hne Hnd Hw. rewrite totalWeight_names.
  assert (Hin : In (map fst signals)
                   (arrangements 6 (map fst _calculate_signal_weights))).
  { apply arrangements_complete; [| exact Hnd |].
    - change 6%nat with (length (map fst _calculate_signal_weights)).
      apply submseteq_length, NoDup_submseteq; [exact Hnd |].
      intros name Hname. apply list_elem_of_In. apply list_elem_of_In in Hname.
      destruct (Hw name Hname) as (w & Hget). exact (dict_get_key _ _ _ Hget).
    - intros name Hname. destruct (Hw name Hname) as (w & Hget).
      exact (dict_get_key _ _ _ Hget). }
  assert (Hall : List.forallb
                   (fun names =>
                      match names with
                      | [] => true
                      | _ :: _ =>
                          negb (fold_left (fun a name => a + weight name) names 0 =? 0)
                      end)
                   (arrangements 6 (map fst _calculate_signal_weights)) = true)
    by (vm_compute; reflexivity).
  rewrite List.forallb_forall in Hall. specialize (Hall _ Hin).
  destruct (map fst signals) as [| name rest] eqn:E.
  - destruct signals; [contradiction | discriminate].
  - apply negb_true_iff in Hall. exact Hall.
Qed.

(** *** The decision *)

Lemma decision_fields self current_time valid avg :
  let d := make_decision self current_time valid avg in
  TradingDecision.action d =
    (if below_thresholds self avg then "HOLD"%string
     else direction_action (weighted_direction avg)) /\
  TradingDecision.confidence d = weighted_confidence avg /\
  TradingDecision.strength d = weighted_strength avg /\
  TradingDecision.timestamp d = current_time /\
  TradingDecision.signals d = map snd valid.
Proof.
  unfold make_decision. destruct (below_thresholds self avg); repeat split; reflexivity.
Qed.

(** What [process_signals] does once the first loop has kept [valid]. *)
Lemma fusion_decides clock st signals valid :
  signals <> [] ->
  valid_signals (clock (steps (world st))) signals [] = Return valid ->
  valid <> [] ->
  directions_fit valid ->
  exists d st',
    process_signals clock signals st = (Return (Some d), st') /\
    TradingDecision.action d =
      (if (weightedConfidence valid <? confidence_threshold (self st))
          || (weightedStrength valid <? strength_threshold (self st))
       then "HOLD"%string
       else direction_action (weightedDirection valid)) /\
    TradingDecision.confidence d = weightedConfidence valid /\
    TradingDecision.strength d = weightedStrength valid /\
    TradingDecision.signals d = map snd valid.
Proof.
  intros Hne Hvalid Hvne Hfit.
  destruct (valid_signals_keys _ _ _ _ Hvalid (NoDup_nil_2) ltac:(intros ? []))
    as [Hnd Hcfg].
  assert (Hw : forall name, In name (map fst valid) ->
                 exists w, dict_get _calculate_signal_weights name = Some w).
  { intros name Hname. destruct (Hcfg name Hname) as (cfg & Hget).
    exact (configured_has_weight name cfg Hget). }
  destruct (accumulate_sums valid) as (acc & Hacc & Htw & Hd & Hs & Hc);
    [intros n s Hin; apply Hw, in_map_iff; exists (n, s); split; [reflexivity | exact Hin]
    | exact Hfit |].
  pose proof (totalWeight_nonzero valid Hvne Hnd Hw) as Hnz.
  unfold process_signals. destruct signals as [| entry rest]; [contradiction |].
  unfold bind at 1. unfold io, zoom, time_time. cbn [world steps calls self].
  unfold bind at 1. unfold lift_result at 1. rewrite Hvalid.
  destruct valid as [| v vs]; [contradiction |].
  unfold bind at 1. unfold lift_result at 1. rewrite Hacc, Htw, Hnz.
  destruct (decision_fields (self st) (clock (steps (world st))) (v :: vs)
              (normalise acc)) as (Ha & Hconf & Hstr & _ & Hsig).
  cbv zeta in *. unfold below_thresholds in Ha. rewrite Hd, Hs, Hc in *.
  eexists. eexists. split; [reflexivity |].
  cbn [self]. repeat split; assumption.
Qed.

(** C3: on a non-empty mapping of valid signals whose names all carry a
    weight, [process_signals] returns a decision whose confidence and
    strength are the weighted averages of the specification, the sums
    taken in binary64 in the order of the mapping; the direction is
    classified BUY above 0.3, SELL below -0.3 and HOLD otherwise, and that
    classification is the action of the decision unless the threshold
    check overrides it.  Two signals of equal weight with direction 1,
    strength 80 and confidence 0.9 give BUY with confidence 0.9 and
    strength 80. *)
Theorem fusion_is_weighted_average_in_binary64 :
  (forall clock st signals,
     signals <> [] ->
     all_valid_and_weighted (clock (steps (world st))) signals ->
     directions_fit signals ->
     exists d st',
       process_signals clock signals st = (Return (Some d), st') /\
       TradingDecision.confidence d = weightedConfidence signals /\
       TradingDecision.strength d = weightedStrength signals /\
       TradingDecision.signals d = map snd signals /\
       TradingDecision.action d =
         (if (weightedConfidence signals <? confidence_threshold (self st))
             || (weightedStrength signals <? strength_threshold (self st))
          then "HOLD"%string
          else direction_action (weightedDirection signals)) /\
       ((0.3 <? weightedDirection signals) = true ->
        direction_action (weightedDirection signals) = "BUY"%string) /\
       ((weightedDirection signals <? - 0.3) = true ->
        direction_action (weightedDirection signals) = "SELL"%string) /\
       ((0.3 <? weightedDirection signals) = false ->
        (weightedDirection signals <? - 0.3) = false ->
        direction_action (weightedDirection signals) = "HOLD"%string))
  /\
  (exists d st',
     process_signals at_noon (two_signals 43200 0.9) fresh_state = (Return (Some d), st') /\
     TradingDecision.action d = "BUY"%string /\
     TradingDecision.confidence d = 0.9 /\
     TradingDecision.strength d = 80).
Proof.
  split.
  - intros clock st signals Hne (Hnd & Hall) Hfit.
    assert (Hvalid : valid_signals (clock (steps (world st))) signals [] = Return signals).
    { apply (first_loop_keeps_all _ signals []); [exact Hnd |].
      intros n s Hin. exact (proj1 (Hall n s Hin)). }
    destruct (fusion_decides clock st signals signals Hne Hvalid Hne Hfit)
      as (d & st' & Hrun & Ha & Hc & Hs & Hsig).
    exists d, st'. split; [exact Hrun |].
    split; [exact Hc |]. split; [exact Hs |]. split; [exact Hsig |].
    split; [exact Ha |].
    unfold direction_action. repeat split.
    + intros H. now rewrite H.
    + intros H. now rewrite (below_is_not_above _ H), H.
    + intros H1 H2. now rewrite H1, H2.
  - eexists. eexists. split; [vm_compute; reflexivity |].
    repeat split; vm_compute; reflexivity.
Qed.

Lemma fusion_is_weighted_average_in_binary64_witness :
  exists d st',
    process_signals at_noon (two_signals 43200 0.9) fresh_state = (Return (Some d), st') /\
    TradingDecision.confidence d = weightedConfidence (two_signals 43200 0.9) /\
    TradingDecision.strength d = weightedStrength (two_signals 43200 0.9) /\
    TradingDecision.signals d = map snd (two_signals 43200 0.9) /\
    TradingDecision.action d =
      (if (weightedConfidence (two_signals 43200 0.9)
             <? confidence_threshold (self fresh_state))
          || (weightedStrength (two_signals 43200 0.9)
                <? strength_threshold (self fresh_state))
       then "HOLD"%string
       else direction_action (weightedDirection (two_signals 43200 0.9))) /\
    ((0.3 <? weightedDirection (two_signals 43200 0.9)) = true ->
     direction_action (weightedDirection (two_signals 43200 0.9)) = "BUY"%string) /\
    ((weightedDirection (two_signals 43200 0.9) <? - 0.3) = true ->
     direction_action (weightedDirection (two_signals 43200 0.9)) = "SELL"%string) /\
    ((0.3 <? weightedDirection (two_signals 43200 0.9)) = false ->
     (weightedDirection (two_signals 43200 0.9) <? - 0.3) = false ->
     direction_action (weightedDirection (two_signals 43200 0.9)) = "HOLD"%string).
Proof.
  apply (proj1 fusion_is_weighted_average_in_binary64 at_noon fresh_state
           (two_signals 43200 0.9)).
  - discriminate.
  - split.
    + unfold two_signals. cbn [map fst].
      apply NoDup_cons. split; [| apply NoDup_singleton].
      apply not_elem_of_cons. split; [discriminate | apply not_elem_of_nil].
    + intros name signal Hin. unfold two_signals in Hin. cbn [In] in Hin.
      destruct Hin as [H | [H | []]]; inversion H; subst;
        (split; [eexists; split; [reflexivity | vm_compute; discriminate]
                | eexists; reflexivity]).
  - intros name signal Hin. unfold two_signals in Hin. cbn [In] in Hin.
    destruct Hin as [H | [H | []]]; inversion H; subst; vm_compute; reflexivity.
Defined.

(** C4: when the weighted confidence of the signals kept by the validity
    check, as binary64 computes it, is below the confidence threshold, or
    their weighted strength is below the strength threshold (0.7 and 30.0
    by default), the decision that is returned has action HOLD, whatever
    the direction says; two strongly positive signals with confidence 0.5
    give HOLD. *)
Theorem thresholds_force_hold_in_binary64 :
  (forall clock st signals valid,
     signals <> [] ->
     valid_signals (clock (steps (world st))) signals [] = Return valid ->
     valid <> [] ->
     directions_fit valid ->
     (weightedConfidence valid <? confidence_threshold (self st)) = true
     \/ (weightedStrength valid <? strength_threshold (self st)) = true ->
     exists d st',
       process_signals clock signals st = (Return (Some d), st') /\
       TradingDecision.confidence d = weightedConfidence valid /\
       TradingDecision.strength d = weightedStrength valid /\
       TradingDecision.action d = "HOLD"%string)
  /\
  (confidence_threshold default = 0.7 /\ strength_threshold default = 30.0)
  /\
  (exists d st',
     process_signals at_noon (two_signals 43200 0.5) fresh_state = (Return (Some d), st') /\
     (0.3 <? weightedDirection (two_signals 43200 0.5)) = true /\
     TradingDecision.confidence d = 0.5 /\
     TradingDecision.action d = "HOLD"%string).
Proof.
  split; [| split].
  - intros clock st signals valid Hne Hvalid Hvne Hfit Hbelow.
    destruct (fusion_decides clock st signals valid Hne Hvalid Hvne Hfit)
      as (d & st' & Hrun & Ha & Hc & Hs & _).
    exists d, st'. split; [exact Hrun |]. split; [exact Hc |]. split; [exact Hs |].
    rewrite Ha. destruct Hbelow as [H | H]; rewrite H; [reflexivity |].
    now rewrite orb_true_r.
  - split; reflexivity.
  - eexists. eexists. split; [vm_compute; reflexivity |].
    repeat split; vm_compute; reflexivity.
Qed.

Lemma thresholds_force_hold_in_binary64_witness :
  exists d st',
    process_signals at_noon (two_signals 43200 0.5) fresh_state = (Return (Some d), st') /\
    TradingDecision.confidence d = weightedConfidence (two_signals 43200 0.5) /\
    TradingDecision.strength d = weightedStrength (two_signals 43200 0.5) /\
    TradingDecision.action d = "HOLD"%string.
Proof.
  apply (proj1 thresholds_force_hold_in_binary64 at_noon fresh_state
           (two_signals 43200 0.5) (two_signals 43200 0.5)).
  - discriminate.
  - vm_compute. reflexivity.
  - discriminate.
  - intros name signal Hin. unfold two_signals in Hin. cbn [In] in Hin.
    destruct Hin as [H | [H | []]]; inversion H; subst; vm_compute; reflexivity.
  - left. vm_compute. reflexivity.
Defined.

(** *** Where the rounding decides *)

(** ORDER_FLOW and ON_CHAIN point up and the other four signals are
    neutral: the weighted direction is 0.30000000000000004, and the action
    is BUY. *)
Example rounded_direction_is_above :
  outcome (process_signals at_noon (six_signals 80 0.9 [1; 0; 0; 0; 1; 0]%Z) fresh_state)
  = Some ("BUY"%string, 0.9000000000000001, 80)
  /\ weightedDirection (six_signals 80 0.9 [1; 0; 0; 0; 1; 0]%Z) = 0.30000000000000004.
Proof. split; vm_compute; reflexivity. Qed.

(** ORDER_FLOW and SCALP with confidence 0.7: the weighted confidence is
    0.6999999999999998, below the threshold, and the action is HOLD. *)
Example rounded_confidence_is_below :
  outcome (process_signals at_noon
             [ ("ORDER_FLOW", signal_at "ORDER_FLOW" 43200 80 1 0.7);
               ("SCALP", signal_at "SCALP" 43200 80 1 0.7) ]%string fresh_state)
  = Some ("HOLD"%string, 0.6999999999999998, 80).
Proof. vm_compute. reflexivity. Qed.

(** A strength just below 30 comes out of the sum and the division as
    30.0, and is not vetoed. *)
Example rounded_strength_is_at_the_threshold :
  outcome (process_signals at_noon
             [ ("ORDER_FLOW", signal_at "ORDER_FLOW" 43200 29.999999999999996 1 0.9) ]%string
             fresh_state)
  = Some ("BUY"%string, 0.9, 30).
Proof. vm_compute. reflexivity. Qed.

(** Three strengths of 100 average to more than 100. *)
Example rounded_strength_is_above_100 :
  outcome (process_signals at_noon
             [ ("ORDER_FLOW", signal_at "ORDER_FLOW" 43200 100 1 0.9);
               ("BLOCKCHAIN_OI", signal_at "BLOCKCHAIN_OI" 43200 100 1 0.9);
               ("ON_CHAIN", signal_at "ON_CHAIN" 43200 100 1 0.9) ]%string fresh_state)
  = Some ("BUY"%string, 0.9000000000000002, 100.00000000000001).
Proof. vm_compute. reflexivity. Qed.

(** A strength that is not a number is below no threshold. *)
Example nan_strength_is_not_vetoed :
  option_map (fun o => (fst (fst o), is_nan (snd o)))
    (outcome (process_signals at_noon
                [ ("ORDER_FLOW", signal_at "ORDER_FLOW" 43200 nan 1 0.9) ]%string
                fresh_state))
  = Some ("BUY"%string, true).
Proof. vm_compute. reflexivity. Qed.

(** A direction beyond the doubles ends the fusion. *)
Example huge_direction_raises :
  fst (process_signals at_noon
         [ ("ORDER_FLOW", signal_at "ORDER_FLOW" 43200 80 (2 ^ 1024) 0.9) ]%string
         fresh_state)
  = Raise OverflowError.
Proof. vm_compute. reflexivity. Qed.

(** The reason of a veto shows the two values as [:.2f] does. *)
Example veto_reason :
  option_map TradingDecision.reason
    (match fst (process_signals at_noon (two_signals 43200 0.665) fresh_state) with
     | Return d => d
     | Raise _ => None
     end)
  = Some "لم تتجاوز الإشارة العتبات المطلوبة (الثقة: 0.67, القوة: 80.00)"%string.
Proof. vm_compute. reflexivity. Qed.

End Binary64Facts.

Module SolanaClientLaws.
Import Py SolanaClient SolanaClientFacts.
Local Open Scope Z_scope.

(** *** One pass of the loop, from the state after [k] requests *)

Lemma attempt_follows_cycle (self : t) k :
  (if (S k mod length (endpoints self) =? 0)%nat
   then Z.of_nat (k / length (endpoints self)) + 1
   else Z.of_nat (k / length (endpoints self)))
  = Z.of_nat (S k / length (endpoints self)).
Proof.
  rewrite (div_succ k _ (pool_nonempty self)).
  destruct (S k mod length (endpoints self) =? 0)%nat; lia.
Qed.

Lemma next_endpoint_after self k tr tr' :
  next_endpoint self (after self k tr) tr' = after self (S k) tr'.
Proof.
  unfold next_endpoint, after.
  cbn [retry_count current_endpoint_index requests trace].
  rewrite attempt_follows_cycle. reflexivity.
Qed.

(** Unless the answer is a rate limit in the payload, a pass ends the call
    or leaves the counters in step with the number of requests. *)
Lemma iteration_in_step self net method k tr :
  rate_limit_payload (net k (current_endpoint self k)) = false ->
  (exists tr', iteration self net method (after self k tr) = Continue (after self (S k) tr'))
  \/ (exists r st', iteration self net method (after self k tr) = Stop r st'
                    /\ requests st' = S k).
Proof.
  intros Hpayload. unfold iteration.
  cbn [after retry_count current_endpoint_index requests trace].
  destruct (net k (current_endpoint self k)) as [msg | status ra b].
  - unfold on_request_exception. fold (after self k tr).
    rewrite next_endpoint_after.
    destruct (max_retries <? retry_count (after self (S k) _));
      [right | left]; repeat eexists; reflexivity.
  - destruct (status =? 429) eqn:E429.
    + unfold on_429. fold (after self k tr). rewrite next_endpoint_after.
      destruct ra as [| n | s]; cbv zeta.
      * change ((2 <? - sleep_max) || (sleep_max <? 2)) with false.
        change (2 <? 0) with false. cbv iota. left. eexists. reflexivity.
      * destruct ((n <? - sleep_max) || (sleep_max <? n));
          [right | destruct (n <? 0); [right | left]]; repeat eexists; reflexivity.
      * right. repeat eexists; reflexivity.
    + destruct ((400 <=? status) && (status <? 600)) eqn:Eerr.
      * unfold on_request_exception. fold (after self k tr).
        rewrite next_endpoint_after.
        destruct (max_retries <? retry_count (after self (S k) _));
          [right | left]; repeat eexists; reflexivity.
      * destruct b as [v | err |].
        -- right. repeat eexists; reflexivity.
        -- cbn [rate_limit_payload] in Hpayload. rewrite E429, Eerr in Hpayload.
           cbn [negb andb] in Hpayload. rewrite Hpayload.
           right. repeat eexists; reflexivity.
        -- right. repeat eexists; reflexivity.
Qed.

Lemma loop_in_step self net method :
  (forall k, rate_limit_payload (net k (current_endpoint self k)) = false) ->
  forall m k tr,
    (k + m = 4 * length (endpoints self))%nat ->
    exists r st,
      loop self net method m (after self k tr) = Finished r st /\
      (requests st <= 4 * length (endpoints self))%nat.
Proof.
  intros Hnet. pose proof (pool_nonempty self) as Hn.
  induction m as [| m IH]; intros k tr Hk.
  - assert (Hq : (k / length (endpoints self) = 4)%nat).
    { replace k with (4 * length (endpoints self))%nat by lia. apply Nat.div_mul. lia. }
    cbn [loop]. unfold after at 1. cbn [retry_count]. rewrite Hq.
    change (max_retries <? Z.of_nat 4) with true. cbv iota.
    eexists. eexists. split; [reflexivity |]. cbn [after requests]. lia.
  - assert (Hq : (k / length (endpoints self) < 4)%nat).
    { apply Nat.Div0.div_lt_upper_bound. lia. }
    cbn [loop]. unfold after at 1. cbn [retry_count].
    replace (max_retries <? Z.of_nat (k / length (endpoints self))) with false.
    2:{ symmetry. apply Z.ltb_ge. unfold max_retries. lia. }
    fold (after self k tr).
    destruct (iteration_in_step self net method k tr (Hnet k))
      as [(tr' & ->) | (r & st' & -> & Hreq)].
    + apply IH. lia.
    + exists r, st'. split; [reflexivity | lia].
Qed.

(** X1: unless some endpoint reports a rate limit in the payload of an
    answer, a call ends after at most four cycles over the pool: it sends at
    most 4 n requests, whatever the endpoints answer. *)
Theorem call_ends_within_four_cycles self net method :
  (forall k, rate_limit_payload (net k (current_endpoint self k)) = false) ->
  exists r st,
    _make_request self net method (4 * length (endpoints self)) = Finished r st /\
    (requests st <= 4 * length (endpoints self))%nat.
Proof.
  intros Hnet. unfold _make_request. change initial with (after self 0 []).
  apply loop_in_step; [exact Hnet | lia].
Qed.

Lemma call_ends_within_four_cycles_witness :
  exists r st,
    _make_request pool3 net_500_500_200 "getSlot" (4 * length (endpoints pool3))
      = Finished r st /\
    (requests st <= 4 * length (endpoints pool3))%nat.
Proof.
  apply (call_ends_within_four_cycles pool3 net_500_500_200 "getSlot").
  intros k. unfold net_500_500_200.
  destruct (String.eqb _ _); reflexivity.
Defined.

(** *** The order of the requests *)

Lemma iteration_posts self net method st :
  (exists st', iteration self net method st = Continue st'
               /\ current_endpoint_index st' = S (current_endpoint_index st)
               /\ requests st' = S (requests st)
               /\ posts (trace st')
                  = (posts (trace st)
                     ++ [current_endpoint self (current_endpoint_index st)])%list)
  \/ (exists r st', iteration self net method st = Stop r st'
                    /\ requests st' = S (requests st)
                    /\ posts (trace st')
                       = (posts (trace st)
                          ++ [current_endpoint self (current_endpoint_index st)])%list).
Proof.
  assert (Hp : forall tr u,
    posts ((if 0 <? retry_count st
            then tr ++ [Sleep (base_delay * 2 ^ (retry_count st - 1))]
            else tr) ++ [Post u method]) = (posts tr ++ [u])%list).
  { intros tr u. unfold posts.
    destruct (0 <? retry_count st); rewrite !flat_map_app; cbn [flat_map app];
      rewrite ?app_nil_r; reflexivity. }
  unfold iteration.
  destruct (net (requests st) (current_endpoint self (current_endpoint_index st)))
    as [msg | status ra b].
  - unfold on_request_exception.
    destruct (max_retries <? retry_count (next_endpoint self st _));
      [right | left]; repeat eexists; cbn [next_endpoint trace]; apply Hp.
  - destruct (status =? 429).
    + unfold on_429. destruct ra as [| n | s]; cbv zeta.
      * change ((2 <? - sleep_max) || (sleep_max <? 2)) with false.
        change (2 <? 0) with false. cbv iota. left. repeat eexists.
        cbn [trace]. unfold posts at 1. rewrite flat_map_app. cbn [flat_map].
        rewrite app_nil_r. apply Hp.
      * destruct ((n <? - sleep_max) || (sleep_max <? n));
          [right | destruct (n <? 0); [right | left]];
          repeat eexists; cbn [next_endpoint trace].
        -- apply Hp.
        -- apply Hp.
        -- unfold posts at 1. rewrite flat_map_app. cbn [flat_map].
           rewrite app_nil_r. apply Hp.
      * right. repeat eexists. cbn [next_endpoint trace]. apply Hp.
    + destruct ((400 <=? status) && (status <? 600)).
      * unfold on_request_exception.
        destruct (max_retries <? retry_count (next_endpoint self st _));
          [right | left]; repeat eexists; cbn [next_endpoint trace]; apply Hp.
      * destruct b as [v | err |].
        -- right. repeat eexists. cbn [sent trace]. apply Hp.
        -- destruct (is_rate_limit err); [left | right]; repeat eexists;
             cbn [skip_endpoint sent trace]; apply Hp.
        -- right. repeat eexists. cbn [sent trace]. apply Hp.
Qed.

Lemma loop_posts self net method fuel : forall st r st',
  current_endpoint_index st = requests st ->
  posts (trace st) = map (current_endpoint self) (seq 0 (requests st)) ->
  loop self net method fuel st = Finished r st' ->
  posts (trace st') = map (current_endpoint self) (seq 0 (requests st')).
Proof.
  induction fuel as [| fuel IH]; intros st r st' Hidx Hposts Hrun; cbn [loop] in Hrun;
    destruct (max_retries <? retry_count st);
    try (injection Hrun as <- <-; exact Hposts); try discriminate.
  destruct (iteration_posts self net method st)
    as [(st1 & Hit & Hidx1 & Hreq1 & Hp1) | (r1 & st1 & Hit & Hreq1 & Hp1)];
    rewrite Hit in Hrun.
  - apply (IH st1 r st'); [congruence | | exact Hrun].
    rewrite Hp1, Hreq1, seq_S, map_app, Hposts, Hidx. reflexivity.
  - injection Hrun as <- <-.
    rewrite Hp1, Hreq1, seq_S, map_app, Hposts, Hidx. reflexivity.
Qed.

(** X2: a call goes through the pool in strict rotation: its k-th request
    (counted from 0) is sent to endpoint number k mod n, whatever the earlier
    endpoints answered, and every call starts again at the primary URL. *)
Theorem endpoints_are_tried_in_rotation self net method fuel r st :
  _make_request self net method fuel = Finished r st ->
  posts (trace st) = map (current_endpoint self) (seq 0 (requests st)).
Proof.
  intros Hrun. apply (loop_posts self net method fuel initial r st); [reflexivity .. | exact Hrun].
Qed.

Lemma endpoints_are_tried_in_rotation_witness :
  exists st,
    _make_request (__init__ None) net_429 "getSlot" 16 = Finished (Return PyNone) st
    /\ posts (trace st) = map (current_endpoint (__init__ None)) (seq 0 (requests st)).
Proof.
  eexists.
  refine ((fun H => conj H
             (endpoints_are_tried_in_rotation (__init__ None) net_429 "getSlot" 16 _ _ H)) _).
  vm_compute. reflexivity.
Defined.

(** *** When every request fails *)

Lemma failing_iteration_goes_on self net method k tr :
  first_fail self net (S k) ->
  (S k / length (endpoints self) <= 3)%nat ->
  exists tr', iteration self net method (after self k tr) = Continue (after self (S k) tr').
Proof.
  intros Hff Hq. specialize (Hff k ltac:(lia)).
  assert (Hrc : (max_retries <? Z.of_nat (S k / length (endpoints self))) = false)
    by (apply Z.ltb_ge; unfold max_retries; lia).
  unfold iteration. cbn [after retry_count current_endpoint_index requests trace].
  destruct (net k (current_endpoint self k)) as [msg | status ra b].
  - unfold on_request_exception. fold (after self k tr). rewrite next_endpoint_after.
    cbn [after retry_count]. rewrite Hrc. eexists. reflexivity.
  - destruct Hff as [[-> Hra] | Hrange].
    + change (429 =? 429) with true. cbv iota.
      unfold on_429. fold (after self k tr). rewrite next_endpoint_after.
      destruct ra as [| n | s]; [| | contradiction]; cbv zeta.
      * change ((2 <? - sleep_max) || (sleep_max <? 2)) with false.
        change (2 <? 0) with false. cbv iota. eexists. reflexivity.
      * replace ((n <? - sleep_max) || (sleep_max <? n)) with false.
        2:{ symmetry. apply orb_false_iff. unfold sleep_max in *.
            split; apply Z.ltb_ge; lia. }
        replace (n <? 0) with false by (symmetry; apply Z.ltb_ge; lia).
        eexists. reflexivity.
    + replace (status =? 429) with false by (symmetry; apply Z.eqb_neq; lia).
      replace ((400 <=? status) && (status <? 600)) with true.
      2:{ symmetry. apply andb_true_iff. split; [apply Z.leb_le | apply Z.ltb_lt]; lia. }
      unfold on_request_exception. fold (after self k tr). rewrite next_endpoint_after.
      cbn [after retry_count]. rewrite Hrc. eexists. reflexivity.
Qed.

Lemma failing_iteration_ends self net method k tr :
  first_fail self net (S k) ->
  (k / length (endpoints self) <= 3)%nat ->
  (S k / length (endpoints self) = 4)%nat ->
  exists tr',
    loop self net method 1 (after self k tr)
    = Finished (exhausted (current_endpoint self k) (net k (current_endpoint self k)))
               (after self (S k) tr').
Proof.
  intros Hff Hk Hq. specialize (Hff k ltac:(lia)).
  cbn [loop]. unfold after at 1. cbn [retry_count].
  replace (max_retries <? Z.of_nat (k / length (endpoints self))) with false
    by (symmetry; apply Z.ltb_ge; unfold max_retries; lia).
  fold (after self k tr).
  unfold iteration. cbn [after retry_count current_endpoint_index requests trace].
  destruct (net k (current_endpoint self k)) as [msg | status ra b].
  - unfold on_request_exception. fold (after self k tr). rewrite next_endpoint_after.
    cbn [after retry_count]. rewrite Hq. change (max_retries <? Z.of_nat 4) with true.
    cbv iota. eexists. reflexivity.
  - destruct Hff as [[-> Hra] | Hrange].
    + change (429 =? 429) with true. cbv iota.
      unfold on_429. fold (after self k tr). rewrite next_endpoint_after.
      destruct ra as [| n | s]; [| | contradiction]; cbv zeta.
      * change ((2 <? - sleep_max) || (sleep_max <? 2)) with false.
        change (2 <? 0) with false. cbv iota.
        cbn [after retry_count current_endpoint_index requests].
        rewrite Hq. change (max_retries <? Z.of_nat 4) with true. cbv iota.
        unfold exhausted. change (429 =? 429) with true. cbv iota.
        eexists. unfold after. rewrite Hq. reflexivity.
      * replace ((n <? - sleep_max) || (sleep_max <? n)) with false.
        2:{ symmetry. apply orb_false_iff. unfold sleep_max in *.
            split; apply Z.ltb_ge; lia. }
        replace (n <? 0) with false by (symmetry; apply Z.ltb_ge; lia).
        cbn [after retry_count current_endpoint_index requests].
        rewrite Hq. change (max_retries <? Z.of_nat 4) with true. cbv iota.
        unfold exhausted. change (429 =? 429) with true. cbv iota.
        eexists. unfold after. rewrite Hq. reflexivity.
    + unfold exhausted.
      replace (status =? 429) with false by (symmetry; apply Z.eqb_neq; lia).
      replace ((400 <=? status) && (status <? 600)) with true.
      2:{ symmetry. apply andb_true_iff. split; [apply Z.leb_le | apply Z.ltb_lt]; lia. }
      unfold on_request_exception. fold (after self k tr). rewrite next_endpoint_after.
      cbn [after retry_count]. rewrite Hq. change (max_retries <? Z.of_nat 4) with true.
      cbv iota. eexists. reflexivity.
Qed.

Lemma loop_of_failures self net method :
  first_fail self net (4 * length (endpoints self)) ->
  forall m k tr,
    (k + S m = 4 * length (endpoints self))%nat ->
    exists tr',
      loop self net method (S m) (after self k tr)
      = Finished (exhausted (current_endpoint self (last_request self))
                            (net (last_request self)
                                 (current_endpoint self (last_request self))))
                 (after self (4 * length (endpoints self)) tr').
Proof.
  intros Hff. pose proof (pool_nonempty self) as Hn.
  induction m as [| m IH]; intros k tr Hk.
  - assert (Hlast : k = last_request self) by (unfold last_request; lia).
    assert (Hq : (S k / length (endpoints self) = 4)%nat).
    { replace (S k) with (4 * length (endpoints self))%nat by lia. apply Nat.div_mul. lia. }
    assert (Hk3 : (k / length (endpoints self) <= 3)%nat).
    { assert (k / length (endpoints self) < 4)%nat
        by (apply Nat.Div0.div_lt_upper_bound; lia). lia. }
    destruct (failing_iteration_ends self net method k tr) as (tr' & Hrun);
      [intros j Hj; apply Hff; lia | exact Hk3 | exact Hq |].
    exists tr'. rewrite Hrun, <- Hlast.
    replace (4 * length (endpoints self))%nat with (S k) by lia. reflexivity.
  - assert (Hq : (S k / length (endpoints self) <= 3)%nat).
    { assert (S k / length (endpoints self) < 4)%nat
        by (apply Nat.Div0.div_lt_upper_bound; lia). lia. }
    assert (Hk3 : (k / length (endpoints self) < 4)%nat)
      by (apply Nat.Div0.div_lt_upper_bound; lia).
    destruct (failing_iteration_goes_on self net method k tr) as (tr1 & Hit);
      [intros j Hj; apply Hff; lia | exact Hq |].
    destruct (IH (S k) tr1 ltac:(lia)) as (tr2 & Hrun).
    exists tr2. rewrite <- Hrun.
    change (loop self net method (S (S m)) (after self k tr))
      with (if max_retries <? retry_count (after self k tr)
            then Finished (Return PyNone) (after self k tr)
            else match iteration self net method (after self k tr) with
                 | Continue st' => loop self net method (S m) st'
                 | Stop r st' => Finished r st'
                 end).
    rewrite Hit. cbn [after retry_count].
    replace (max_retries <? Z.of_nat (k / length (endpoints self))) with false
      by (symmetry; apply Z.ltb_ge; unfold max_retries; lia).
    reflexivity.
Qed.

(** X3: when every request of a call fails (transport failure, HTTP 5xx or
    HTTP 429), the call gives up after four cycles, 4 n requests, and the
    last failure alone decides how: a transport failure or an HTTP error is
    raised as an exception that carries it, an HTTP 429 makes the call
    return None. *)
Theorem last_failure_decides_the_end self net method fuel :
  first_fail self net (4 * length (endpoints self)) ->
  (4 * length (endpoints self) <= fuel)%nat ->
  exists st,
    _make_request self net method fuel
    = Finished (exhausted (current_endpoint self (last_request self))
                          (net (last_request self)
                               (current_endpoint self (last_request self)))) st
    /\ requests st = (4 * length (endpoints self))%nat.
Proof.
  intros Hff Hfuel. pose proof (pool_nonempty self) as Hn.
  destruct (loop_of_failures self net method Hff
              (4 * length (endpoints self) - 1) 0%nat [] ltac:(lia)) as (tr & Hrun).
  eexists. split.
  - unfold _make_request.
    replace fuel with (S (4 * length (endpoints self) - 1)
                       + (fuel - 4 * length (endpoints self)))%nat by lia.
    apply loop_fuel_mono. change initial with (after self 0 []). exact Hrun.
  - reflexivity.
Qed.

Lemma last_failure_decides_the_end_witness :
  exists st,
    _make_request (__init__ None) net_down_then_429 "getSlot" 16
    = Finished (Return PyNone) st
    /\ requests st = 16%nat.
Proof.
  apply (last_failure_decides_the_end (__init__ None) net_down_then_429 "getSlot" 16).
  - intros k Hk. unfold net_down_then_429.
    destruct (k =? 15)%nat; cbn; tauto.
  - cbn. lia.
Defined.

End SolanaClientLaws.

Module SolanaQueriesLaws.
Import Py Indicators SolanaQueries.
Local Open Scope Q_scope.

(** *** One transaction *)

Lemma transaction_info_unclassified signature tx_response now tx_info :
  transaction_info signature tx_response now = Return tx_info ->
  TransactionInfo.tx_type tx_info = None.
Proof.
  unfold transaction_info.
  destruct (Answer.meta_member tx_response); try discriminate;
    (destruct (Answer.instructions tx_response) as [| | instructions]; try discriminate;
     [intros [= <-]; reflexivity |];
     destruct (first_transfer instructions) as [parsed |]; [| intros [= <-]; reflexivity];
     destruct (Answer.info_member parsed); try discriminate; intros [= <-]; reflexivity).
Qed.

(** The inner [try]: whatever the node does, the loop goes on, after one
    short pause and one request, with at most one transaction more. *)
Lemma fetch_guarded node signature transactions w :
  exists more w',
    try_except (fetch node signature transactions) (fun _ => ret transactions) w
      = (Return (transactions ++ more)%list, w') /\
    trace w' = (trace w ++ [Sleep 0.2; Request "getTransaction" signature])%list /\
    (length more <= 1)%nat /\
    Forall (fun tx => TransactionInfo.tx_type tx = None) more.
Proof.
  unfold try_except, fetch, bind, time_sleep, consult, time_time, ret, lift_result.
  cbn [steps trace].
  destruct (getTransaction node (steps w) signature) as [[tx_response |] | e].
  - destruct (transaction_info signature tx_response _) as [tx_info | e] eqn:E.
    + exists [tx_info]. eexists. split; [reflexivity |]. split; [| split].
      * cbn [trace]. rewrite <- app_assoc. reflexivity.
      * cbn. lia.
      * repeat constructor. exact (transaction_info_unclassified _ _ _ _ E).
    + exists []. eexists. rewrite app_nil_r. split; [reflexivity |]. split; [| split].
      * cbn [trace]. rewrite <- app_assoc. reflexivity.
      * cbn. lia.
      * constructor.
  - exists []. eexists. rewrite app_nil_r. split; [reflexivity |]. split; [| split].
    + cbn [trace]. rewrite <- app_assoc. reflexivity.
    + cbn. lia.
    + constructor.
  - exists []. eexists. rewrite app_nil_r. split; [reflexivity |]. split; [| split].
    + cbn [trace]. rewrite <- app_assoc. reflexivity.
    + cbn. lia.
    + constructor.
Qed.

Lemma for_signatures_run node current_batch : forall transactions w,
  exists more w',
    for_signatures node current_batch transactions w
      = (Return (transactions ++ more)%list, w') /\
    trace w' = (trace w
                ++ flat_map (fun signature => [Sleep 0.2; Request "getTransaction" signature])
                            current_batch)%list /\
    (length more <= length current_batch)%nat /\
    Forall (fun tx => TransactionInfo.tx_type tx = None) more.
Proof.
  induction current_batch as [| signature rest IH]; intros transactions w.
  - exists [], w. cbn. rewrite !app_nil_r.
    split; [reflexivity |]. split; [reflexivity |]. split; [lia | constructor].
  - cbn [for_signatures]. unfold bind at 1.
    destruct (fetch_guarded node signature transactions w)
      as (more1 & w1 & -> & Ht1 & Hl1 & Hf1).
    destruct (IH (transactions ++ more1)%list w1) as (more2 & w2 & -> & Ht2 & Hl2 & Hf2).
    exists (more1 ++ more2)%list, w2. split; [| split; [| split]].
    + rewrite app_assoc. reflexivity.
    + rewrite Ht2, Ht1. cbn [flat_map]. rewrite <- !app_assoc. reflexivity.
    + rewrite length_app. cbn [length]. lia.
    + apply Forall_app. split; assumption.
Qed.

(** *** The signatures of a batch *)

Lemma signatures_of_length batch_signatures : forall current_batch,
  signatures_of batch_signatures = Return current_batch ->
  length current_batch = length batch_signatures.
Proof.
  induction batch_signatures as [| sig_info rest IH]; intros current_batch H.
  - injection H as <-. reflexivity.
  - cbn [signatures_of] in H.
    destruct (signatures_of rest) as [signatures | e];
      [| destruct sig_info; discriminate].
    destruct sig_info; [discriminate | |]; injection H as <-; cbn [length];
      now rewrite (IH signatures eq_refl).
Qed.

Lemma signatures_of_signed batch_signatures :
  signed_entries batch_signatures ->
  signatures_of batch_signatures
  = Return (map (fun sig_info => Answer.get sig_info None) batch_signatures).
Proof.
  induction 1 as [| sig_info rest Hone Hrest IH]; [reflexivity |].
  cbn [signatures_of map]. rewrite IH.
  destruct sig_info; [contradiction | reflexivity | reflexivity].
Qed.

Lemma flat_map_map {A B C : Type} (f : B -> list C) (g : A -> B) (l : list A) :
  flat_map f (map g l) = flat_map (fun a => f (g a)) l.
Proof. induction l as [| a l IH]; [reflexivity |]. cbn [map flat_map]. now rewrite IH. Qed.

(** *** The batches *)

(** Whatever the loop over the batches returns was gathered one
    transaction per signature at most. *)
Lemma for_batches_returns node signatures_result starts : forall transactions w result w',
  for_batches node starts signatures_result transactions w = (Return result, w') ->
  exists more,
    result = (transactions ++ more)%list /\
    (length more
     <= list_sum (map (fun i => length (firstn batch_size (skipn i signatures_result)))
                      starts))%nat /\
    Forall (fun tx => TransactionInfo.tx_type tx = None) more.
Proof.
  induction starts as [| i rest IH]; intros transactions w result w' Hrun.
  - cbn in Hrun. injection Hrun as <- <-. exists []. rewrite app_nil_r.
    split; [reflexivity |]. split; [cbn; lia | constructor].
  - cbn [for_batches] in Hrun. unfold bind at 1 in Hrun.
    destruct ((if (0 <? i)%nat then time_sleep 1 else ret tt) w) as [[[] | e] w0] eqn:E0.
    2:{ destruct (0 <? i)%nat; discriminate. }
    unfold bind at 1, lift_result in Hrun.
    destruct (signatures_of (firstn batch_size (skipn i signatures_result)))
      as [current_batch | e] eqn:Es; [| discriminate].
    unfold bind at 1 in Hrun.
    destruct (for_signatures_run node current_batch transactions w0)
      as (more1 & w1 & Hrun1 & _ & Hl1 & Hf1).
    rewrite Hrun1 in Hrun.
    destruct (IH _ _ _ _ Hrun) as (more2 & -> & Hl2 & Hf2).
    rewrite (signatures_of_length _ _ Es) in Hl1.
    exists (more1 ++ more2)%list. split; [| split].
    + rewrite app_assoc. reflexivity.
    + rewrite length_app. cbn [map list_sum fold_right].
      fold (list_sum (map (fun i => length (firstn batch_size (skipn i signatures_result)))
                          rest)).
      lia.
    + apply Forall_app. split; assumption.
Qed.

(** When every entry carries its signature, the loop returns, and the
    trace is the schedule. *)
Lemma for_batches_run node signatures_result starts :
  signed_entries signatures_result ->
  forall transactions w,
  exists result w',
    for_batches node starts signatures_result transactions w = (Return result, w') /\
    trace w' = (trace w ++ flat_map (batch_schedule signatures_result) starts)%list.
Proof.
  intros Hsigned.
  induction starts as [| i rest IH]; intros transactions w.
  - exists transactions, w. cbn. rewrite app_nil_r. split; reflexivity.
  - cbn [for_batches]. unfold bind at 1.
    set (w0 := snd ((if (0 <? i)%nat then time_sleep 1 else ret tt) w)).
    assert (Hw0 : (if (0 <? i)%nat then time_sleep 1 else ret tt) w = (Return tt, w0)
                  /\ trace w0 = (trace w ++ (if (0 <? i)%nat then [Sleep 1] else []))%list).
    { subst w0. destruct (0 <? i)%nat; cbn; [split; reflexivity |].
      rewrite app_nil_r. split; reflexivity. }
    destruct Hw0 as [-> Ht0]. unfold bind at 1, lift_result.
    rewrite signatures_of_signed by (apply Forall_take, Forall_drop, Hsigned).
    unfold bind at 1.
    destruct (for_signatures_run node
                (map (fun sig_info => Answer.get sig_info None)
                     (firstn batch_size (skipn i signatures_result)))
                transactions w0) as (more1 & w1 & -> & Ht1 & _).
    destruct (IH (transactions ++ more1)%list w1) as (result & w2 & -> & Ht2).
    exists result, w2. split; [reflexivity |].
    rewrite Ht2, Ht1, Ht0, flat_map_map. cbn [flat_map]. unfold batch_schedule at 2.
    rewrite <- !app_assoc. reflexivity.
Qed.

(** *** The batches cover the signatures once *)

Lemma firstn_plus {A : Type} (n m : nat) : forall l : list A,
  firstn (n + m) l = (firstn n l ++ firstn m (skipn n l))%list.
Proof.
  induction n as [| n IH]; intros l; [reflexivity |].
  destruct l as [| a l]; cbn [Nat.add firstn skipn app].
  - now rewrite firstn_nil.
  - now rewrite IH.
Qed.

Lemma batches_within {A : Type} (l : list A) (count : nat) :
  list_sum (map (fun i => length (firstn batch_size (skipn i l)))
                (map (fun k => (k * batch_size)%nat) (seq 0 count)))
  = length (firstn (count * batch_size) l).
Proof.
  induction count as [| count IH]; [reflexivity |].
  rewrite seq_S, !map_app, list_sum_app, IH. cbn [map list_sum fold_right Nat.add].
  replace (S count * batch_size)%nat with (count * batch_size + batch_size)%nat by lia.
  rewrite firstn_plus, length_app. lia.
Qed.

(** *** What the callers of [get_transactions] can count on *)

Lemma get_transactions_returns node limit w transactions w' :
  get_transactions node limit w = (Return transactions, w') ->
  exists signatures,
    getSignaturesForAddress node (steps w) (Z.min limit 25) = Return signatures /\
    (length transactions <= length signatures)%nat /\
    Forall (fun tx => TransactionInfo.tx_type tx = None) transactions.
Proof.
  intros Hrun. unfold get_transactions, bind at 1, consult in Hrun.
  destruct (getSignaturesForAddress node (steps w) (Z.min limit 25))
    as [signatures | e] eqn:Hsig; [| discriminate].
  exists signatures. split; [reflexivity |].
  destruct signatures as [| sig_info rest].
  - injection Hrun as <- _. split; [reflexivity | constructor].
  - destruct (for_batches_returns _ _ _ _ _ _ _ Hrun) as (more & -> & Hl & Hf).
    split; [| exact Hf]. cbn [app].
    unfold range in Hl. rewrite batches_within, length_firstn in Hl. lia.
Qed.

(** X4: once the node has answered with the recent signatures, and every
    entry of the answer carries its signature, [get_transactions] cannot
    fail any more, and what it sends and how long it pauses is fixed by the
    signatures alone: batches of five, one second between two batches, and
    0.2 seconds before each [getTransaction], whether the earlier ones were
    answered, refused or unreadable.  It returns at most one transaction
    per signature. *)
Theorem get_transactions_keeps_its_pace node limit w signatures :
  getSignaturesForAddress node (steps w) (Z.min limit 25) = Return signatures ->
  signed_entries signatures ->
  exists transactions w',
    get_transactions node limit w = (Return transactions, w') /\
    trace w' = (trace w
                ++ Request "getSignaturesForAddress" (Some system_program_address)
                   :: schedule limit signatures)%list /\
    (length transactions <= length signatures)%nat.
Proof.
  intros Hsig Hsigned.
  assert (Hrun : exists transactions w',
             get_transactions node limit w = (Return transactions, w') /\
             trace w' = (trace w
                         ++ Request "getSignaturesForAddress" (Some system_program_address)
                            :: schedule limit signatures)%list).
  { unfold get_transactions, bind at 1, consult. rewrite Hsig.
    destruct signatures as [| sig_info rest].
    - exists []. eexists. split; [reflexivity |].
      cbn [trace]. unfold schedule. cbn [length].
      replace (Z.to_nat (Z.min (Z.of_nat 0) limit)) with 0%nat by lia. reflexivity.
    - destruct (for_batches_run node (sig_info :: rest)
                  (range (Z.to_nat (Z.min (Z.of_nat (length (sig_info :: rest))) limit))
                         batch_size)
                  Hsigned []
                  {| steps := S (steps w);
                     trace := trace w ++ [Request "getSignaturesForAddress"
                                                  (Some system_program_address)] |})
        as (result & w' & -> & Ht).
      exists result, w'. split; [reflexivity |].
      rewrite Ht. cbn [trace]. rewrite <- app_assoc. reflexivity. }
  destruct Hrun as (transactions & w' & Hrun & Ht).
  exists transactions, w'. split; [exact Hrun |]. split; [exact Ht |].
  destruct (get_transactions_returns node limit w transactions w' Hrun)
    as (signatures' & Hsig' & Hl & _).
  rewrite Hsig in Hsig'. injection Hsig' as <-. exact Hl.
Qed.

Lemma get_transactions_keeps_its_pace_witness :
  exists transactions w',
    get_transactions sample_node 100 start = (Return transactions, w') /\
    trace w' = ([] ++ Request "getSignaturesForAddress" (Some system_program_address)
                      :: schedule 100 seven_signatures)%list /\
    (length transactions <= length seven_signatures)%nat.
Proof.
  apply (get_transactions_keeps_its_pace sample_node 100 start seven_signatures).
  - reflexivity.
  - unfold signed_entries, seven_signatures. cbn [map].
    repeat constructor; discriminate.
Defined.

(** An entry without a signature ends [get_transactions] with the
    [KeyError], out of the outer handler. *)
Example unsigned_entry_raises :
  let node :=
    {| clock := clock quiet_node;
       getSignaturesForAddress := fun _ _ => Return [Answer.Value "s1"; Answer.Missing];
       getTransaction := getTransaction quiet_node;
       getRecentPerformanceSamples := getRecentPerformanceSamples quiet_node;
       getTokenAccountsByOwner := getTokenAccountsByOwner quiet_node;
       lastPrice := lastPrice quiet_node |} in
  fst (get_transactions node 100 start) = Raise (KeyError "signature").
Proof. reflexivity. Qed.

Lemma get_active_addresses_run node w :
  honours_limits node ->
  exists active_addresses w',
    get_active_addresses node w = (Return active_addresses, w') /\
    (0 <= active_addresses <= 1000)%Z.
Proof.
  intros [_ Hlimit]. unfold get_active_addresses, try_except, bind, consult, ret, raise.
  destruct (getTokenAccountsByOwner node (steps w)) as [[| | value] | e] eqn:E.
  - eexists. eexists. split; [reflexivity |]. lia.
  - eexists. eexists. split; [reflexivity |]. lia.
  - eexists. eexists. split; [reflexivity |]. specialize (Hlimit _ _ E). lia.
  - eexists. eexists. split; [reflexivity |]. lia.
Qed.

Lemma onchain_metrics_body_bounds node w onchain_data :
  honours_limits node ->
  fst (get_onchain_metrics_body node w) = Return onchain_data ->
  (0 <= OnChainData.transactions_count onchain_data <= 25)%Z /\
  (0 <= OnChainData.active_addresses onchain_data <= 1000)%Z.
Proof.
  intros Hnode Hrun. unfold get_onchain_metrics_body in Hrun. unfold bind at 1 in Hrun.
  destruct (get_transactions node 100 w) as [[transactions | e] w1] eqn:E1;
    [| discriminate].
  destruct (get_transactions_returns node 100 w transactions w1 E1)
    as (signatures & Hsig & Hl & _).
  pose proof (proj1 Hnode _ _ _ Hsig) as Hlimit.
  unfold bind at 1 in Hrun.
  destruct (get_tps node w1) as [[tps | e] w2]; [| discriminate].
  unfold bind at 1 in Hrun.
  destruct (get_active_addresses_run node w2 Hnode) as (active & w3 & Hactive & Ha).
  rewrite Hactive in Hrun.
  unfold bind, time_time, ret in Hrun. cbn [fst] in Hrun. injection Hrun as <-.
  cbn [OnChainData.transactions_count OnChainData.active_addresses].
  split; [lia | exact Ha].
Qed.

(** X5: on a node that honours the limits it is asked for,
    [get_onchain_metrics] never fails and never reports more than 25
    transactions or more than 1000 active addresses. *)
Theorem onchain_metrics_stay_below_the_baselines node w :
  honours_limits node ->
  exists onchain_data w',
    get_onchain_metrics node w = (Return onchain_data, w') /\
    (0 <= OnChainData.transactions_count onchain_data <= 25)%Z /\
    (0 <= OnChainData.active_addresses onchain_data <= 1000)%Z.
Proof.
  intros Hnode. unfold get_onchain_metrics, try_except.
  pose proof (onchain_metrics_body_bounds node w) as Hbody.
  destruct (get_onchain_metrics_body node w) as [[onchain_data | e] w1].
  - exists onchain_data, w1. split; [reflexivity |]. apply Hbody; [exact Hnode | reflexivity].
  - unfold bind, time_time, ret. eexists. eexists. split; [reflexivity |].
    cbn [OnChainData.transactions_count OnChainData.active_addresses]. lia.
Qed.

Lemma onchain_metrics_stay_below_the_baselines_witness :
  exists onchain_data w',
    get_onchain_metrics sample_node start = (Return onchain_data, w') /\
    (0 <= OnChainData.transactions_count onchain_data <= 25)%Z /\
    (0 <= OnChainData.active_addresses onchain_data <= 1000)%Z.
Proof.
  apply (onchain_metrics_stay_below_the_baselines sample_node start).
  split.
  - intros k limit signatures H. cbn [sample_node getSignaturesForAddress] in H.
    destruct (limit <? 0)%Z eqn:E; [discriminate |]. injection H as <-.
    rewrite length_firstn. lia.
  - intros k value [= <-]. cbn. lia.
Defined.

(** *** The whale transfers *)

Lemma is_type_unclassified tx type :
  TransactionInfo.tx_type tx = None -> is_type tx type = false.
Proof. intros H. unfold is_type. now rewrite H. Qed.

(** The loop over transfers that carry no type only fills the plain list
    and the plain sum. *)
Lemma tally_unclassified sol_price whale_transfers : forall acc,
  Forall (fun tx => TransactionInfo.tx_type tx = None) whale_transfers ->
  let sums := fold_left (add_transfer sol_price) whale_transfers acc in
  cex_transfers sums = cex_transfers acc /\
  dex_transfers sums = dex_transfers acc /\
  cex_value sums = cex_value acc /\
  dex_value sums = dex_value acc /\
  exists added,
    formatted_transfers sums = (formatted_transfers acc ++ added)%list /\
    Forall2 (fun tx transfer =>
               Transfer.type transfer = None /\
               Transfer.signature transfer = TransactionInfo.signature tx /\
               forall lamports,
                 TransactionInfo.lamports tx = Some lamports -> lamports <> 0%Z ->
                 Transfer.value_sol transfer = inject_Z lamports / 1000000000)
            whale_transfers added.
Proof.
  induction whale_transfers as [| tx rest IH]; intros acc Hf; cbv zeta.
  - cbn [fold_left]. repeat split. exists []. rewrite app_nil_r. split; constructor.
  - apply Forall_cons in Hf. destruct Hf as [Htx Hrest].
    cbn [fold_left].
    destruct (IH (add_transfer sol_price acc tx) Hrest)
      as (Hc & Hd & Hcv & Hdv & added & Hadd & Hall).
    rewrite Hc, Hd, Hcv, Hdv. unfold add_transfer at 1 2 3 4.
    cbn [cex_transfers dex_transfers cex_value dex_value].
    rewrite !(is_type_unclassified tx _ Htx).
    repeat split.
    eexists (_ :: added). split.
    + rewrite Hadd. unfold add_transfer at 1. cbn [formatted_transfers].
      rewrite <- app_assoc. reflexivity.
    + constructor; [| exact Hall].
      cbn [Transfer.type Transfer.signature Transfer.value_sol].
      split; [exact Htx | split; [reflexivity |]].
      intros lamports -> Hne.
      destruct (Z.eqb_spec lamports 0); [contradiction | reflexivity].
Qed.

Lemma whale_data_unclassified node w whale_data :
  fst (track_whale_transfers node w) = Return whale_data ->
  WhaleData.cex_transfers whale_data = [] /\
  WhaleData.dex_transfers whale_data = [] /\
  WhaleData.cex_value whale_data = 0 /\
  WhaleData.dex_value whale_data = 0 /\
  Forall (fun transfer =>
            Transfer.type transfer = None /\ 500 <= Transfer.value_sol transfer)
         (WhaleData.transfers whale_data).
Proof.
  intros Hrun. unfold track_whale_transfers in Hrun. unfold bind at 1, consult in Hrun.
  destruct (lastPrice node (steps w)) as [sol_price | e]; [| discriminate].
  unfold bind at 1, get_whale_transfers in Hrun. unfold bind at 1 in Hrun.
  match type of Hrun with
  | context [get_transactions node 100 ?w1] =>
      destruct (get_transactions node 100 w1) as [[transactions | e] w2] eqn:E;
        [| discriminate]
  end.
  apply get_transactions_returns in E. destruct E as (_ & _ & _ & Hf).
  unfold ret at 1 in Hrun. unfold bind, time_time, ret in Hrun. cbn [fst] in Hrun.
  injection Hrun as <-.
  cbn [WhaleData.cex_transfers WhaleData.dex_transfers WhaleData.cex_value
       WhaleData.dex_value WhaleData.transfers].
  set (kept := List.filter _ transactions).
  assert (Hkept : Forall (fun tx => TransactionInfo.tx_type tx = None) kept).
  { subst kept. rewrite List.Forall_forall in *. intros tx Hin.
    apply List.filter_In in Hin. apply Hf, Hin. }
  assert (Hwhale : Forall (fun tx => exists lamports,
                             TransactionInfo.lamports tx = Some lamports /\
                             (500 * 1000000000 <= lamports)%Z) kept).
  { subst kept. rewrite List.Forall_forall. intros tx Hin.
    apply List.filter_In in Hin. destruct Hin as [_ Hin].
    apply andb_true_iff in Hin. destruct Hin as [_ Hin].
    destruct (TransactionInfo.lamports tx) as [lamports |]; [| discriminate].
    exists lamports. split; [reflexivity |]. apply Z.leb_le. exact Hin. }
  destruct (tally_unclassified sol_price kept
              {| formatted_transfers := []; cex_transfers := []; dex_transfers := [];
                 total_value := 0; cex_value := 0; dex_value := 0 |} Hkept)
    as (Hc & Hd & Hcv & Hdv & added & Hadd & Hall).
  rewrite Hc, Hd, Hcv, Hdv, Hadd. cbn [cex_transfers dex_transfers cex_value dex_value
                                       formatted_transfers app].
  repeat split.
  clear Hadd Hc Hd Hcv Hdv. induction Hall as [| tx transfer kept' added' Hone Hall IH].
  - constructor.
  - apply Forall_cons in Hkept, Hwhale.
    destruct Hkept as [_ Hkept]. destruct Hwhale as [(lamports & Hl & Hbig) Hwhale].
    constructor; [| apply IH; assumption].
    destruct Hone as (Htype & _ & Hvalue). split; [exact Htype |].
    rewrite (Hvalue lamports Hl ltac:(lia)).
    apply Qle_shift_div_l; [reflexivity |].
    rewrite <- (inject_Z_mult 500 1000000000) || idtac.
    change (500 * 1000000000) with (inject_Z (500 * 1000000000)).
    rewrite <- Zle_Qle. exact Hbig.
Qed.

(** X6: the whale transfers that [track_whale_transfers] reports are never
    classified: every transfer has type None, the CEX and DEX lists are
    empty and the CEX and DEX values are 0, whatever the node answers; and
    every transfer listed moved at least 500 SOL. *)
Theorem whale_transfers_are_never_classified node w whale_data w' :
  track_whale_transfers node w = (Return whale_data, w') ->
  WhaleData.cex_transfers whale_data = [] /\
  WhaleData.dex_transfers whale_data = [] /\
  WhaleData.cex_value whale_data = 0 /\
  WhaleData.dex_value whale_data = 0 /\
  Forall (fun transfer =>
            Transfer.type transfer = None /\ 500 <= Transfer.value_sol transfer)
         (WhaleData.transfers whale_data).
Proof.
  intros Hrun. apply (whale_data_unclassified node w). rewrite Hrun. reflexivity.
Qed.

Lemma whale_transfers_are_never_classified_witness :
  exists whale_data w',
    track_whale_transfers sample_node start = (Return whale_data, w') /\
    WhaleData.cex_value whale_data = 0 /\
    WhaleData.dex_value whale_data = 0.
Proof.
  eexists. eexists.
  refine ((fun H =>
             let laws := whale_transfers_are_never_classified sample_node start _ _ H in
             conj H (conj (proj1 (proj2 (proj2 laws)))
                          (proj1 (proj2 (proj2 (proj2 laws)))))) _).
  vm_compute. reflexivity.
Defined.

End SolanaQueriesLaws.

Module BinanceClientLaws.
Import Py BinanceClient BinanceClientFacts.
Local Open Scope string_scope.

Section WithServer.
Variable server : nat -> Request -> response.
Variable time_ms : nat -> Z.
Variable urlencode : list (string * string) -> string.
Variable hmac_sha256_hexdigest : string -> string -> string.
Variable str_of_int : Z -> string.

(** Every call sends one GET to the address it is meant for and leaves the
    client as it was, whether the server answers or not. *)
Lemma make_one self c w :
  exists r w' params,
    make server time_ms urlencode hmac_sha256_hexdigest str_of_int self c w
      = (r, self, w') /\
    sent w' = (sent w ++ [{| req_method := "GET"; req_url := address (base_url self) c;
                             req_params := params; req_timeout := (30, 30)%Z |}])%list.
Proof.
  destruct c as [symbol limit | symbol interval limit start_time end_time | symbol
                 | symbol | symbol | symbol period limit];
    cbn [make address futures_call path].
  - unfold get_recent_trades. cbv zeta.
    destruct (_request_unsigned server time_ms urlencode hmac_sha256_hexdigest str_of_int
                self "GET" "/api/v3/trades"
                [("symbol", symbol); ("limit", str_of_int limit)] w) as (w' & Hrun & Hsent).
    cbv zeta in Hrun, Hsent. rewrite Hrun. eexists. eexists. eexists.
    split; [reflexivity | exact Hsent].
  - unfold get_klines. cbv zeta.
    match goal with
    | |- context [_request _ _ _ _ _ self "GET" "/api/v3/klines" false ?p] =>
        destruct (_request_unsigned server time_ms urlencode hmac_sha256_hexdigest
                    str_of_int self "GET" "/api/v3/klines" p w) as (w' & Hrun & Hsent)
    end.
    cbv zeta in Hrun, Hsent. rewrite Hrun. eexists. eexists. eexists.
    split; [reflexivity | exact Hsent].
  - unfold get_ticker_24hr. cbv zeta.
    destruct (_request_unsigned server time_ms urlencode hmac_sha256_hexdigest str_of_int
                self "GET" "/api/v3/ticker/24hr" [("symbol", symbol)] w)
      as (w' & Hrun & Hsent).
    cbv zeta in Hrun, Hsent. rewrite Hrun. eexists. eexists. eexists.
    split; [reflexivity | exact Hsent].
  - unfold get_funding_rate. cbv zeta.
    destruct (swap_and_restore server time_ms urlencode hmac_sha256_hexdigest str_of_int
                self "/fapi/v1/premiumIndex" [("symbol", symbol)] w)
      as (w' & Hrun & Hsent).
    cbv zeta in Hrun, Hsent. rewrite Hrun. eexists. eexists. eexists.
    split; [reflexivity | exact Hsent].
  - unfold get_open_interest. cbv zeta.
    destruct (swap_and_restore server time_ms urlencode hmac_sha256_hexdigest str_of_int
                self "/fapi/v1/openInterest" [("symbol", symbol)] w)
      as (w' & Hrun & Hsent).
    cbv zeta in Hrun, Hsent. rewrite Hrun. eexists. eexists. eexists.
    split; [reflexivity | exact Hsent].
  - unfold get_long_short_ratio. cbv zeta.
    destruct (swap_and_restore server time_ms urlencode hmac_sha256_hexdigest str_of_int
                self "/futures/data/globalLongShortAccountRatio"
                [("symbol", symbol); ("period", period); ("limit", str_of_int limit)] w)
      as (w' & Hrun & Hsent).
    cbv zeta in Hrun, Hsent. rewrite Hrun. eexists. eexists. eexists.
    split; [reflexivity | exact Hsent].
Qed.

(** X7: a client used for any series of spot and futures calls sends every
    request to the host it is meant for: a futures call to the futures
    host, a spot call to the client's own base URL, also right after a
    futures call that failed; and the client comes out as it went in. *)
Theorem every_call_reaches_its_host calls : forall self w,
  let after := use server time_ms urlencode hmac_sha256_hexdigest str_of_int
                   self calls w in
  fst after = self
  /\ map req_url (sent (snd after))
     = (map req_url (sent w) ++ map (address (base_url self)) calls)%list.
Proof.
  induction calls as [| c rest IH]; intros self w; cbv zeta.
  - cbn. rewrite app_nil_r. split; reflexivity.
  - cbn [use map].
    destruct (make_one self c w) as (r & w' & params & -> & Hsent).
    destruct (IH self w') as [Hself Hurls]. cbv zeta in Hself, Hurls.
    split; [exact Hself |].
    rewrite Hurls, Hsent, map_app. cbn [map req_url]. rewrite <- app_assoc. reflexivity.
Qed.

End WithServer.

End BinanceClientLaws.

Module SignalGeneratorLaws.
Import Py Indicators SignalGenerator SignalGeneratorFacts Along.
Local Open Scope Z_scope.

(** *** Reasoning along a computation *)

Section Along.
Context {S : Type}.

Lemma keeps_bind (I : S -> Prop) {A B : Type} (m : M S A) (k : A -> M S B) :
  keeps I m -> (forall a, keeps I (k a)) -> keeps I (bind m k).
Proof.
  intros Hm Hk s Hs. unfold bind. specialize (Hm s Hs).
  destruct (m s) as [[a | e] s1]; cbn [snd] in *; [apply Hk; exact Hm | exact Hm].
Qed.

Lemma yields_bind (I : S -> Prop) {A B : Type} (Q : B -> Prop) (m : M S A) (k : A -> M S B) :
  keeps I m -> (forall a, yields I Q (k a)) -> yields I Q (bind m k).
Proof.
  intros Hm Hk s b s' Hs H. unfold bind in H. specialize (Hm s Hs).
  destruct (m s) as [[a | e] s1]; cbn [snd] in *; [| discriminate].
  exact (Hk a s1 b s' Hm H).
Qed.

Lemma lets_out_bind (E : exn -> Prop) {A B : Type} (m : M S A) (k : A -> M S B) :
  lets_out E m -> (forall a, lets_out E (k a)) -> lets_out E (bind m k).
Proof.
  intros Hm Hk s e s' H. unfold bind in H.
  destruct (m s) as [[a | e1] s1] eqn:Em.
  - exact (Hk a s1 e s' H).
  - injection H as <- <-. exact (Hm s e1 s1 Em).
Qed.

Lemma keeps_lift_result (I : S -> Prop) {A : Type} (r : result A) : keeps I (lift_result r).
Proof. intros s Hs. exact Hs. Qed.

Lemma keeps_ret (I : S -> Prop) {A : Type} (a : A) : keeps I (ret a).
Proof. intros s Hs. exact Hs. Qed.

Lemma lets_out_ret (E : exn -> Prop) {A : Type} (a : A) : lets_out E (@ret S A a).
Proof. intros s e s' H. discriminate. Qed.

End Along.

(** *** The indicator methods *)

Lemma invoke_method {A : Type} name (body : nat -> result A) :
  method_of name body (invoke name body).
Proof.
  intros w. unfold invoke. cbn [fst snd calls]. split; [reflexivity |].
  destruct (body (steps w)) eqn:E; [exact I | eexists; exact E].
Qed.

Lemma try_except_method {A : Type} name (body : nat -> result A) clock (d : Z -> A) :
  method_of name body
    (try_except (invoke name body) (fun _ => bind (time_time clock) (fun now => ret (d now))))
  /\ guarded
    (try_except (invoke name body) (fun _ => bind (time_time clock) (fun now => ret (d now)))).
Proof.
  split; intros w; unfold try_except, invoke, bind, time_time, ret;
    destruct (body (steps w)); cbn [fst snd calls]; eauto.
Qed.

Create HintDb methods.

Lemma calculate_delta_method up :
  method_of "calculate_delta" (calculate_delta_body up) (calculate_delta up).
Proof. apply invoke_method. Qed.

Lemma calculate_footprint_method up :
  method_of "calculate_footprint" (calculate_footprint_body up) (calculate_footprint up).
Proof. apply invoke_method. Qed.

Lemma track_whale_transfers_method up :
  method_of "track_whale_transfers" (track_whale_transfers_body up)
            (track_whale_transfers up).
Proof. apply invoke_method. Qed.

Lemma get_open_interest_method up :
  method_of "get_open_interest" (get_open_interest_body up) (get_open_interest up).
Proof. apply try_except_method. Qed.

Lemma get_open_interest_guarded up : guarded (get_open_interest up).
Proof. apply try_except_method. Qed.

Lemma calculate_vwap_method up :
  method_of "calculate_vwap" (calculate_vwap_body up) (calculate_vwap up).
Proof. apply try_except_method. Qed.

Lemma calculate_vwap_guarded up : guarded (calculate_vwap up).
Proof. apply try_except_method. Qed.

Lemma detect_icebergs_method up :
  method_of "detect_icebergs" (detect_icebergs_body up) (detect_icebergs up).
Proof. apply try_except_method. Qed.

Lemma detect_icebergs_guarded up : guarded (detect_icebergs up).
Proof. apply try_except_method. Qed.

Lemma calculate_cvd_method up :
  method_of "calculate_cvd" (calculate_cvd_body up) (calculate_cvd up).
Proof. apply try_except_method. Qed.

Lemma calculate_cvd_guarded up : guarded (calculate_cvd up).
Proof. apply try_except_method. Qed.

Lemma detect_spoofing_method up :
  method_of "detect_spoofing" (detect_spoofing_body up) (detect_spoofing up).
Proof. apply try_except_method. Qed.

Lemma detect_spoofing_guarded up : guarded (detect_spoofing up).
Proof. apply try_except_method. Qed.

Lemma get_long_short_ratio_method up :
  method_of "get_long_short_ratio" (get_long_short_ratio_body up) (get_long_short_ratio up).
Proof. apply try_except_method. Qed.

Lemma get_long_short_ratio_guarded up : guarded (get_long_short_ratio up).
Proof. apply try_except_method. Qed.

Lemma get_funding_rate_method up :
  method_of "get_funding_rate" (get_funding_rate_body up) (get_funding_rate up).
Proof. apply try_except_method. Qed.

Lemma get_funding_rate_guarded up : guarded (get_funding_rate up).
Proof. apply try_except_method. Qed.

Lemma get_onchain_metrics_method up :
  method_of "get_onchain_metrics" (get_onchain_metrics_body up) (get_onchain_metrics up).
Proof. apply try_except_method. Qed.

Lemma get_onchain_metrics_guarded up : guarded (get_onchain_metrics up).
Proof. apply try_except_method. Qed.

#[local] Hint Resolve get_open_interest_guarded calculate_vwap_guarded detect_icebergs_guarded calculate_cvd_guarded detect_spoofing_guarded get_long_short_ratio_guarded get_funding_rate_guarded get_onchain_metrics_guarded : methods.

(** *** The cache check *)

(** On a configured name the check does not raise, touches neither the
    generator nor the log of calls, and says yes only if there is an entry. *)
Lemma fresh_spec up name cfg st :
  dict_get Config.INDICATORS name = Some cfg ->
  exists hit st1,
    fresh up name st = (Return hit, st1) /\
    self st1 = self st /\
    calls (world st1) = calls (world st) /\
    (hit = true -> exists signal, signal_cache (self st) !! name = Some signal).
Proof.
  intros Hcfg. unfold fresh, _should_update_signal, _is_signal_valid, INDICATORS.
  rewrite Hcfg. unfold bind, get, io, zoom, time_time, ret. cbn [self world steps calls].
  destruct (Config.update_interval cfg <=? _).
  - eexists. eexists. repeat split. discriminate.
  - cbn [self world steps calls].
    destruct (signal_cache (self st) !! name) as [signal |] eqn:Hc.
    + cbn [self world steps calls]. eexists. eexists. repeat split. eauto.
    + eexists. eexists. repeat split. discriminate.
Qed.

(** When the entry is stale the check says no. *)
Lemma fresh_stale up name cfg st :
  dict_get Config.INDICATORS name = Some cfg ->
  stale up name cfg st ->
  exists st1,
    fresh up name st = (Return false, st1) /\
    self st1 = self st /\ calls (world st1) = calls (world st).
Proof.
  intros Hcfg Hstale. unfold fresh, _should_update_signal, _is_signal_valid, INDICATORS.
  rewrite Hcfg. unfold bind, get, io, zoom, time_time, ret. cbn [self world steps calls].
  destruct (Config.update_interval cfg <=? _) eqn:Hdue.
  - eexists. repeat split.
  - apply Z.leb_gt in Hdue. cbn [self world steps calls].
    destruct Hstale as [Hd | [Hnone | (signal & Hsome & Hold)]]; [lia | |].
    + rewrite Hnone. eexists. repeat split.
    + rewrite Hsome. cbn [self world steps calls].
      replace (_ <=? Config.validity_period cfg) with false
        by (symmetry; apply Z.leb_gt; exact Hold).
      eexists. repeat split.
Qed.

(** *** Which exceptions get out *)

Lemma io_method_lets_out {A : Type} (E : exn -> Prop) name body (m : M World A) :
  method_of name body m ->
  (forall k e, body k = Raise e -> E e) ->
  lets_out E (io m).
Proof.
  intros Hm HE st e st' H. unfold io, zoom in H.
  destruct (Hm (world st)) as [_ Hr].
  destruct (m (world st)) as [[a | e1] w]; [discriminate |].
  injection H as <- <-. cbn [fst] in Hr. destruct Hr as (k & Hk). exact (HE k e1 Hk).
Qed.

Lemma io_guarded_lets_out {A : Type} (E : exn -> Prop) (m : M World A) :
  guarded m -> lets_out E (io m).
Proof.
  intros Hg st e st' H. unfold io, zoom in H. destruct (Hg (world st)) as (a & Ha).
  destruct (m (world st)) as [[a1 | e1] w]; [discriminate | discriminate].
Qed.

Lemma io_time_lets_out (E : exn -> Prop) clock : lets_out E (io (time_time clock)).
Proof. intros st e st' H. discriminate. Qed.

Lemma truediv_lets_out {S : Type} x y :
  lets_out (fun e => e = ZeroDivisionError) (@lift_result S Q (truediv x y)).
Proof.
  intros s e s' H. unfold lift_result, truediv in H.
  destruct (Qeq_bool y 0); [| discriminate]. now injection H as <- _.
Qed.

Lemma read_iceberg_lets_out up d : lets_out (from_order_flow up) (read_iceberg d).
Proof.
  unfold read_iceberg. destruct (IcebergData.detected_levels d); [apply lets_out_ret |].
  repeat match goal with
         | |- lets_out _ (if ?b then _ else _) => destruct b
         | |- lets_out _ (bind _ _) =>
             apply lets_out_bind;
             [intros s e s' H; left; exact (truediv_lets_out _ _ s e s' H) | intros ?]
         | |- lets_out _ (ret _) => apply lets_out_ret
         end.
Qed.

Lemma read_spoofing_lets_out up d : lets_out (from_order_flow up) (read_spoofing d).
Proof.
  unfold read_spoofing. destruct (SpoofingData.detected_levels d); [apply lets_out_ret |].
  cbv zeta.
  repeat match goal with
         | |- lets_out _ (if ?b then _ else _) => destruct b
         | |- lets_out _ (bind _ _) =>
             apply lets_out_bind;
             [intros s e s' H; left; exact (truediv_lets_out _ _ s e s' H) | intros ?]
         | |- lets_out _ (ret _) => apply lets_out_ret
         end.
Qed.

Lemma emit_returns up name cfg strength direction confidence components st :
  dict_get Config.INDICATORS name = Some cfg ->
  exists signal st',
    emit up name strength direction confidence components st = (Return signal, st') /\
    signal = {| SignalData.timestamp := clock up (steps (world st));
                SignalData.name := name;
                SignalData.strength := (strength * inject_Z direction)%Q;
                SignalData.direction := direction;
                SignalData.confidence := confidence;
                SignalData.validity := Config.validity_period cfg;
                SignalData.components := components |} /\
    signal_cache (self st') = <[name := signal]> (signal_cache (self st)) /\
    calls (world st') = calls (world st).
Proof.
  intros Hcfg. unfold emit, INDICATORS, store. rewrite Hcfg.
  unfold bind, get, put, io, zoom, time_time, ret. cbn [self world steps calls].
  eexists. eexists. repeat split.
Qed.

Lemma emit_lets_out (E : exn -> Prop) up name cfg strength direction confidence components :
  dict_get Config.INDICATORS name = Some cfg ->
  lets_out E (emit up name strength direction confidence components).
Proof.
  intros Hcfg st e st' H.
  destruct (emit_returns up name cfg strength direction confidence components st Hcfg)
    as (signal & st1 & Hrun & _).
  rewrite Hrun in H. discriminate.
Qed.

(** Every producer is the cache check followed by the cached entry or by
    the computation. *)
Lemma checked_lets_out (E : exn -> Prop) up name cfg (body : M State SignalData.t) :
  dict_get Config.INDICATORS name = Some cfg ->
  lets_out E body ->
  lets_out E (bind (fresh up name) (fun hit => if hit then cached name else body)).
Proof.
  intros Hcfg Hbody st e st' H. unfold bind in H.
  destruct (fresh_spec up name cfg st Hcfg) as (hit & st1 & Hf & Hself & _ & Hhit).
  rewrite Hf in H. destruct hit.
  - destruct (Hhit eq_refl) as (signal & Hc). rewrite <- Hself in Hc.
    rewrite (cached_hit name st1 signal Hc) in H. discriminate.
  - exact (Hbody st1 e st' H).
Qed.

Ltac order_flow_only :=
  repeat first
    [ match goal with
      | |- lets_out _ (let '(_, _) := ?p in _) => destruct p
      | |- lets_out _ (io (calculate_delta _)) =>
          apply (io_method_lets_out _ _ _ _ (calculate_delta_method _));
          intros k e Hk; right; exists k; tauto
      | |- lets_out _ (io (calculate_footprint _)) =>
          apply (io_method_lets_out _ _ _ _ (calculate_footprint_method _));
          intros k e Hk; right; exists k; tauto
      | |- lets_out _ (io (track_whale_transfers _)) =>
          apply (io_method_lets_out _ _ _ _ (track_whale_transfers_method _));
          intros k e Hk; right; exists k; tauto
      | |- lets_out _ (io _) => apply io_guarded_lets_out; eauto with methods
      | |- lets_out _ (read_iceberg _) => apply read_iceberg_lets_out
      | |- lets_out _ (read_spoofing _) => apply read_spoofing_lets_out
      | |- lets_out _ (emit _ _ _ _ _ _) => eapply emit_lets_out; reflexivity
      | |- lets_out _ (bind _ _) => apply lets_out_bind; [| intros ?]
      end ].

(** X8: whatever a producer lets out is a division by zero of its own
    arithmetic or an exception of one of the three order-flow methods; the
    failures of all other indicator methods stay inside. *)
Theorem producers_let_out_only_order_flow_failures up name producer st e st' :
  In (name, producer) (producers up) ->
  producer st = (Raise e, st') ->
  from_order_flow up e.
Proof.
  intros Hin. revert st e st'. change (lets_out (from_order_flow up) producer).
  unfold producers in Hin. cbn [In] in Hin.
  repeat (destruct Hin as [Hin | Hin]; [injection Hin as <- <- |]); [.. | contradiction].
  - unfold generate_order_flow_signal.
    eapply checked_lets_out; [reflexivity |]. order_flow_only.
  - unfold generate_blockchain_oi_signal.
    eapply checked_lets_out; [reflexivity |]. order_flow_only.
  - unfold generate_market_depth_signal.
    eapply checked_lets_out; [reflexivity |]. order_flow_only.
  - unfold generate_sentiment_signal.
    eapply checked_lets_out; [reflexivity |]. order_flow_only.
  - unfold generate_onchain_signal, against_baseline.
    eapply checked_lets_out; [reflexivity |]. order_flow_only.
  - unfold generate_scalp_signal.
    eapply checked_lets_out; [reflexivity |]. order_flow_only.
Qed.

Lemma producers_let_out_only_order_flow_failures_witness :
  from_order_flow (upstream_down timed_out) timed_out.
Proof.
  eapply (producers_let_out_only_order_flow_failures (upstream_down timed_out)
            "ORDER_FLOW" (generate_order_flow_signal (upstream_down timed_out))
            fresh_state timed_out).
  - left. reflexivity.
  - vm_compute. reflexivity.
Defined.

(** *** The log of calls only grows *)

Lemma io_method_keeps_logged {A : Type} l name body (m : M World A) :
  method_of name body m -> keeps (logged l) (io m).
Proof.
  intros Hm st (more & Hl). unfold logged, io, zoom.
  destruct (Hm (world st)) as [Hc _].
  destruct (m (world st)) as [r w]. cbn [snd world] in *.
  exists (more ++ [name])%list. rewrite Hc, Hl. now rewrite app_assoc.
Qed.

Lemma io_time_keeps_logged l clock : keeps (logged l) (io (time_time clock)).
Proof. intros st Hl. exact Hl. Qed.

Lemma emit_keeps_logged l up name cfg strength direction confidence components :
  dict_get Config.INDICATORS name = Some cfg ->
  keeps (logged l) (emit up name strength direction confidence components).
Proof.
  intros Hcfg st (more & Hl).
  destruct (emit_returns up name cfg strength direction confidence components st Hcfg)
    as (signal & st1 & Hrun & _ & _ & Hcalls).
  rewrite Hrun. cbn [snd]. exists more. now rewrite Hcalls.
Qed.

Lemma read_iceberg_keeps (I : State -> Prop) d : keeps I (read_iceberg d).
Proof.
  unfold read_iceberg. destruct (IcebergData.detected_levels d); [apply keeps_ret |].
  repeat match goal with
         | |- keeps _ (if ?b then _ else _) => destruct b
         | |- keeps _ (bind _ _) => apply keeps_bind; [apply keeps_lift_result | intros ?]
         | |- keeps _ (ret _) => apply keeps_ret
         end.
Qed.

Lemma read_spoofing_keeps (I : State -> Prop) d : keeps I (read_spoofing d).
Proof.
  unfold read_spoofing. destruct (SpoofingData.detected_levels d); [apply keeps_ret |].
  cbv zeta.
  repeat match goal with
         | |- keeps _ (if ?b then _ else _) => destruct b
         | |- keeps _ (bind _ _) => apply keeps_bind; [apply keeps_lift_result | intros ?]
         | |- keeps _ (ret _) => apply keeps_ret
         end.
Qed.

#[local] Hint Resolve calculate_delta_method calculate_footprint_method
  track_whale_transfers_method get_open_interest_method calculate_vwap_method
  detect_icebergs_method calculate_cvd_method detect_spoofing_method
  get_long_short_ratio_method get_funding_rate_method get_onchain_metrics_method
  : methods.

Ltac log_grows :=
  repeat first
    [ match goal with
      | |- keeps _ (let '(_, _) := ?p in _) => destruct p
      | |- keeps _ (io _) => eapply io_method_keeps_logged; eauto with methods
      | |- keeps _ (read_iceberg _) => apply read_iceberg_keeps
      | |- keeps _ (read_spoofing _) => apply read_spoofing_keeps
      | |- keeps _ (emit _ _ _ _ _ _) => eapply emit_keeps_logged; reflexivity
      | |- keeps _ (bind _ _) => apply keeps_bind; [| intros ?]
      end ].

(** After a cache check that said no: the first method is called and the
    rest only adds to the log. *)
Lemma computation_calls {A : Type} up name cfg method body (m : M World A)
    (k : A -> M State SignalData.t) st :
  dict_get Config.INDICATORS name = Some cfg ->
  stale up name cfg st ->
  method_of method body m ->
  (forall l a, keeps (logged l) (k a)) ->
  exists more,
    calls (world (snd (bind (fresh up name)
                            (fun hit => if hit then cached name else bind (io m) k) st)))
    = (calls (world st) ++ method :: more)%list.
Proof.
  intros Hcfg Hstale Hm Hk.
  destruct (fresh_stale up name cfg st Hcfg Hstale) as (st1 & Hf & _ & Hcalls).
  unfold bind at 1. rewrite Hf.
  assert (Hkeeps : keeps (logged (calls (world st1) ++ [method])) (bind (io m) k)).
  { apply keeps_bind; [eapply io_method_keeps_logged; exact Hm | intros a; apply Hk]. }
  unfold bind at 1. unfold io at 1, zoom at 1.
  destruct (Hm (world st1)) as [Hc _].
  destruct (m (world st1)) as [[a | e] w] eqn:Em; cbn [snd] in Hc.
  - destruct (Hk (calls (world st1) ++ [method])%list a
                {| self := self st1; world := w |}) as (more & Hmore).
    { exists []. cbn [world]. now rewrite app_nil_r. }
    exists more. rewrite Hmore, <- Hcalls, <- app_assoc. reflexivity.
  - exists []. cbn [snd world]. rewrite Hc, Hcalls. reflexivity.
Qed.

(** X9: a producer whose entry is stale (due for an update, missing, or past
    its validity period) goes to the indicators: at least one indicator
    method is called, the cache is not what answers. *)
Theorem stale_entry_is_recomputed up name producer cfg st :
  In (name, producer) (producers up) ->
  dict_get Config.INDICATORS name = Some cfg ->
  stale up name cfg st ->
  exists method more,
    calls (world (snd (producer st))) = (calls (world st) ++ method :: more)%list.
Proof.
  intros Hin Hcfg Hstale.
  unfold producers in Hin. cbn [In] in Hin.
  repeat (destruct Hin as [Hin | Hin]; [injection Hin as <- <- |]); [.. | contradiction].
  - eexists. unfold generate_order_flow_signal.
    eapply computation_calls; eauto with methods. intros l a. log_grows.
  - eexists. unfold generate_blockchain_oi_signal.
    eapply computation_calls; eauto with methods. intros l a. log_grows.
  - eexists. unfold generate_market_depth_signal.
    eapply computation_calls; eauto with methods. intros l a. log_grows.
  - eexists. unfold generate_sentiment_signal.
    eapply computation_calls; eauto with methods. intros l a. log_grows.
  - eexists. unfold generate_onchain_signal.
    eapply computation_calls; eauto with methods. intros l a.
    unfold against_baseline. log_grows.
  - eexists. unfold generate_scalp_signal.
    eapply computation_calls; eauto with methods. intros l a. log_grows.
Qed.

Lemma stale_entry_is_recomputed_witness :
  exists method more,
    calls (world (snd (generate_scalp_signal upstream_quiet fresh_state)))
    = (calls (world fresh_state) ++ method :: more)%list.
Proof.
  eapply (stale_entry_is_recomputed upstream_quiet "SCALP"
            (generate_scalp_signal upstream_quiet) _ fresh_state).
  - cbn. tauto.
  - reflexivity.
  - right. left. reflexivity.
Defined.

(** *** What is cached and returned *)

Lemma both_bind {A B : Type} (I : State -> Prop) (Q : B -> Prop) (m : M State A)
    (k : A -> M State B) :
  keeps I m ->
  (forall a, keeps I (k a) /\ yields I Q (k a)) ->
  keeps I (bind m k) /\ yields I Q (bind m k).
Proof.
  intros Hm Hk. split.
  - apply keeps_bind; [exact Hm | intros a; apply Hk].
  - apply yields_bind; [exact Hm | intros a; apply Hk].
Qed.

Lemma io_keeps_cache {A : Type} P (m : M World A) : keeps (cache_all P) (io m).
Proof.
  intros st H. unfold io, zoom. destruct (m (world st)) as [r w]. exact H.
Qed.

Lemma emit_both P up name cfg strength direction confidence components :
  dict_get Config.INDICATORS name = Some cfg ->
  (forall timestamp,
      P name {| SignalData.timestamp := timestamp;
                SignalData.name := name;
                SignalData.strength := (strength * inject_Z direction)%Q;
                SignalData.direction := direction;
                SignalData.confidence := confidence;
                SignalData.validity := Config.validity_period cfg;
                SignalData.components := components |}) ->
  keeps (cache_all P) (emit up name strength direction confidence components)
  /\ yields (cache_all P) (P name) (emit up name strength direction confidence components).
Proof.
  intros Hcfg HP. split.
  - intros st Hst.
    destruct (emit_returns up name cfg strength direction confidence components st Hcfg)
      as (signal & st1 & Hrun & -> & Hcache & _).
    rewrite Hrun. cbn [snd]. intros n s. rewrite Hcache.
    destruct (decide (name = n)) as [<- | Hn].
    + rewrite lookup_insert_eq. intros [= <-]. apply HP.
    + rewrite lookup_insert_ne by exact Hn. apply Hst.
  - intros st a st' _ Hrun.
    destruct (emit_returns up name cfg strength direction confidence components st Hcfg)
      as (signal & st1 & Hrun1 & -> & _).
    rewrite Hrun1 in Hrun. injection Hrun as <- _. apply HP.
Qed.

Lemma checked_both P up name cfg (body : M State SignalData.t) :
  dict_get Config.INDICATORS name = Some cfg ->
  keeps (cache_all P) body /\ yields (cache_all P) (P name) body ->
  forall st, cache_all P st ->
    let run := bind (fresh up name) (fun hit => if hit then cached name else body) st in
    cache_all P (snd run) /\ forall signal, fst run = Return signal -> P name signal.
Proof.
  intros Hcfg [Hk Hy] st Hst. cbv zeta. unfold bind.
  destruct (fresh_spec up name cfg st Hcfg) as (hit & st1 & Hf & Hself & _ & Hhit).
  rewrite Hf.
  assert (Hst1 : cache_all P st1) by (unfold cache_all; rewrite Hself; exact Hst).
  destruct hit.
  - destruct (Hhit eq_refl) as (signal & Hc).
    pose proof (Hst name signal Hc) as HP. rewrite <- Hself in Hc.
    rewrite (cached_hit name st1 signal Hc). cbn [fst snd].
    split; [exact Hst1 | intros s [= <-]; exact HP].
  - split; [apply Hk; exact Hst1 |].
    intros signal Hr. destruct (body st1) as [r st2] eqn:Eb. cbn [fst] in Hr. subst r.
    exact (Hy st1 signal st2 Hst1 Eb).
Qed.

Lemma direction_of_cases v : direction_of v = -1 \/ direction_of v = 0 \/ direction_of v = 1.
Proof. unfold direction_of. destruct (0 <? v); [| destruct (v <? 0)]; tauto. Qed.

Lemma emitted_well_formed name cfg timestamp strength v confidence components :
  dict_get Config.INDICATORS name = Some cfg ->
  (0.65 <= confidence <= 0.95)%Q ->
  well_formed name
    {| SignalData.timestamp := timestamp;
       SignalData.name := name;
       SignalData.strength := (strength * inject_Z (direction_of v))%Q;
       SignalData.direction := direction_of v;
       SignalData.confidence := confidence;
       SignalData.validity := Config.validity_period cfg;
       SignalData.components := components |}.
Proof.
  intros Hcfg Hc. unfold well_formed. cbn [SignalData.name SignalData.direction
    SignalData.strength SignalData.validity SignalData.confidence].
  repeat split; try apply Hc.
  - apply direction_of_cases.
  - exists cfg. split; [exact Hcfg | reflexivity].
Qed.

Ltac confidence_level :=
  cbv zeta;
  repeat match goal with
         | |- context [if ?b then _ else _] => destruct b
         end;
  split; unfold Qle; cbn; lia.

Ltac along_computation :=
  repeat first
    [ match goal with
      | |- _ /\ yields _ _ (let '(_, _) := ?p in _) => destruct p
      | |- keeps _ (io _) => apply io_keeps_cache
      | |- keeps _ (read_iceberg _) => apply read_iceberg_keeps
      | |- keeps _ (read_spoofing _) => apply read_spoofing_keeps
      | |- _ /\ yields _ _ (bind _ _) => apply both_bind; [| intros ?]
      end ].

(** X10: every signal a producer returns, computed or taken from the cache,
    carries the producer's name, a direction among -1, 0 and 1, the
    validity period configured for the name and a confidence between 0.65
    and 0.95; the cache holds only such signals, provided it did before. *)
Theorem produced_signals_are_well_formed up name producer st :
  In (name, producer) (producers up) ->
  cache_all well_formed st ->
  cache_all well_formed (snd (producer st))
  /\ forall signal, fst (producer st) = Return signal -> well_formed name signal.
Proof.
  intros Hin. revert st.
  unfold producers in Hin. cbn [In] in Hin.
  repeat (destruct Hin as [Hin | Hin]; [injection Hin as <- <- |]); [.. | contradiction].
  - unfold generate_order_flow_signal.
    eapply checked_both; [reflexivity |]. along_computation.
    eapply emit_both; [reflexivity |]. intros ts.
    eapply emitted_well_formed; [reflexivity |]. confidence_level.
  - unfold generate_blockchain_oi_signal.
    eapply checked_both; [reflexivity |]. along_computation.
    eapply emit_both; [reflexivity |]. intros ts.
    eapply emitted_well_formed; [reflexivity |]. confidence_level.
  - unfold generate_market_depth_signal.
    eapply checked_both; [reflexivity |]. along_computation.
    eapply emit_both; [reflexivity |]. intros ts.
    eapply emitted_well_formed; [reflexivity |]. confidence_level.
  - unfold generate_sentiment_signal.
    eapply checked_both; [reflexivity |]. along_computation.
    eapply emit_both; [reflexivity |]. intros ts.
    eapply emitted_well_formed; [reflexivity |]. confidence_level.
  - unfold generate_onchain_signal, against_baseline.
    eapply checked_both; [reflexivity |]. along_computation.
    eapply emit_both; [reflexivity |]. intros ts.
    eapply emitted_well_formed; [reflexivity |]. confidence_level.
  - unfold generate_scalp_signal.
    eapply checked_both; [reflexivity |]. along_computation.
    eapply emit_both; [reflexivity |]. intros ts.
    eapply emitted_well_formed; [reflexivity |]. confidence_level.
Qed.

Lemma produced_signals_are_well_formed_witness :
  cache_all well_formed (snd (generate_onchain_signal upstream_quiet fresh_state))
  /\ forall signal,
       fst (generate_onchain_signal upstream_quiet fresh_state) = Return signal ->
       well_formed "ON_CHAIN" signal.
Proof.
  apply (produced_signals_are_well_formed upstream_quiet "ON_CHAIN"
           (generate_onchain_signal upstream_quiet) fresh_state).
  - cbn. tauto.
  - intros name signal H. vm_compute in H. discriminate H.
Defined.

(** *** One producer leaves the entries of the others alone *)

Local Open Scope Z_scope.

Lemma io_keeps_cached_at {A : Type} n s (m : M World A) : keeps (cached_at n s) (io m).
Proof.
  intros st H. unfold io, zoom. destruct (m (world st)) as [r w]. exact H.
Qed.

Lemma fresh_keeps_cached_at up name cfg n s :
  dict_get Config.INDICATORS name = Some cfg -> keeps (cached_at n s) (fresh up name).
Proof.
  intros Hcfg st H.
  destruct (fresh_spec up name cfg st Hcfg) as (hit & st1 & Hf & Hself & _).
  rewrite Hf. cbn [snd]. unfold cached_at. rewrite Hself. exact H.
Qed.

Lemma cached_keeps (I : State -> Prop) name : keeps I (cached name).
Proof.
  intros st H. unfold cached, bind, get.
  destruct (signal_cache (self st) !! name); exact H.
Qed.

Lemma emit_keeps_cached_at up name cfg n s strength direction confidence components :
  dict_get Config.INDICATORS name = Some cfg ->
  name <> n ->
  keeps (cached_at n s) (emit up name strength direction confidence components).
Proof.
  intros Hcfg Hn st H.
  destruct (emit_returns up name cfg strength direction confidence components st Hcfg)
    as (signal & st1 & Hrun & _ & Hcache & _).
  rewrite Hrun. cbn [snd]. unfold cached_at. rewrite Hcache.
  rewrite lookup_insert_ne by exact Hn. exact H.
Qed.

Ltac others_untouched :=
  repeat first
    [ match goal with
      | |- keeps _ (let '(_, _) := ?p in _) => destruct p
      | |- keeps _ (if ?hit then cached _ else _) => destruct hit
      | |- keeps _ (cached _) => apply cached_keeps
      | |- keeps _ (fresh _ _) => eapply fresh_keeps_cached_at; reflexivity
      | |- keeps _ (io _) => apply io_keeps_cached_at
      | |- keeps _ (read_iceberg _) => apply read_iceberg_keeps
      | |- keeps _ (read_spoofing _) => apply read_spoofing_keeps
      | |- keeps _ (emit _ _ _ _ _ _) =>
          eapply emit_keeps_cached_at; [reflexivity | assumption]
      | |- keeps _ (bind _ _) => apply keeps_bind; [| intros ?]
      end ].

Lemma producers_frame up name producer n s :
  In (name, producer) (producers up) ->
  name <> n ->
  keeps (cached_at n s) producer.
Proof.
  intros Hin Hn.
  unfold producers in Hin. cbn [In] in Hin.
  repeat (destruct Hin as [Hin | Hin]; [injection Hin as <- <- |]); [.. | contradiction].
  - unfold generate_order_flow_signal. others_untouched.
  - unfold generate_blockchain_oi_signal. others_untouched.
  - unfold generate_market_depth_signal. others_untouched.
  - unfold generate_sentiment_signal. others_untouched.
  - unfold generate_onchain_signal, against_baseline. others_untouched.
  - unfold generate_scalp_signal. others_untouched.
Qed.

Lemma producers_configured up name producer :
  In (name, producer) (producers up) -> dict_in name Config.INDICATORS = true.
Proof.
  intros Hin. unfold producers in Hin. cbn [In] in Hin.
  repeat (destruct Hin as [Hin | Hin]; [injection Hin as <- <-; reflexivity |]).
  contradiction.
Qed.

Lemma collect_all_mirrors up entries : forall acc st signals st',
  (forall e, In e entries -> In e (producers up)) ->
  List.NoDup (map fst acc ++ map fst entries) ->
  (forall name signal, In (name, signal) acc -> cached_at name signal st) ->
  collect_all entries acc st = (Return signals, st') ->
  map fst signals = (map fst acc ++ map fst entries)%list
  /\ forall name signal, In (name, signal) signals -> cached_at name signal st'.
Proof.
  induction entries as [| [name producer] rest IH]; intros acc st signals st' Hsub Hnd Hacc Hrun.
  - cbn in Hrun. injection Hrun as <- <-. cbn [map]. rewrite app_nil_r. split; [reflexivity | exact Hacc].
  - assert (Hin : In (name, producer) (producers up)) by (apply Hsub; now left).
    cbn [collect_all] in Hrun. unfold collect in Hrun. cbn [fst snd] in Hrun.
    rewrite (producers_configured up name producer Hin) in Hrun.
    unfold bind, ret in Hrun.
    destruct (producer st) as [[signal | e] st1] eqn:Ep; [| discriminate].
    cbn [map fst] in Hnd.
    assert (Hfresh : ~ In name (map fst acc)).
    { intros Hc. apply (List.NoDup_remove_2 _ _ _ Hnd). apply in_or_app. now left. }
    rewrite (SignalProcessorFacts.dict_set_fresh acc name signal Hfresh) in Hrun.
    destruct (IH (acc ++ [(name, signal)])%list st1 signals st') as [Hnames Hcached].
    + intros e He. apply Hsub. now right.
    + rewrite map_app, <- app_assoc. exact Hnd.
    + intros n s Hns. apply in_app_or in Hns. destruct Hns as [Hns | [[= <- <-] | []]].
      * assert (Hne : name <> n).
        { intros <-. apply Hfresh. apply (in_map fst) in Hns. exact Hns. }
        pose proof (producers_frame up name producer n s Hin Hne st (Hacc n s Hns)) as Hk.
        rewrite Ep in Hk. exact Hk.
      * exact (producers_cache up name producer Hin st signal st1 Ep).
    + exact Hrun.
    + split; [| exact Hcached].
      rewrite Hnames, map_app, <- app_assoc. reflexivity.
Qed.

(** X12: when [get_all_signals] returns, the mapping has one entry for each
    configured name, in the order of the configuration, and every entry is
    the signal the cache holds under that name at the end of the call: no
    producer disturbs what an earlier one has stored. *)
Theorem get_all_signals_mirrors_the_cache up st signals st' :
  get_all_signals up st = (Return signals, st') ->
  map fst signals = map fst Config.INDICATORS
  /\ forall name signal, In (name, signal) signals -> cached_at name signal st'.
Proof.
  intros Hrun. rewrite get_all_signals_runs_producers in Hrun.
  apply (collect_all_mirrors up (producers up) [] st signals st'); try assumption.
  - auto.
  - cbn. repeat constructor; cbn; intuition discriminate.
  - intros name signal [].
Qed.

Lemma get_all_signals_mirrors_the_cache_witness :
  exists signals st',
    get_all_signals upstream_quiet fresh_state = (Return signals, st')
    /\ map fst signals = map fst Config.INDICATORS.
Proof.
  eexists. eexists.
  refine ((fun H => conj H
             (proj1 (get_all_signals_mirrors_the_cache upstream_quiet fresh_state _ _ H))) _).
  vm_compute. reflexivity.
Defined.

(** *** What the chain can make the generator say *)

Local Open Scope Q_scope.

Lemma both_bind_with {A B : Type} (I : State -> Prop) (R : A -> Prop) (Q : B -> Prop)
    (m : M State A) (k : A -> M State B) :
  keeps I m -> yields I R m ->
  (forall a, R a -> keeps I (k a) /\ yields I Q (k a)) ->
  keeps I (bind m k) /\ yields I Q (bind m k).
Proof.
  intros Hm Hr Hk. split.
  - intros s Hs. unfold bind. pose proof (Hm s Hs) as Hs1.
    destruct (m s) as [[a | e] s1] eqn:E; cbn [snd] in *; [| exact Hs1].
    apply (proj1 (Hk a (Hr s a s1 Hs E))). exact Hs1.
  - intros s b s' Hs H. unfold bind in H. pose proof (Hm s Hs) as Hs1.
    destruct (m s) as [[a | e] s1] eqn:E; cbn [snd] in *; [| discriminate].
    exact (proj2 (Hk a (Hr s a s1 Hs E)) s1 b s' Hs1 H).
Qed.


Lemma io_guarded_yields {A : Type} (I : State -> Prop) (R : A -> Prop) name
    (body : nat -> result A) clock (d : Z -> A) :
  (forall k a, body k = Return a -> R a) ->
  (forall now, R (d now)) ->
  yields I R
    (io (try_except (invoke name body)
                    (fun _ => bind (time_time clock) (fun now => ret (d now))))).
Proof.
  intros Hbody Hd st a st' _ H. unfold io, zoom, try_except, invoke in H.
  destruct (body (steps (world st))) as [a1 | e] eqn:E.
  - injection H as <- _. exact (Hbody _ _ E).
  - unfold bind, time_time, ret in H. injection H as <- _. apply Hd.
Qed.




Lemma below_baseline (x : Z) (bound : Z) (baseline : Q) :
  (x <= bound)%Z -> inject_Z bound <= baseline -> gt (inject_Z x) baseline = false.
Proof.
  intros Hx Hb. destruct (gt (inject_Z x) baseline) eqn:E; [| reflexivity].
  apply SignalProcessorFacts.gt_spec in E. rewrite Zle_Qle in Hx. lra.
Qed.

Lemma far_below_baseline (x : Z) (bound : Z) (level : Q) :
  (x <= bound)%Z -> inject_Z bound < level -> lt (inject_Z x) level = true.
Proof.
  intros Hx Hb. apply SignalProcessorFacts.lt_spec. rewrite Zle_Qle in Hx. lra.
Qed.

(** X14: as long as the chain metrics come from [get_onchain_metrics] on a
    node that honours the limits of the requests, ON_CHAIN never points up:
    a signal of that name, computed or taken from the cache, has direction
    -1 or 0; the 50 transactions and the 1000 addresses it would take are
    out of reach of the requests.  The cache holds only such ON_CHAIN
    entries, provided it did before. *)
Theorem onchain_signal_never_points_up up name producer st :
  Pipeline.metrics_from_chain up ->
  In (name, producer) (producers up) ->
  cache_all never_up st ->
  cache_all never_up (snd (producer st))
  /\ forall signal, fst (producer st) = Return signal -> never_up name signal.
Proof.
  intros Hup Hin. revert st.
  unfold producers in Hin. cbn [In] in Hin.
  repeat (destruct Hin as [Hin | Hin]; [injection Hin as <- <- |]); [.. | contradiction].
  - unfold generate_order_flow_signal.
    eapply checked_both; [reflexivity |]. along_computation.
    eapply emit_both; [reflexivity |]. intros ts H; discriminate H.
  - unfold generate_blockchain_oi_signal.
    eapply checked_both; [reflexivity |]. along_computation.
    eapply emit_both; [reflexivity |]. intros ts H; discriminate H.
  - unfold generate_market_depth_signal.
    eapply checked_both; [reflexivity |]. along_computation.
    eapply emit_both; [reflexivity |]. intros ts H; discriminate H.
  - unfold generate_sentiment_signal.
    eapply checked_both; [reflexivity |]. along_computation.
    eapply emit_both; [reflexivity |]. intros ts H; discriminate H.
  - unfold generate_onchain_signal.
    eapply checked_both; [reflexivity |].
    apply (both_bind_with _
             (fun onchain_data =>
                (0 <= OnChainData.transactions_count onchain_data <= 25)%Z /\
                (0 <= OnChainData.active_addresses onchain_data <= 1000)%Z));
      [apply io_keeps_cache | |].
    { apply io_guarded_yields.
      - intros k onchain_data Hk.
        destruct (Hup k onchain_data Hk) as (node & w & Hnode & Hrun).
        exact (SolanaQueriesLaws.onchain_metrics_body_bounds node w onchain_data Hnode Hrun).
      - intros now. cbn. lia. }
    intros onchain_data [Hcount Haddresses].
    unfold against_baseline. cbv beta iota zeta.
    rewrite (below_baseline _ 25 50 (proj2 Hcount)) by (unfold inject_Z; lra).
    rewrite (far_below_baseline _ 25 (50 * 0.7) (proj2 Hcount)) by (unfold inject_Z; lra).
    rewrite (below_baseline _ 1000 1000 (proj2 Haddresses)) by (unfold inject_Z; lra).
    eapply emit_both; [reflexivity |]. intros ts _.
    cbn [SignalData.direction].
    destruct (gt (OnChainData.tps onchain_data) 1000);
      [| destruct (lt (OnChainData.tps onchain_data) (1000 * 0.7))];
      destruct (lt (inject_Z (OnChainData.active_addresses onchain_data)) (1000 * 0.7));
      vm_compute; discriminate.
  - unfold generate_scalp_signal.
    eapply checked_both; [reflexivity |]. along_computation.
    eapply emit_both; [reflexivity |]. intros ts H; discriminate H.
Qed.

Lemma onchain_signal_never_points_up_witness :
  cache_all never_up
    (snd (generate_onchain_signal Pipeline.upstream_from_chain fresh_state))
  /\ forall signal,
       fst (generate_onchain_signal Pipeline.upstream_from_chain fresh_state)
         = Return signal ->
       never_up "ON_CHAIN" signal.
Proof.
  apply (onchain_signal_never_points_up Pipeline.upstream_from_chain "ON_CHAIN"
           (generate_onchain_signal Pipeline.upstream_from_chain) fresh_state).
  - intros k onchain_data H.
    exists SolanaQueries.sample_node, SolanaQueries.start.
    split; [| revert H; vm_compute; exact (fun H => H)].
    split.
    + intros j limit signatures Hj.
      cbn [SolanaQueries.sample_node SolanaQueries.getSignaturesForAddress] in Hj.
      destruct (limit <? 0)%Z eqn:E; [discriminate |]. injection Hj as <-.
      rewrite length_firstn. lia.
    + intros j value [= <-]. cbn. lia.
  - cbn. tauto.
  - intros name signal H. vm_compute in H. discriminate H.
Defined.

(** X15: [generate_onchain_signal] always returns a signal, and that signal
    is in the cache afterwards: its one indicator method catches what goes
    wrong and its own arithmetic divides by constants only. *)
Theorem onchain_signal_is_always_produced up st :
  exists signal st',
    generate_onchain_signal up st = (Return signal, st') /\ cached_at "ON_CHAIN" signal st'.
Proof.
  assert (Hnone : lets_out (fun _ => False) (generate_onchain_signal up)).
  { unfold generate_onchain_signal, against_baseline.
    eapply checked_lets_out; [reflexivity |]. order_flow_only. }
  destruct (generate_onchain_signal up st) as [[signal | e] st'] eqn:E.
  - exists signal, st'. split; [reflexivity |].
    apply (producers_cache up "ON_CHAIN" (generate_onchain_signal up)) with (st := st);
      [| exact E].
    unfold producers. cbn [In]. tauto.
  - destruct (Hnone st e st' E).
Qed.

End SignalGeneratorLaws.

Module SignalProcessorLaws.
Import Py Indicators SignalProcessor SignalProcessorFacts.
Local Open Scope Q_scope.

(** *** The first loop, in general *)

Lemma dict_set_entries {V : Type} (d : list (string * V)) k v e :
  In e (dict_set d k v) -> e = (k, v) \/ In e d.
Proof.
  induction d as [| [k' v'] d IH]; cbn [dict_set]; intros H.
  - destruct H as [<- | []]. now left.
  - destruct (String.eqb k k').
    + destruct H as [<- | H]; [now left | right; now right].
    + destruct H as [<- | H]; [right; now left |].
      destruct (IH H) as [-> | H']; [now left | right; now right].
Qed.

(** Whatever the first loop keeps was in the mapping and is still valid. *)
Lemma valid_signals_sound current_time signals : forall acc valid,
  valid_signals current_time signals acc = Return valid ->
  forall e, In e valid ->
    In e acc \/ (In e signals /\ still_valid current_time e = true).
Proof.
  induction signals as [| [name signal] rest IH]; intros acc valid H e He.
  - cbn in H. injection H as <-. now left.
  - cbn [valid_signals] in H.
    destruct (dict_get Config.INDICATORS name) as [cfg |] eqn:Hcfg; [| discriminate].
    destruct (current_time <=? _)%Z eqn:Hle.
    + destruct (IH _ _ H e He) as [Hin | [Hin Hv]].
      * destruct (dict_set_entries _ _ _ _ Hin) as [-> | Hacc]; [| now left].
        right. split; [now left |].
        unfold still_valid. cbn [fst snd]. now rewrite Hcfg.
      * right. split; [now right | exact Hv].
    + destruct (IH _ _ H e He) as [Hin | [Hin Hv]]; [now left |].
      right. split; [now right | exact Hv].
Qed.

(** With distinct keys the first loop is a filter. *)
Lemma valid_signals_filter current_time signals : forall acc valid,
  NoDup (map fst (acc ++ signals)) ->
  valid_signals current_time signals acc = Return valid ->
  valid = acc ++ List.filter (still_valid current_time) signals.
Proof.
  induction signals as [| [name signal] rest IH]; intros acc valid Hnd H.
  - cbn in H. injection H as <-. cbn. now rewrite app_nil_r.
  - cbn [valid_signals] in H. cbn [List.filter]. unfold still_valid at 1. cbn [fst snd].
    destruct (dict_get Config.INDICATORS name) as [cfg |] eqn:Hcfg; [| discriminate].
    destruct (current_time <=? _)%Z eqn:Hle.
    + rewrite dict_set_fresh in H.
      * assert (Hnd' : NoDup (map fst ((acc ++ [(name, signal)]) ++ rest)))
          by (rewrite <- app_assoc; exact Hnd).
        rewrite (IH _ _ Hnd' H). now rewrite <- app_assoc.
      * rewrite map_app in Hnd. cbn [map fst] in Hnd.
        apply NoDup_app in Hnd. destruct Hnd as (_ & Hdisj & _).
        intros Hin. apply list_elem_of_In in Hin.
        apply (Hdisj name Hin). now left.
    + apply IH; [| exact H].
      rewrite map_app in *. cbn [map fst] in Hnd.
      apply NoDup_app in Hnd. destruct Hnd as (Ha & Hdisj & Hr).
      apply NoDup_cons in Hr. destruct Hr as [_ Hr].
      apply NoDup_app. repeat split; [exact Ha | | exact Hr].
      intros x Hx Hx'. apply (Hdisj x Hx). now right.
Qed.



Lemma valid_signals_keyerror current_time pre name signal post : forall acc,
  all_configured pre ->
  dict_get Config.INDICATORS name = None ->
  valid_signals current_time (pre ++ (name, signal) :: post) acc = Raise (KeyError name).
Proof.
  induction pre as [| [n s] pre IH]; intros acc Hpre Hname.
  - cbn [app valid_signals]. now rewrite Hname.
  - destruct (Hpre n s (or_introl eq_refl)) as (cfg & Hcfg).
    cbn [app valid_signals]. rewrite Hcfg.
    assert (Hrest : all_configured pre)
      by (intros n' s' Hin; apply (Hpre n' s'); now right).
    destruct (current_time <=? _)%Z; apply IH; assumption.
Qed.

(** A signal past its validity period is passed over by the first loop. *)
Lemma valid_signals_skips_expired current_time pre name signal post : forall acc,
  still_valid current_time (name, signal) = false ->
  (exists cfg, dict_get Config.INDICATORS name = Some cfg) ->
  valid_signals current_time (pre ++ (name, signal) :: post) acc
  = valid_signals current_time (pre ++ post) acc.
Proof.
  intros acc Hexp (cfg & Hcfg). revert acc.
  induction pre as [| [n s] pre IH]; intros acc.
  - cbn [app valid_signals]. rewrite Hcfg.
    unfold still_valid in Hexp. cbn [fst snd] in Hexp. rewrite Hcfg in Hexp.
    now rewrite Hexp.
  - cbn [app valid_signals].
    destruct (dict_get Config.INDICATORS n) as [c |]; [| reflexivity].
    destruct (current_time <=? _)%Z; apply IH.
Qed.

(** *** Weights *)

Lemma configured_is_weighted name cfg :
  dict_get Config.INDICATORS name = Some cfg ->
  exists w, dict_get _calculate_signal_weights name = Some w.
Proof.
  unfold Config.INDICATORS, _calculate_signal_weights. cbn [dict_get].
  repeat (destruct (String.eqb name _); [intros _; eexists; reflexivity |]).
  discriminate.
Qed.

Lemma still_valid_is_weighted current_time e :
  still_valid current_time e = true ->
  exists w, dict_get _calculate_signal_weights (fst e) = Some w.
Proof.
  unfold still_valid.
  destruct (dict_get Config.INDICATORS (fst e)) as [cfg |] eqn:Hcfg; [| discriminate].
  intros _. exact (configured_is_weighted _ _ Hcfg).
Qed.

Lemma kept_totalWeight_positive current_time signals valid :
  valid_signals current_time signals [] = Return valid ->
  valid <> [] ->
  0 < totalWeight valid.
Proof.
  intros Hvalid Hne. apply totalWeight_positive; [exact Hne |].
  intros name signal Hin.
  destruct (valid_signals_sound _ _ _ _ Hvalid _ Hin) as [[] | [_ Hv]].
  exact (still_valid_is_weighted _ _ Hv).
Qed.

(** *** A positive sum has a positive term *)


(** *** What a run that returns a decision went through *)

Lemma decision_inversion clock st signals d st' :
  process_signals clock signals st = (Return (Some d), st') ->
  exists valid,
    signals <> [] /\ valid <> [] /\
    valid_signals (clock (steps (world st))) signals [] = Return valid /\
    0 < totalWeight valid /\
    d = make_decision (self st) (clock (steps (world st))) valid
          (normalise (accumulate _calculate_signal_weights valid)) /\
    last_decision (self st') = Some d.
Proof.
  rewrite process_signals_run. destruct signals as [| entry rest]; [discriminate |].
  cbv zeta.
  destruct (valid_signals (clock (steps (world st))) (entry :: rest) [])
    as [[| v vs] | e] eqn:Hvalid; try discriminate.
  destruct (Qeq_bool _ 0); [discriminate |].
  intros H. injection H as <- <-.
  exists (v :: vs). repeat split; try discriminate.
  eapply kept_totalWeight_positive; [exact Hvalid | discriminate].
Qed.



(** X17: a key that is not a configured name makes [process_signals] raise
    [KeyError] for it, also when other signals are fine; nothing is decided
    and [last_decision] stays as it was. *)
Theorem unknown_name_raises_KeyError clock st pre name signal post :
  all_configured pre ->
  dict_get Config.INDICATORS name = None ->
  exists st',
    process_signals clock (pre ++ (name, signal) :: post) st = (Raise (KeyError name), st') /\
    self st' = self st.
Proof.
  intros Hpre Hname. rewrite process_signals_run.
  destruct (pre ++ (name, signal) :: post) as [| entry rest] eqn:E.
  - destruct pre; discriminate.
  - rewrite <- E. cbv zeta.
    rewrite (valid_signals_keyerror _ pre name signal post [] Hpre Hname).
    eexists. split; reflexivity.
Qed.

Lemma unknown_name_raises_KeyError_witness :
  exists st',
    process_signals at_noon
      (two_signals 43200 0.9 ++ ("VOLUME"%string, sample_signal "VOLUME" 43200 0.9) :: [])
      fresh_state
    = (Raise (KeyError "VOLUME"), st') /\
    self st' = self fresh_state.
Proof.
  apply (unknown_name_raises_KeyError at_noon fresh_state (two_signals 43200 0.9)
           "VOLUME" (sample_signal "VOLUME" 43200 0.9) []).
  - intros name signal Hin. unfold two_signals in Hin. cbn [In] in Hin.
    destruct Hin as [H | [H | []]]; inversion H; subst; eexists; reflexivity.
  - reflexivity.
Defined.

(** X18: the signals a decision lists are the signals of the mapping that
    are within their validity period at the time of fusion, in the order of
    the mapping, and the decision carries that time. *)
Theorem decision_lists_the_valid_signals clock st signals d st' :
  NoDup (map fst signals) ->
  process_signals clock signals st = (Return (Some d), st') ->
  TradingDecision.signals d
    = map snd (List.filter (still_valid (clock (steps (world st)))) signals) /\
  TradingDecision.timestamp d = clock (steps (world st)).
Proof.
  intros Hnd Hrun.
  destruct (decision_inversion _ _ _ _ _ Hrun) as (valid & _ & _ & Hvalid & _ & -> & _).
  destruct (make_decision_fields (self st) (clock (steps (world st))) valid
              (normalise (accumulate _calculate_signal_weights valid)))
    as (_ & _ & _ & Ht & Hs).
  cbv zeta in Ht, Hs. rewrite Hs, Ht.
  rewrite (valid_signals_filter _ _ [] valid Hnd Hvalid). split; reflexivity.
Qed.

Lemma decision_lists_the_valid_signals_witness :
  exists d st',
    process_signals at_noon mixed_signals fresh_state = (Return (Some d), st') /\
    (TradingDecision.signals d
       = map snd (List.filter (still_valid (at_noon (steps (world fresh_state))))
                              mixed_signals) /\
     TradingDecision.timestamp d = at_noon (steps (world fresh_state))).
Proof.
  eexists. eexists. split; [vm_compute; reflexivity |].
  eapply (decision_lists_the_valid_signals at_noon fresh_state mixed_signals).
  - apply (bool_decide_unpack _). vm_compute. exact I.
  - vm_compute. reflexivity.
Defined.



(** X21: a signal past its validity period has no say: with it or without
    it, [process_signals] does the same. *)
Theorem expired_signal_has_no_say clock st pre name signal post :
  pre ++ post <> [] ->
  (exists cfg, dict_get Config.INDICATORS name = Some cfg) ->
  still_valid (clock (steps (world st))) (name, signal) = false ->
  process_signals clock (pre ++ (name, signal) :: post) st
  = process_signals clock (pre ++ post) st.
Proof.
  intros Hne Hcfg Hexp. rewrite !process_signals_run.
  destruct (pre ++ (name, signal) :: post) as [| e1 r1] eqn:E1;
    [destruct pre; discriminate |].
  destruct (pre ++ post) as [| e2 r2] eqn:E2; [contradiction |].
  rewrite <- E1, <- E2. cbv zeta.
  now rewrite (valid_signals_skips_expired _ pre name signal post [] Hexp Hcfg).
Qed.

Lemma expired_signal_has_no_say_witness :
  process_signals at_noon mixed_signals fresh_state
  = process_signals at_noon recent_signals fresh_state.
Proof.
  apply (expired_signal_has_no_say at_noon fresh_state
           (firstn 1 mixed_signals)
           "SENTIMENT" (signal_at "SENTIMENT" 43000 90 1 0.95)
           (skipn 2 mixed_signals)).
  - discriminate.
  - eexists. reflexivity.
  - reflexivity.
Defined.

(** *** The two sides of the market *)






End SignalProcessorLaws.
